(** * compress-mcp-server: a shallow embedding of the unified compression
      tool, its gzip handler, the format registry and the shared utilities

    The development follows the TypeScript sources:

    - [JS]: the few pieces of the JavaScript runtime the code relies on
      (strings, numbers, truthiness, [Map], [Buffer] and its UTF-8
      decoding, [Math.round], [toFixed]);
    - [Runtime], [World]: Node's [path], [fs] and [zlib] services, and the
      file system the server runs on;
    - [CompressionUtils]: src/utils/compression-utils.ts;
    - [GzipHandler]: src/handlers/gzip-handler.ts;
    - [FormatRegistry]: src/registry/format-registry.ts;
    - [UnifiedCompression]: src/tools/unified-compression.ts;
    - [Legacy]: the stand-alone gzip tools (zip / unzip / list-zip-contents);
    - [Tools]: the [execute] of the stand-alone zip and unzip tools
      (src/tools/zip.ts, src/tools/unzip.ts).

    Numbers: sizes and byte counts are integers ([Z]), which a JavaScript
    number holds as they are below 2^53.  The quotients, differences and
    products the code forms with them are binary64 operations: the exact
    result ([Q]) rounded to the nearest double, a tie going to the even
    significand ([JS.double]).  So 23 bytes of 40 are 57 percent, the
    double of [23 / 40 * 100] being [57.49999999999999] where the exact
    value [57.5] would round to 58.  [Binary64] computes the same operations
    with the Standard Library's [SpecFloat], and the two are compared on
    ranges of sizes. *)

From Stdlib Require Import List String Ascii Bool ZArith QArith Qround Qpower.
From Stdlib Require Import Strings.Byte Floats.SpecFloat.
From Stdlib Require Import Lia Lqa Sorted DecimalString Morphisms.
Import ListNotations.

Set Implicit Arguments.

Local Open Scope string_scope.
Local Open Scope Z_scope.

(* ------------------------------------------------------------------------- *)
(** ** JavaScript runtime pieces *)
(* ------------------------------------------------------------------------- *)

Module JS.

(** [String.prototype.toLowerCase] on ASCII text: characters outside
    [A-Z] are left as they are. *)
Definition lower_ascii (c : ascii) : ascii :=
  let n := nat_of_ascii c in
  if ((65 <=? n) && (n <=? 90))%nat then ascii_of_nat (n + 32) else c.

Fixpoint toLowerCase (s : string) : string :=
  match s with
  | EmptyString => EmptyString
  | String c r => String (lower_ascii c) (toLowerCase r)
  end.

(** [s.endsWith(suffix)] *)
Definition endsWith (s suffix : string) : bool :=
  let n := String.length s in
  let k := String.length suffix in
  ((k <=? n)%nat && (substring (n - k) k s =? suffix)%string)%bool.

(** [s.includes(sub)] *)
Definition includes (s sub : string) : bool :=
  match index 0 sub s with Some _ => true | None => false end.

(** [s.slice(0, -k)] for a positive [k] *)
Definition slice_drop_last (k : nat) (s : string) : string :=
  substring 0 (String.length s - k) s.

(** [s.split('/')] *)
Fixpoint split_slash (s : string) : list string :=
  match s with
  | EmptyString => [EmptyString]
  | String c r =>
      if Ascii.eqb c "/" then EmptyString :: split_slash r
      else match split_slash r with
           | [] => [String c EmptyString]
           | x :: xs => String c x :: xs
           end
  end.

(** [parts.join(sep)] *)
Definition join (sep : string) (parts : list string) : string :=
  String.concat sep parts.

(** Truthiness of an optional string ([undefined] and the empty string are falsy) and
    of an optional number ([undefined] and [0] are falsy). *)
Definition truthy_str (o : option string) : bool :=
  match o with
  | Some s => negb (s =? EmptyString)%string
  | None => false
  end.

(** [a || b] on optional strings and on optional numbers *)
Definition or_str (o : option string) (d : string) : string :=
  match o with
  | Some s => if (s =? EmptyString)%string then d else s
  | None => d
  end.

Definition or_num (o : option Z) (d : Z) : Z :=
  match o with
  | Some n => if n =? 0 then d else n
  | None => d
  end.

(** Numbers.  A number is an IEEE 754 double, here the rational it stands
    for.  An operation gives the double nearest to its exact result, a tie
    going to the even significand: [double x] is that double, with a
    significand of 53 bits, [2^52 <= m <= 2^53], at the exponent of [x].
    The numbers of this code are sizes and what is computed from two of
    them, far from the ends of the exponent range: overflow and subnormal
    numbers are left out. *)

(** The exponent of a positive number: [2^(ilog2 x) <= x < 2^(ilog2 x + 1)]. *)
Definition ilog2 (x : Q) : Z :=
  let l := Z.log2 (Qnum x) - Z.log2 (Zpos (Qden x)) in
  if Qle_bool (2 ^ l) x then l else l - 1.

(** The nearest integer, a tie going to the even one. *)
Definition nearest_even (y : Q) : Z :=
  let f := Qfloor y in
  match (y - inject_Z f ?= 1 # 2)%Q with
  | Lt => f
  | Gt => f + 1
  | Eq => if Z.even f then f else f + 1
  end.

Definition double (x : Q) : Q :=
  match Qnum x with
  | Z0 => 0%Q
  | Zpos _ =>
      let ulp := (2 ^ (ilog2 x - 52))%Q in
      (inject_Z (nearest_even (x / ulp)) * ulp)%Q
  | Zneg _ =>
      let ulp := (2 ^ (ilog2 (- x) - 52))%Q in
      (- (inject_Z (nearest_even (- x / ulp)) * ulp))%Q
  end.

(** [a / b], [a * b] and [a - b] on numbers; [b] is not zero where the code
    divides (the callers answer [NaN] and [Infinity] themselves). *)
Definition div64 (a b : Q) : Q := double (a / b).
Definition mul64 (a b : Q) : Q := double (a * b).
Definition sub64 (a b : Q) : Q := double (a - b).

(** [Math.round]: the nearest integer, a tie going up. *)
Definition Math_round (x : Q) : Z := Qfloor (x + (1 # 2)).

(** [Math.floor] *)
Definition Math_floor (x : Q) : Z := Qfloor x.

(** Decimal rendering of a natural number. *)
Definition digits (n : Z) : string :=
  NilZero.string_of_uint (N.to_uint (Z.to_N n)).

Definition two_digits (n : Z) : string :=
  if n <? 10 then "0" ++ digits n else digits n.

(** [x.toFixed(2)]: [n] is the integer for which [n / 100 - |x|] is closest
    to zero, the larger one on a tie, [x] being taken for what it is
    exactly; the sign is printed in front. *)
Definition hundredths (a : Q) : Z := Qfloor (a * 100 + (1 # 2)).

Definition render_hundredths (n : Z) : string :=
  digits (n / 100) ++ "." ++ two_digits (n mod 100).

Definition toFixed2 (x : Q) : string :=
  let neg := Qlt_le_dec x 0 in
  let a := if neg then Qopp x else x in
  let body := render_hundredths (hundredths a) in
  if neg then "-" ++ body else body.

(** A [Map] with string keys.  Iteration follows insertion order, and
    [set] on a key that is present keeps the key's position. *)
Section StringMap.
Variable V : Type.

Definition Map := list (string * V).

Fixpoint Map_get (m : Map) (k : string) : option V :=
  match m with
  | [] => None
  | (k', v) :: r => if (k' =? k)%string then Some v else Map_get r k
  end.

Fixpoint Map_set (m : Map) (k : string) (v : V) : Map :=
  match m with
  | [] => [(k, v)]
  | (k', v') :: r =>
      if (k' =? k)%string then (k, v) :: r else (k', v') :: Map_set r k v
  end.

Definition Map_has (m : Map) (k : string) : bool :=
  match Map_get m k with Some _ => true | None => false end.

Definition Map_keys (m : Map) : list string := map fst m.
Definition Map_values (m : Map) : list V := map snd m.
Definition Map_size (m : Map) : Z := Z.of_nat (List.length m).
End StringMap.

(** [Buffer.concat(list, totalLength)]: the chunks in order, cut at
    [totalLength] bytes or filled with zero bytes up to it. *)
Definition Buffer_concat (chunks : list (list byte)) (totalLength : Z) : list byte :=
  let all := List.concat chunks in
  let n := Z.to_nat totalLength in
  (firstn n all ++ repeat x00 (n - List.length all))%list.

(** [buf.length] *)
Definition blen (b : list byte) : Z := Z.of_nat (List.length b).

(** [buf.slice(0, k)] for [k >= 0] *)
Definition Buffer_slice0 (b : list byte) (k : Z) : list byte :=
  firstn (Z.to_nat k) b.

(** Decoding UTF-8.  A string is written here as the bytes of its UTF-8
    encoding.  The decoder keeps every well-formed sequence and puts U+FFFD
    (the bytes EF BF BD) for every ill-formed part: a byte that cannot
    start a sequence, and a sequence broken off by a byte out of range,
    which is then read again as a first byte, or by the end of the input. *)
Definition replacement : list byte := [xef; xbf; xbd].

(** What a first byte above 7F announces: the number of bytes to follow and
    the range of the next one; [None] for a byte that starts nothing. *)
Definition utf8_lead (n : N) : option (nat * N * N) :=
  (if (0xC2 <=? n) && (n <=? 0xDF) then Some (1%nat, 0x80, 0xBF)
   else if n =? 0xE0 then Some (2%nat, 0xA0, 0xBF)
   else if n =? 0xED then Some (2%nat, 0x80, 0x9F)
   else if (0xE1 <=? n) && (n <=? 0xEF) then Some (2%nat, 0x80, 0xBF)
   else if n =? 0xF0 then Some (3%nat, 0x90, 0xBF)
   else if n =? 0xF4 then Some (3%nat, 0x80, 0x8F)
   else if (0xF1 <=? n) && (n <=? 0xF3) then Some (3%nat, 0x80, 0xBF)
   else None)%N.

(** [seq] holds the bytes of the sequence in progress, [needed] tells how
    many are still to come, [lower] and [upper] bound the next one. *)
Fixpoint utf8_decode (seq : list byte) (needed : nat) (lower upper : N)
    (bytes : list byte) : list byte :=
  match bytes with
  | [] => match needed with O => [] | S _ => replacement end
  | b :: rest =>
      let n := Byte.to_N b in
      let first :=
        if (n <? 0x80)%N then b :: utf8_decode [] 0 0 0 rest
        else match utf8_lead n with
             | Some (k, lower', upper') => utf8_decode [b] k lower' upper' rest
             | None => (replacement ++ utf8_decode [] 0 0 0 rest)%list
             end in
      match needed with
      | O => first
      | S k =>
          if ((lower <=? n) && (n <=? upper))%N
          then match k with
               | O => (seq ++ b :: utf8_decode [] 0 0 0 rest)%list
               | S _ => utf8_decode (seq ++ [b]) k 0x80 0xBF rest
               end
          else (replacement ++ first)%list
      end
  end.

(** [buf.toString('utf8', 0, k)] for [k] within the buffer. *)
Definition Buffer_toString (b : list byte) (k : Z) : string :=
  string_of_list_byte (utf8_decode [] 0 0 0 (firstn (Z.to_nat k) b)).

(** An [Error] object: its message and the stack text the engine attached. *)
Record Error := { message : string; stack : option string }.

End JS.

Import JS.

(* ------------------------------------------------------------------------- *)
(** ** The same operations with the floats of the Standard Library *)
(* ------------------------------------------------------------------------- *)

(** This module computes the quotients of the code with the division, the
    multiplication and the subtraction of [SpecFloat] at the precision and
    exponent range of binary64, to compare [JS.double] with them. *)
Module Binary64.

Definition of_Z (n : Z) : spec_float := binary_normalize 53 1024 n 0 false.

Definition div (x y : spec_float) : spec_float := SFdiv 53 1024 x y.
Definition mul (x y : spec_float) : spec_float := SFmul 53 1024 x y.
Definition sub (x y : spec_float) : spec_float := SFsub 53 1024 x y.

(** The rational a finite double stands for. *)
Definition value (x : spec_float) : option Q :=
  match x with
  | S754_zero _ => Some 0%Q
  | S754_finite s m e =>
      Some (inject_Z (if s then Zneg m else Zpos m) * Qpower 2 e)%Q
  | S754_infinity _ => None
  | S754_nan => None
  end.

(** [(a / b) * 100] *)
Definition times100 (a b : Z) : option Q :=
  value (mul (div (of_Z a) (of_Z b)) (of_Z 100)).

(** [Math.min(Math.round((bytesProcessed / totalBytes) * 100), 100)] *)
Definition percent (bytesProcessed totalBytes : Z) : option Z :=
  match times100 bytesProcessed totalBytes with
  | Some x => Some (Z.min (Math_round x) 100)
  | None => None
  end.

(** [((compressedSize / originalSize) * 100).toFixed(2) + '%'] *)
Definition ratio (originalSize compressedSize : Z) : option string :=
  match times100 compressedSize originalSize with
  | Some x => Some (toFixed2 x ++ "%")
  | None => None
  end.

(** [a / b] and [(a / b - 1) * 100] *)
Definition quotient (a b : Z) : option Q := value (div (of_Z a) (of_Z b)).

Definition minus1_times100 (a b : Z) : option Q :=
  value (mul (sub (div (of_Z a) (of_Z b)) (of_Z 1)) (of_Z 100)).

(** All pairs [0 <= b <= 2 * t] with [1 <= t <= n]. *)
Definition pairs_upto (n : nat) : list (Z * Z) :=
  flat_map (fun t => map (fun b => (Z.of_nat b, Z.of_nat t)) (seq 0 (S (2 * t))))
           (seq 1 n).

(** Pairs of larger sizes, up to 2^53, from a linear congruential sequence. *)
Fixpoint sequence (n : nat) (state : Z) : list Z :=
  match n with
  | O => []
  | S k =>
      let state' := (state * 6364136223846793005 + 1442695040888963407) mod 2 ^ 64 in
      (state' / 2 ^ 11) :: sequence k state'
  end.

Fixpoint pairs_of (l : list Z) : list (Z * Z) :=
  match l with
  | a :: b :: r =>
      (a mod 2 ^ 40 + 1, b mod 2 ^ 41 + 1) :: (a, b + 1)
      :: (a / 2 ^ 20, b / 2 ^ 30 + 1) :: pairs_of r
  | _ => []
  end.

(** Two numbers that are both undefined or equal. *)
Definition same (x : option Q) (y : Q) : bool :=
  match x with
  | Some v => Qeq_bool v y
  | None => false
  end.

End Binary64.

(* ------------------------------------------------------------------------- *)
(** ** Interface types (src/utils/compression-utils.ts) *)
(* ------------------------------------------------------------------------- *)

(** The values stored in the [content] object of a result. *)
Inductive value :=
| VNum (n : Z)
| VStr (s : string)
| VBool (b : bool).

Record ErrorInfo := { err_message : string; err_details : option string }.

(** [MCPResult]; [OperationResult] extends it with nothing. *)
Record MCPResult := {
  isError : bool;
  content : option (Map value);
  error : option ErrorInfo
}.

Definition OperationResult := MCPResult.

Record ProgressInfo := {
  bytesProcessed : Z;
  totalBytes : option Z;
  percentComplete : option Z;
  stage : string;
  detail : option string
}.

Record CompressionOptions := { compressionLevel : option Z }.
Record DecompressionOptions := { stripComponents : option Z }.
Record ListOptions := { previewLength : option Z }.

(* ------------------------------------------------------------------------- *)
(** ** Node services and the file system *)
(* ------------------------------------------------------------------------- *)

(** What the code imports from Node and does not define itself: the [path]
    functions, the chunking of a read stream, the gzip codec and the stack
    text of a fresh [Error].  [zlib_gunzip] gives the chunks the decoder
    emits, in order, and the error it ends with, if any. *)
Class Runtime := {
  path_normalize : string -> string;
  path_dirname : string -> string;
  path_basename : string -> string;
  path_join : string -> string -> string;
  path_extname : string -> string;
  highWaterMark : Z;
  zlib_gzip : Z -> list byte -> list byte;
  zlib_gunzip : list byte -> list (list byte) * option Error;
  error_stack : string -> option string
}.

(** A file system node, and the place of a node: the names from the root. *)
Inductive node :=
| File (data : list byte)
| Dir.

Definition location := list string.

Fixpoint loc_eqb (a b : location) : bool :=
  match a, b with
  | [], [] => true
  | x :: a', y :: b' => (x =? y)%string && loc_eqb a' b'
  | _, _ => false
  end.

Definition tree := location -> option node.

Definition put (t : tree) (q : location) (n : node) : tree :=
  fun q' => if loc_eqb q' q then Some n else t q'.

(** The state an operation runs in: the working directory, the file tree and
    the progress events handed to the caller's callback so far. *)
Record World := {
  cwd : location;
  nodes : tree;
  events : list ProgressInfo
}.

(** Path resolution as the kernel does it, one name at a time: every name is
    looked up in a directory, [..] goes to the parent. *)
Fixpoint walk (t : tree) (cur : location) (names : list string) : option location :=
  match names with
  | [] => Some cur
  | s :: rest =>
      match t cur with
      | Some Dir =>
          if ((s =? EmptyString) || (s =? "."))%string then walk t cur rest
          else if (s =? "..")%string then walk t (removelast cur) rest
          else walk t (cur ++ [s])%list rest
      | _ => None
      end
  end.

Definition isAbsolute (p : string) : bool := prefix "/" p.

Definition locate (w : World) (p : string) : option location :=
  if (p =? EmptyString)%string then None
  else walk (nodes w) (if isAbsolute p then [] else cwd w) (split_slash p).

Definition lookup (w : World) (p : string) : option node :=
  match locate w p with
  | Some q => nodes w q
  | None => None
  end.

(** [mkdir -p]: missing directories are created on the way; a file in the way
    makes it fail. *)
Fixpoint mkdirp (t : tree) (cur : location) (names : list string) : option tree :=
  match t cur with
  | Some Dir =>
      match names with
      | [] => Some t
      | s :: rest =>
          if ((s =? EmptyString) || (s =? "."))%string then mkdirp t cur rest
          else if (s =? "..")%string then mkdirp t (removelast cur) rest
          else
            let q := (cur ++ [s])%list in
            match t q with
            | None => mkdirp (put t q Dir) q rest
            | Some _ => mkdirp t q rest
            end
      end
  | _ => None
  end.

(** Chunks of at most [S k] bytes, all full but the last. *)
Fixpoint chunks_fuel (fuel k : nat) (d : list byte) : list (list byte) :=
  match fuel with
  | O => []
  | S fuel' =>
      match d with
      | [] => []
      | _ => firstn (S k) d :: chunks_fuel fuel' k (skipn (S k) d)
      end
  end.

Definition chunksOf (size : nat) (d : list byte) : list (list byte) :=
  chunks_fuel (List.length d) (Nat.pred size) d.

(** *** Computations: state and exceptions *)

Inductive outcome (A : Type) :=
| Ret (a : A)
| Throw (e : Error).

Arguments Ret {A} a.
Arguments Throw {A} e.

Definition M (A : Type) := World -> outcome A * World.

Definition ret {A} (a : A) : M A := fun w => (Ret a, w).

Definition throw {A} (e : Error) : M A := fun w => (Throw e, w).

Definition bind {A B} (c : M A) (k : A -> M B) : M B :=
  fun w =>
    match c w with
    | (Ret a, w') => k a w'
    | (Throw e, w') => (Throw e, w')
    end.

(** [try { body } catch (e) { handler }] *)
Definition try_catch {A} (body : M A) (handler : Error -> M A) : M A :=
  fun w =>
    match body w with
    | (Ret a, w') => (Ret a, w')
    | (Throw e, w') => handler e w'
    end.

Declare Scope js_scope.
Delimit Scope js_scope with js.
Notation "x <- c ;; k" := (bind c (fun x => k))
  (at level 61, c at next level, right associativity) : js_scope.
Notation "c ;;; k" := (bind c (fun _ => k))
  (at level 61, right associativity) : js_scope.
Local Open Scope js_scope.

Section NodeFs.
Context {rt : Runtime}.

(** [new Error(msg)] *)
Definition newError (msg : string) : Error :=
  {| message := msg; stack := error_stack msg |}.

Definition ENOENT (syscall p : string) : Error :=
  newError ("ENOENT: no such file or directory, " ++ syscall ++ " '" ++ p ++ "'").
Definition EEXIST (syscall p : string) : Error :=
  newError ("EEXIST: file already exists, " ++ syscall ++ " '" ++ p ++ "'").
Definition EISDIR (syscall p : string) : Error :=
  newError ("EISDIR: illegal operation on a directory, " ++ syscall ++ " '" ++ p ++ "'").

(** [fs.access(p, F_OK)] *)
Definition fsAccess (p : string) : M unit :=
  fun w =>
    match lookup w p with
    | Some _ => (Ret tt, w)
    | None => (Throw (ENOENT "access" p), w)
    end.

(** [fs.stat(p)] *)
Definition fsStat (p : string) : M node :=
  fun w =>
    match lookup w p with
    | Some n => (Ret n, w)
    | None => (Throw (ENOENT "stat" p), w)
    end.

Definition stats_isFile (n : node) : bool :=
  match n with File _ => true | Dir => false end.
Definition stats_isDirectory (n : node) : bool :=
  match n with File _ => false | Dir => true end.
(** [stats.size]; the size of a directory entry is left at 0. *)
Definition stats_size (n : node) : Z :=
  match n with File d => blen d | Dir => 0 end.

(** [fs.mkdir(p, { recursive: true })] *)
Definition fsMkdir (p : string) : M unit :=
  fun w =>
    if (p =? EmptyString)%string then (Throw (ENOENT "mkdir" p), w)
    else
      match mkdirp (nodes w) (if isAbsolute p then [] else cwd w) (split_slash p) with
      | Some t => (Ret tt, {| cwd := cwd w; nodes := t; events := events w |})
      | None => (Throw (EEXIST "mkdir" p), w)
      end.

(** The bytes a read stream on [p] delivers, in chunks of [highWaterMark]. *)
Definition readStream (p : string) : M (list (list byte)) :=
  fun w =>
    match lookup w p with
    | Some (File d) => (Ret (chunksOf (Z.to_nat highWaterMark) d), w)
    | Some Dir => (Throw (EISDIR "read" p), w)
    | None => (Throw (ENOENT "open" p), w)
    end.

(** Opening a write stream on [p]: the file is created or emptied. *)
Definition openWrite (p : string) : M location :=
  fun w =>
    match locate w p with
    | Some q =>
        match nodes w q with
        | Some Dir => (Throw (EISDIR "open" p), w)
        | _ => (Ret q, {| cwd := cwd w; nodes := put (nodes w) q (File []); events := events w |})
        end
    | None => (Throw (ENOENT "open" p), w)
    end.

(** Writing a chunk to an open write stream. *)
Definition writeChunk (q : location) (chunk : list byte) : M unit :=
  fun w =>
    let old := match nodes w q with Some (File d) => d | _ => [] end in
    (Ret tt, {| cwd := cwd w; nodes := put (nodes w) q (File (old ++ chunk)%list); events := events w |}).

(** Calling the progress callback, when the caller gave one. *)
Definition report (progressCallback : bool) (p : ProgressInfo) : M unit :=
  fun w =>
    if progressCallback
    then (Ret tt, {| cwd := cwd w; nodes := nodes w; events := (events w ++ [p])%list |})
    else (Ret tt, w).

End NodeFs.

(* ------------------------------------------------------------------------- *)
(** ** src/utils/compression-utils.ts *)
(* ------------------------------------------------------------------------- *)

Module CompressionUtils.
Section Utils.
Context {rt : Runtime}.

Definition dquote : string := String (ascii_of_nat 34) EmptyString.

(** [normalizePath]: throws when the normalized text contains two dots in a
    row. *)
Definition normalizePath (filePath : string) : M string :=
  let normalized := path_normalize filePath in
  if includes normalized ".."
  then throw (newError ("Path traversal detected. Path cannot contain "
                        ++ dquote ++ ".." ++ dquote))
  else ret normalized.

Definition fileExists (filePath : string) : M bool :=
  try_catch (fsAccess filePath ;;; ret true) (fun _ => ret false).

Definition isFile (filePath : string) : M bool :=
  try_catch (stats <- fsStat filePath ;; ret (stats_isFile stats))
            (fun _ => ret false).

Definition isDirectory (dirPath : string) : M bool :=
  try_catch (stats <- fsStat dirPath ;; ret (stats_isDirectory stats))
            (fun _ => ret false).

(** [ensureDir]: the [catch] also receives the error thrown for a path that
    exists and is no directory, and answers it with [mkdir] as well. *)
Definition ensureDir (dirPath : string) : M unit :=
  try_catch
    (fsAccess dirPath ;;;
     d <- isDirectory dirPath ;;
     if negb d
     then throw (newError ("Path exists but is not a directory: " ++ dirPath))
     else ret tt)
    (fun _ => fsMkdir dirPath).

Definition getFileSize (filePath : string) : M Z :=
  try_catch (stats <- fsStat filePath ;; ret (stats_size stats))
            (fun e => throw (newError ("Failed to get file size: " ++ message e))).

Definition resolveOutputPath (sourcePath : string)
    (outputDir outputFileName defaultExt : option string) : string :=
  let sourceDir := path_dirname sourcePath in
  let targetDir := or_str outputDir sourceDir in
  let sourceBaseName := path_basename sourcePath in
  let derived :=
    match defaultExt with
    | Some ext =>
        if (ext =? EmptyString)%string then sourceBaseName
        else sourceBaseName ++ ext
    | None => sourceBaseName
    end in
  path_join targetDir (or_str outputFileName derived).

(** [formatCompressionRatio]: [(compressedSize / originalSize) * 100] with
    two decimals and a percent sign; a zero divisor gives [Infinity] or
    [NaN] as in JavaScript. *)
Definition formatCompressionRatio (originalSize compressedSize : Z) : string :=
  if originalSize =? 0
  then (if compressedSize =? 0 then "NaN%"
        else if 0 <? compressedSize then "Infinity%" else "-Infinity%")
  else
    let ratio := mul64 (div64 (inject_Z compressedSize) (inject_Z originalSize)) 100 in
    toFixed2 ratio ++ "%".

(** [{ text: message, ...data }] *)
Definition createSuccessResult (msg : string) (data : Map value) : MCPResult :=
  {| isError := false;
     content := Some (fold_left (fun m kv => Map_set m (fst kv) (snd kv))
                                data [("text", VStr msg)]);
     error := None |}.

Definition createErrorResult (msg : string) (details : option string) : MCPResult :=
  {| isError := true;
     content := None;
     error := Some {| err_message := msg; err_details := details |} |}.

Definition getFileExtension (filePath : string) : string :=
  let basename := path_basename filePath in
  if endsWith basename ".tar.gz" then ".tar.gz" else path_extname filePath.

Definition removeExtension (filePath : string) (extension : option string) : string :=
  let ext := or_str extension (getFileExtension filePath) in
  if negb (ext =? EmptyString)%string && endsWith filePath ext
  then slice_drop_last (String.length ext) filePath
  else filePath.

(** [formatProgress]: the percentage is set only for a truthy [totalBytes]. *)
Definition formatProgress (bytesProcessed : Z) (totalBytes : option Z)
    (stage detail : option string) : ProgressInfo :=
  let stage' := or_str stage "processing" in
  let detail' := if truthy_str detail then detail else None in
  match totalBytes with
  | Some total =>
      if total =? 0
      then {| bytesProcessed := bytesProcessed; totalBytes := None;
              percentComplete := None; stage := stage'; detail := detail' |}
      else {| bytesProcessed := bytesProcessed; totalBytes := Some total;
              percentComplete :=
                Some (Z.min (Math_round
                               (mul64 (div64 (inject_Z bytesProcessed) (inject_Z total))
                                      100))
                            100);
              stage := stage'; detail := detail' |}
  | None =>
      {| bytesProcessed := bytesProcessed; totalBytes := None;
         percentComplete := None; stage := stage'; detail := detail' |}
  end.

End Utils.
End CompressionUtils.

(* ------------------------------------------------------------------------- *)
(** ** src/interfaces/compression-handler.ts *)
(* ------------------------------------------------------------------------- *)

(** The handler interface.  The last argument of the three operations tells
    whether the caller passed a progress callback. *)
Record CompressionHandler := {
  getSupportedExtensions : list string;
  getFormatName : string;
  isFormatValid : string -> bool;
  compress : string -> string -> CompressionOptions -> bool -> M OperationResult;
  decompress : string -> string -> DecompressionOptions -> bool -> M OperationResult;
  listContents : string -> ListOptions -> bool -> M OperationResult
}.

(* ------------------------------------------------------------------------- *)
(** ** src/handlers/gzip-handler.ts *)
(* ------------------------------------------------------------------------- *)

Module GzipHandler.
Section Handler.
Context {rt : Runtime}.
Import CompressionUtils.

Definition getSupportedExtensions : list string := [".gz"].
Definition getFormatName : string := "gzip".

Definition isFormatValid (filePath : string) : bool :=
  endsWith (toLowerCase filePath) ".gz".

(** The three pipelines.  [await pipeline(source, transform, target)] is
    run to its end in one go.  The streams were made before it, and with
    them their files are opened: opening the target creates it or empties
    it, before a byte of the source is read.  Then the source is read
    through in chunks, the ['data'] listeners run once per chunk, and the
    target receives what the transform gives.  So a target that is the
    source file itself is read as an empty file.  An error of a stage makes
    the [await] throw; what was written before stays in the target.  Which
    events of a failing pipeline still reach the callback depends on Node's
    scheduling; here a target that cannot be opened ends the pipeline
    before the first chunk is reported, and a decoding error surfaces after
    the last one. *)

(** [createGzip({ level })]: zlib refuses a level outside [-1, 9] (the
    message is shortened). *)
Definition createGzip (level : Z) : M (list byte -> list byte) :=
  if (level <? -1) || (9 <? level)
  then throw (newError ("The value of " ++ dquote ++ "options.level" ++ dquote
                        ++ " is out of range."))
  else ret (zlib_gzip level).

(** The ['data'] listener on the source stream, run on every chunk. *)
Fixpoint onSourceData (progressCallback : bool) (sourceSize : Z) (stageName : string)
    (processedBytes : Z) (chunks : list (list byte)) : M Z :=
  match chunks with
  | [] => ret processedBytes
  | chunk :: rest =>
      let processedBytes' := processedBytes + blen chunk in
      report progressCallback
        (formatProgress processedBytes' (Some sourceSize) (Some stageName) None) ;;;
      onSourceData progressCallback sourceSize stageName processedBytes' rest
  end.

Fixpoint writeAll (q : location) (chunks : list (list byte)) : M unit :=
  match chunks with
  | [] => ret tt
  | chunk :: rest => writeChunk q chunk ;;; writeAll q rest
  end.

(** The body of the [try] block of [compress]. *)
Definition compress_body (sourcePath targetPath : string)
    (options : CompressionOptions) (progressCallback : bool) : M OperationResult :=
  ex <- fileExists sourcePath ;;
  if negb ex
  then ret (createErrorResult ("Source file does not exist: " ++ sourcePath) None)
  else
    isf <- isFile sourcePath ;;
    if negb isf
    then ret (createErrorResult ("Source path is not a file: " ++ sourcePath)
                (Some "Please use a regular file for gzip compression."))
    else
      sourceSize <- getFileSize sourcePath ;;
      let targetDir := path_dirname targetPath in
      ensureDir targetDir ;;;
      let level := or_num (compressionLevel options) 6 in
      gzipStream <- createGzip level ;;
      report progressCallback
        (formatProgress 0 (Some sourceSize) (Some "compressing") None) ;;;
      (* await pipeline(sourceStream, gzipStream, targetStream) *)
      q <- openWrite targetPath ;;
      chunks <- readStream sourcePath ;;
      onSourceData progressCallback sourceSize "compressing" 0 chunks ;;;
      writeChunk q (gzipStream (List.concat chunks)) ;;;
      compressedSize <- getFileSize targetPath ;;
      let ratio := formatCompressionRatio sourceSize compressedSize in
      ret (createSuccessResult
             ("Successfully compressed file to " ++ targetPath)
             [("originalSize", VNum sourceSize);
              ("compressedSize", VNum compressedSize);
              ("compressionRatio", VStr ratio);
              ("sourcePath", VStr sourcePath);
              ("targetPath", VStr targetPath)]).

Definition compress (sourcePath targetPath : string)
    (options : CompressionOptions) (progressCallback : bool) : M OperationResult :=
  try_catch (compress_body sourcePath targetPath options progressCallback)
    (fun e => ret (createErrorResult ("Error compressing file: " ++ message e)
                     (stack e))).

(** The body of the [try] block of [decompress]. *)
Definition decompress_body (sourcePath targetDir : string)
    (options : DecompressionOptions) (progressCallback : bool) : M OperationResult :=
  ex <- fileExists sourcePath ;;
  if negb ex
  then ret (createErrorResult ("Source file does not exist: " ++ sourcePath) None)
  else
    isf <- isFile sourcePath ;;
    if negb isf
    then ret (createErrorResult ("Source path is not a file: " ++ sourcePath) None)
    else
      ensureDir targetDir ;;;
      let sourceBaseName := path_basename sourcePath in
      let targetFileName :=
        if endsWith sourceBaseName ".gz"
        then slice_drop_last 3 sourceBaseName
        else sourceBaseName in
      let targetPath := path_join targetDir targetFileName in
      sourceSize <- getFileSize sourcePath ;;
      report progressCallback
        (formatProgress 0 (Some sourceSize) (Some "decompressing") None) ;;;
      (* await pipeline(sourceStream, gunzipStream, targetStream) *)
      q <- openWrite targetPath ;;
      chunks <- readStream sourcePath ;;
      onSourceData progressCallback sourceSize "decompressing" 0 chunks ;;;
      let decoded := zlib_gunzip (List.concat chunks) in
      writeAll q (fst decoded) ;;;
      match snd decoded with
      | Some e => throw e
      | None =>
          decompressedSize <- getFileSize targetPath ;;
          ret (createSuccessResult
                 ("Successfully decompressed file to " ++ targetPath)
                 [("compressedSize", VNum sourceSize);
                  ("decompressedSize", VNum decompressedSize);
                  ("expansionRatio",
                   VStr (formatCompressionRatio sourceSize decompressedSize));
                  ("sourcePath", VStr sourcePath);
                  ("targetPath", VStr targetPath)])
      end.

Definition decompress (sourcePath targetDir : string)
    (options : DecompressionOptions) (progressCallback : bool) : M OperationResult :=
  try_catch (decompress_body sourcePath targetDir options progressCallback)
    (fun e => ret (createErrorResult ("Error decompressing file: " ++ message e)
                     (stack e))).

(** The ['data'] listener on the gunzip stream of [listContents]: the chunk
    is kept, and once [totalLength] has reached [previewLength] both streams
    are destroyed, so that no later chunk arrives.  The result tells the
    chunks kept, their total length and whether the streams were destroyed. *)
Fixpoint onGunzipData (progressCallback : bool) (sourceSize previewLen : Z)
    (kept : list (list byte)) (totalLength : Z) (incoming : list (list byte))
    : M (list (list byte) * Z * bool) :=
  match incoming with
  | [] => ret (kept, totalLength, false)
  | chunk :: rest =>
      let kept' := (kept ++ [chunk])%list in
      let totalLength' := totalLength + blen chunk in
      let destroyed := previewLen <=? totalLength' in
      report progressCallback
        (formatProgress (Z.min totalLength' sourceSize) (Some sourceSize)
           (Some "reading") None) ;;;
      if destroyed then ret (kept', totalLength', true)
      else onGunzipData progressCallback sourceSize previewLen kept' totalLength' rest
  end.

(** The body of the [try] block of [listContents]. *)
Definition listContents_body (sourcePath : string)
    (options : ListOptions) (progressCallback : bool) : M OperationResult :=
  ex <- fileExists sourcePath ;;
  if negb ex
  then ret (createErrorResult ("Source file does not exist: " ++ sourcePath) None)
  else
    isf <- isFile sourcePath ;;
    if negb isf
    then ret (createErrorResult ("Source path is not a file: " ++ sourcePath) None)
    else if negb (isFormatValid sourcePath)
    then ret (createErrorResult ("File is not a valid gzip file: " ++ sourcePath)
                (Some "File must have .gz extension"))
    else
      sourceSize <- getFileSize sourcePath ;;
      let previewLen := or_num (previewLength options) 1000 in
      report progressCallback
        (formatProgress 0 (Some sourceSize) (Some "reading") None) ;;;
      (* await pipeline(sourceStream, gunzipStream), a premature close ignored *)
      source <- readStream sourcePath ;;
      let decoded := zlib_gunzip (List.concat source) in
      st <- onGunzipData progressCallback sourceSize previewLen [] 0 (fst decoded) ;;
      let '(chunks, totalLength, destroyed) := st in
      match (if destroyed then None else snd decoded) with
      | Some e => throw e
      | None =>
          let buffer := Buffer_concat chunks totalLength in
          let previewContent :=
            Buffer_toString buffer (Z.min previewLen totalLength) in
          let originalFileName :=
            removeExtension (path_basename sourcePath) (Some ".gz") in
          report progressCallback
            (formatProgress sourceSize (Some sourceSize) (Some "complete") None) ;;;
          ret (createSuccessResult
                 ("Content preview of " ++ sourcePath)
                 [("fileName", VStr originalFileName);
                  ("compressedSize", VNum sourceSize);
                  ("previewSize", VNum totalLength);
                  ("preview", VStr previewContent);
                  ("isTruncated", VBool (previewLen <? totalLength))])
      end.

Definition listContents (sourcePath : string)
    (options : ListOptions) (progressCallback : bool) : M OperationResult :=
  try_catch (listContents_body sourcePath options progressCallback)
    (fun e => ret (createErrorResult ("Error reading compressed file: " ++ message e)
                     (stack e))).

(** [new GzipHandler()] *)
Definition handler : CompressionHandler :=
  Build_CompressionHandler getSupportedExtensions getFormatName isFormatValid
    compress decompress listContents.

End Handler.
End GzipHandler.

(* ------------------------------------------------------------------------- *)
(** ** src/registry/format-registry.ts *)
(* ------------------------------------------------------------------------- *)

Module FormatRegistry.

Record t := {
  handlers : Map CompressionHandler;
  extensionMap : Map CompressionHandler
}.

(** [new FormatRegistry()] *)
Definition empty : t := {| handlers := []; extensionMap := [] |}.

Definition register (r : t) (formatName : string) (handler : CompressionHandler) : t :=
  {| handlers := Map_set (handlers r) (toLowerCase formatName) handler;
     extensionMap :=
       fold_left (fun m ext => Map_set m (toLowerCase ext) handler)
                 (getSupportedExtensions handler) (extensionMap r) |}.

Definition getHandlerByFormat (r : t) (formatName : string) : option CompressionHandler :=
  Map_get (handlers r) (toLowerCase formatName).

Definition getHandlerByExtension (r : t) (extension : string) : option CompressionHandler :=
  let ext := toLowerCase extension in
  if endsWith ext ".tar.gz" && Map_has (extensionMap r) ".tar.gz"
  then Map_get (extensionMap r) ".tar.gz"
  else Map_get (extensionMap r) ext.

Definition getHandlerForFile (r : t) (filePath : string) : option CompressionHandler :=
  find (fun handler => isFormatValid handler filePath) (Map_values (handlers r)).

Definition getAllFormats (r : t) : list string := Map_keys (handlers r).
Definition getAllExtensions (r : t) : list string := Map_keys (extensionMap r).
Definition getHandlerCount (r : t) : Z := Map_size (handlers r).

End FormatRegistry.

(* ------------------------------------------------------------------------- *)
(** ** src/tools/unified-compression.ts *)
(* ------------------------------------------------------------------------- *)

Module UnifiedCompression.

Inductive OperationType := OpCompress | OpDecompress | OpList.

Definition operationName (op : OperationType) : string :=
  match op with
  | OpCompress => "compress"
  | OpDecompress => "decompress"
  | OpList => "list"
  end.

(** The parameters [execute] receives, after the schema has accepted them. *)
Record Params := {
  operation : OperationType;
  format : string;
  sourcePath : string;
  outputDirectory : option string;
  outputFileName : option string;
  p_compressionLevel : option Z;
  p_stripComponents : option Z;
  p_previewLength : option Z
}.

(** What the [try] block of [execute] leaves: a result, or the promise of a
    handler, returned as it is.  The promise is not awaited inside the
    block, so it settles outside of it. *)
Inductive completion :=
| Value (r : MCPResult)
| Promise (p : M OperationResult).

Section Tool.
Context {rt : Runtime}.
Import CompressionUtils.
Variable registry : FormatRegistry.t.

Definition execute_body (params : Params) : M completion :=
  match FormatRegistry.getHandlerByFormat registry (format params) with
  | None =>
      ret (Value (createErrorResult
             ("Unsupported format: " ++ format params)
             (Some ("Supported formats are: "
                    ++ join ", " (FormatRegistry.getAllFormats registry)))))
  | Some handler =>
      ex <- fileExists (sourcePath params) ;;
      if negb ex
      then ret (Value (createErrorResult
                  ("Source path does not exist: " ++ sourcePath params) None))
      else
        match operation params with
        | OpCompress =>
            isDir <- isDirectory (sourcePath params) ;;
            isF <- isFile (sourcePath params) ;;
            if negb isDir && negb isF
            then ret (Value (createErrorResult
                        ("Source path must be a file or directory: "
                         ++ sourcePath params) None))
            else
              let extensions := getSupportedExtensions handler in
              let defaultExt :=
                match extensions with e :: _ => e | [] => EmptyString end in
              let targetPath :=
                resolveOutputPath (sourcePath params) (outputDirectory params)
                  (outputFileName params) (Some defaultExt) in
              tex <- fileExists targetPath ;;
              if tex
              then ret (Value (createErrorResult
                          ("Output file already exists: " ++ targetPath)
                          (Some "Please specify a different output file name or directory")))
              else
                ret (Promise
                       (compress handler (sourcePath params) targetPath
                          (Build_CompressionOptions
                             (Some (or_num (p_compressionLevel params) 6)))
                          false))
        | OpDecompress =>
            isF <- isFile (sourcePath params) ;;
            if negb isF
            then ret (Value (createErrorResult
                        ("Source path must be a file: " ++ sourcePath params) None))
            else if negb (isFormatValid handler (sourcePath params))
            then ret (Value (createErrorResult
                        ("File is not a valid " ++ format params ++ " file: "
                         ++ sourcePath params)
                        (Some ("Expected file extensions: "
                               ++ join ", " (getSupportedExtensions handler)))))
            else
              let targetDir :=
                or_str (outputDirectory params) (path_dirname (sourcePath params)) in
              ensureDir targetDir ;;;
              ret (Promise
                     (decompress handler (sourcePath params) targetDir
                        (Build_DecompressionOptions
                           (Some (or_num (p_stripComponents params) 0)))
                        false))
        | OpList =>
            isF <- isFile (sourcePath params) ;;
            if negb isF
            then ret (Value (createErrorResult
                        ("Source path must be a file: " ++ sourcePath params) None))
            else if negb (isFormatValid handler (sourcePath params))
            then ret (Value (createErrorResult
                        ("File is not a valid " ++ format params ++ " file: "
                         ++ sourcePath params)
                        (Some ("Expected file extensions: "
                               ++ join ", " (getSupportedExtensions handler)))))
            else
              ret (Promise
                     (listContents handler (sourcePath params)
                        (Build_ListOptions
                           (Some (or_num (p_previewLength params) 1000)))
                        false))
        end
  end.

Definition execute (params : Params) : M MCPResult :=
  c <- try_catch (execute_body params)
         (fun e => ret (Value (createErrorResult
                   ("Error during " ++ operationName (operation params)
                    ++ " operation: " ++ message e)
                   (stack e)))) ;;
  match c with
  | Value r => ret r
  | Promise p => p
  end.

End Tool.
End UnifiedCompression.

(* ------------------------------------------------------------------------- *)
(** ** src/index.ts *)
(* ------------------------------------------------------------------------- *)

(** [registerHandlers()]: the registry the server starts with. *)
Definition registry {rt : Runtime} : FormatRegistry.t :=
  FormatRegistry.register FormatRegistry.empty "gzip" GzipHandler.handler.

(* ------------------------------------------------------------------------- *)
(** ** The stand-alone gzip tools *)
(* ------------------------------------------------------------------------- *)

Module Legacy.

(** [class MemoryWritable] of the list-zip-contents tool. *)
Record MemoryWritable := {
  chunks : list (list byte);
  totalLength : Z;
  maxLength : Z
}.

(** [new MemoryWritable(maxLength)] *)
Definition create (maxLength : Z) : MemoryWritable :=
  {| chunks := []; totalLength := 0; maxLength := maxLength |}.

Definition _write (s : MemoryWritable) (chunk : list byte) : MemoryWritable :=
  if totalLength s <? maxLength s then
    let remainingLength := maxLength s - totalLength s in
    let chunk' :=
      if remainingLength <? blen chunk
      then Buffer_slice0 chunk remainingLength
      else chunk in
    {| chunks := (chunks s ++ [chunk'])%list;
       totalLength := totalLength s + blen chunk';
       maxLength := maxLength s |}
  else s.

Definition getContent (s : MemoryWritable) : list byte :=
  Buffer_concat (chunks s) (totalLength s).

Definition getContentAsString (s : MemoryWritable) : string :=
  Buffer_toString (getContent s) (blen (getContent s)).

(** The writes a pipeline performs on the sink, one per chunk. *)
Definition writes (s : MemoryWritable) (incoming : list (list byte)) : MemoryWritable :=
  fold_left _write incoming s.

(** The expansion figure of the unzip tool:
    [((extractedStats.size / fileStats.size) - 1) * 100], printed with its
    sign. *)
Definition extractionRatio (extractedSize fileSize : Z) : Q :=
  mul64 (sub64 (div64 (inject_Z extractedSize) (inject_Z fileSize)) 1) 100.

Definition extractionRatioFormatted (extractedSize fileSize : Z) : string :=
  if fileSize =? 0
  then (if extractedSize =? 0 then "NaN%"
        else if 0 <? extractedSize then "+Infinity%" else "-Infinity%")
  else
    let r := extractionRatio extractedSize fileSize in
    if Qlt_le_dec 0 r then "+" ++ toFixed2 r ++ "%" else toFixed2 r ++ "%".

End Legacy.

(* ------------------------------------------------------------------------- *)
(** ** A runtime to run the code on: POSIX paths and a stand-in codec *)
(* ------------------------------------------------------------------------- *)

Module Posix.

Definition slash : ascii := "/".
Definition is_slash (c : ascii) : bool := Ascii.eqb c slash.

Fixpoint dropWhile {A} (f : A -> bool) (l : list A) : list A :=
  match l with
  | [] => []
  | x :: r => if f x then dropWhile f r else l
  end.

Fixpoint takeWhile {A} (f : A -> bool) (l : list A) : list A :=
  match l with
  | [] => []
  | x :: r => if f x then x :: takeWhile f r else []
  end.

(** [normalizeString] of Node's path module, on the names between slashes;
    [acc] holds the names kept so far, the last one first. *)
Fixpoint normalizeNames (allowAboveRoot : bool) (acc names : list string) : list string :=
  match names with
  | [] => rev acc
  | s :: rest =>
      if ((s =? EmptyString) || (s =? "."))%string
      then normalizeNames allowAboveRoot acc rest
      else if (s =? "..")%string then
        match acc with
        | [] =>
            normalizeNames allowAboveRoot
              (if allowAboveRoot then [".."] else []) rest
        | top :: acc' =>
            if (top =? "..")%string
            then normalizeNames allowAboveRoot
                   (if allowAboveRoot then ".." :: acc else acc) rest
            else normalizeNames allowAboveRoot acc' rest
        end
      else normalizeNames allowAboveRoot (s :: acc) rest
  end.

(** [path.posix.normalize] *)
Definition normalize (p : string) : string :=
  if (p =? EmptyString)%string then "."
  else
    let absolute := isAbsolute p in
    let trailing := endsWith p "/" in
    let body := join "/" (normalizeNames (negb absolute) [] (split_slash p)) in
    if (body =? EmptyString)%string
    then (if absolute then "/" else if trailing then "./" else ".")
    else
      let body' := if trailing then body ++ "/" else body in
      if absolute then "/" ++ body' else body'.

(** [path.posix.join] of two parts *)
Definition join2 (a b : string) : string :=
  let parts := filter (fun s => negb (s =? EmptyString)%string) [a; b] in
  match parts with
  | [] => "."
  | _ => normalize (join "/" parts)
  end.

(** [path.posix.dirname] *)
Definition dirname (p : string) : string :=
  match list_ascii_of_string p with
  | [] => "."
  | c0 :: rest =>
      let hasRoot := is_slash c0 in
      let r1 := dropWhile is_slash (rev rest) in
      let r2 := dropWhile (fun c => negb (is_slash c)) r1 in
      match r2 with
      | [] => if hasRoot then "/" else "."
      | _ :: r3 =>
          match r3 with
          | [] => if hasRoot then "//" else string_of_list_ascii [c0]
          | _ => string_of_list_ascii (c0 :: rev r3)
          end
      end
  end.

(** [path.posix.basename] *)
Definition basename (p : string) : string :=
  let r1 := dropWhile is_slash (rev (list_ascii_of_string p)) in
  string_of_list_ascii (rev (takeWhile (fun c => negb (is_slash c)) r1)).

(** [path.posix.extname] *)
Definition extname (p : string) : string :=
  let b := rev (list_ascii_of_string (basename p)) in
  let isdot := fun c => Ascii.eqb c "." in
  let ext := takeWhile (fun c => negb (isdot c)) b in
  match dropWhile (fun c => negb (isdot c)) b with
  | [] => EmptyString
  | dot :: before =>
      match before with
      | [] => EmptyString
      | _ =>
          if (basename p =? "..")%string then EmptyString
          else string_of_list_ascii (dot :: rev ext)
      end
  end.

(** The stand-in codec stores the payload behind the two gzip magic bytes
    and hands it back in chunks of 16384 bytes, zlib's chunk size. *)
Definition magic : list byte := [x1f; x8b].

Definition store (level : Z) (d : list byte) : list byte := (magic ++ d)%list.

Definition unstore (d : list byte) : list (list byte) * option Error :=
  match d with
  | x1f :: x8b :: payload => (chunksOf (Z.to_nat 16384) payload, None)
  | [] => ([], Some {| message := "unexpected end of file"; stack := None |})
  | _ => ([], Some {| message := "incorrect header check"; stack := None |})
  end.

Definition runtime : Runtime :=
  {| path_normalize := normalize;
     path_dirname := dirname;
     path_basename := basename;
     path_join := join2;
     path_extname := extname;
     highWaterMark := 65536;
     zlib_gzip := store;
     zlib_gunzip := unstore;
     error_stack := fun _ => None |}.

(** A tree given by the list of its nodes; the root is a directory. *)
Fixpoint tree_of (l : list (location * node)) : tree :=
  match l with
  | [] => fun q => match q with [] => Some Dir | _ => None end
  | (q, n) :: r => put (tree_of r) q n
  end.

Definition world_of (cwd : location) (l : list (location * node)) : World :=
  {| cwd := cwd; nodes := tree_of l; events := [] |}.

(** The bytes of a text. *)
Definition bytes (s : string) : list byte := list_byte_of_string s.

End Posix.

(* ------------------------------------------------------------------------- *)
(** ** src/tools/zip.ts, src/tools/unzip.ts: the stand-alone tools *)
(* ------------------------------------------------------------------------- *)

Module Tools.

(** What the stand-alone tools use of Node besides [Runtime]: [path.resolve],
    [path.basename] with a suffix to drop, and the clock. *)
Class Host := {
  path_resolve : string -> string -> string;
  path_basename_ext : string -> string -> string;
  Date_getTime : Z
}.

(** What [reportProgress] is called with. *)
Record Report := { progress : Z; total : Z; note : string }.

(** The result of a tool: [isError] (absent on success) and the text of its
    one content item. *)
Record ToolResult := { failed : bool; text : string }.

Definition failure (msg : string) : ToolResult := {| failed := true; text := msg |}.
Definition success (msg : string) : ToolResult := {| failed := false; text := msg |}.

(** The state a tool runs in: the machine, and what [reportProgress] has been
    called with so far. *)
Record ToolWorld := { world : World; reports : list Report }.

Definition T (A : Type) := ToolWorld -> outcome A * ToolWorld.

Definition tret {A} (a : A) : T A := fun tw => (Ret a, tw).

Definition tbind {A B} (c : T A) (k : A -> T B) : T B :=
  fun tw =>
    match c tw with
    | (Ret a, tw') => k a tw'
    | (Throw e, tw') => (Throw e, tw')
    end.

(** [try { body } catch (e) { handler }] *)
Definition ttry {A} (body : T A) (handler : Error -> T A) : T A :=
  fun tw =>
    match body tw with
    | (Ret a, tw') => (Ret a, tw')
    | (Throw e, tw') => handler e tw'
    end.

(** A computation on the machine, run inside a tool. *)
Definition lift {A} (c : M A) : T A :=
  fun tw =>
    let '(o, w') := c (world tw) in
    (o, {| world := w'; reports := reports tw |}).

Definition reportProgress (r : Report) : T unit :=
  fun tw => (Ret tt, {| world := world tw; reports := (reports tw ++ [r])%list |}).

Declare Scope tool_scope.
Delimit Scope tool_scope with tool.
Notation "x <- c ;; k" := (tbind c (fun x => k))
  (at level 61, c at next level, right associativity) : tool_scope.
Notation "c ;;; k" := (tbind c (fun _ => k))
  (at level 61, right associativity) : tool_scope.

(** A line break inside a text. *)
Definition nl : string := String (ascii_of_nat 10) EmptyString.

(** [process.cwd()] *)
Definition process_cwd (w : World) : string := "/" ++ join "/" (cwd w).

(** An integer inside a template. *)
Definition intText (n : Z) : string :=
  if n <? 0 then "-" ++ digits (- n) else digits n.

(** The text of a number with at most two decimals, as a template prints
    it: no trailing zero, no point when there is no fraction. *)
Definition numberText (hundredthsOf : Z) : string :=
  let whole := digits (hundredthsOf / 100) in
  let frac := hundredthsOf mod 100 in
  if frac =? 0 then whole
  else if frac mod 10 =? 0 then whole ++ "." ++ digits (frac / 10)
  else whole ++ "." ++ two_digits frac.

Section Shared.
Context {rt : Runtime} {host : Host}.
Local Open Scope tool_scope.

(** [isAbsolute(p) ? p : resolve(process.cwd(), p)] *)
Definition absolute_of (w : World) (p : string) : string :=
  if isAbsolute p then p else path_resolve (process_cwd w) p.

Definition absolutePath (p : string) : T string :=
  fun tw => (Ret (absolute_of (world tw) p), tw).

(** The check of the source that opens each tool: [fs.stat] inside its own
    [try], with the two early returns. *)
Definition statSource (absoluteSourcePath : string) : T (ToolResult + node) :=
  ttry
    (fileStats <- lift (fsStat absoluteSourcePath) ;;
     if negb (stats_isFile fileStats)
     then tret (inl (failure ("Error: " ++ absoluteSourcePath ++ " is not a file")))
     else tret (inr fileStats))
    (fun error =>
       tret (inl (failure ("Error: Cannot access file " ++ absoluteSourcePath
                           ++ ". " ++ message error)))).

(** The ['data'] listener on the source stream; [cap] tells whether the
    percentage is cut at 100. *)
Fixpoint onData (cap : bool) (verb : string) (totalSize processedBytes : Z)
    (chunks : list (list byte)) : T unit :=
  match chunks with
  | [] => tret tt
  | chunk :: rest =>
      let processedBytes' := processedBytes + blen chunk in
      let rounded :=
        Math_round (mul64 (div64 (inject_Z processedBytes') (inject_Z totalSize)) 100) in
      let progress := if cap then Z.min 100 rounded else rounded in
      reportProgress {| progress := progress; total := 100;
                        note := verb ++ "... " ++ intText progress ++ "%" |} ;;;
      onData cap verb totalSize processedBytes' rest
  end.

End Shared.

Module Zip.

(** The arguments of the zip tool, as the schema hands them over:
    [outputDirectory] is the empty text when absent. *)
Record Args := {
  sourceFilePath : string;
  outputDirectory : string;
  outputFileName : option string;
  compressionLevel : Z
}.

Section Tool.
Context {rt : Runtime} {host : Host}.
Local Open Scope tool_scope.

(** [parseFloat((a / b).toFixed(2))] inside a template. *)
Definition ratioText (a b : Z) : string :=
  if b =? 0
  then (if a =? 0 then "NaN" else if 0 <? a then "Infinity" else "-Infinity")
  else
    let q := div64 (inject_Z a) (inject_Z b) in
    if Qlt_le_dec q 0
    then (let n := hundredths (- q) in
          if n =? 0 then "0" else "-" ++ numberText n)
    else numberText (hundredths q).

Definition execute (args : Args) : T ToolResult :=
  ttry
    (absoluteSourcePath <- absolutePath (sourceFilePath args) ;;
     checked <- statSource absoluteSourcePath ;;
     match checked with
     | inl early => tret early
     | inr fileStats =>
         let sourceDir := path_dirname absoluteSourcePath in
         targetDir <- (if negb (outputDirectory args =? EmptyString)%string
                       then absolutePath (outputDirectory args)
                       else tret sourceDir) ;;
         made <- ttry (lift (fsMkdir targetDir) ;;; tret None)
                   (fun error =>
                      tret (Some (failure ("Cannot create output directory: "
                                           ++ targetDir ++ ". " ++ message error)))) ;;
         match made with
         | Some early => tret early
         | None =>
             let sourceBase := path_basename absoluteSourcePath in
             let targetName := or_str (outputFileName args) (sourceBase ++ ".gz") in
             let targetPath := path_join targetDir targetName in
             taken <-
               (if negb (truthy_str (outputFileName args))
                then
                  ttry
                    (lift (fsAccess targetPath) ;;;
                     let fileNameWithoutExt :=
                       path_basename_ext sourceBase (path_extname sourceBase) in
                     let fileExt := path_extname sourceBase in
                     let timestamp := Date_getTime in
                     let newTargetName :=
                       fileNameWithoutExt ++ "_" ++ intText timestamp ++ fileExt ++ ".gz" in
                     tret (Some (failure
                       ("Warning: Output file " ++ targetPath
                        ++ " already exists. Please use a different filename, for example: "
                        ++ newTargetName))))
                    (fun _ => tret None)
                else tret None) ;;
             match taken with
             | Some early => tret early
             | None =>
                 reportProgress {| progress := 0; total := 100;
                                   note := "Starting compression..." |} ;;;
                 gzip <- lift (GzipHandler.createGzip (compressionLevel args)) ;;
                 let totalSize := stats_size fileStats in
                 (* await pipeline(source, gzip, destination), in its try *)
                 piped <-
                   ttry
                     (q <- lift (openWrite targetPath) ;;
                      chunks <- lift (readStream absoluteSourcePath) ;;
                      onData true "Compressing" totalSize 0 chunks ;;;
                      lift (writeChunk q (gzip (List.concat chunks))) ;;;
                      tret None)
                     (fun error =>
                        tret (Some (failure ("Error during compression process: "
                                             ++ message error)))) ;;
                 match piped with
                 | Some early => tret early
                 | None =>
                     compressedStats <- lift (fsStat targetPath) ;;
                     let compressionRatio :=
                       ratioText (stats_size fileStats) (stats_size compressedStats) in
                     reportProgress {| progress := 100; total := 100;
                                       note := "Compression complete!" |} ;;;
                     tret (success
                       ("Compression successful:" ++ nl
                        ++ "Source file: " ++ absoluteSourcePath ++ " ("
                        ++ digits (stats_size fileStats) ++ " bytes)" ++ nl
                        ++ "Compressed file: " ++ targetPath ++ " ("
                        ++ digits (stats_size compressedStats) ++ " bytes)" ++ nl
                        ++ "Compression ratio: " ++ compressionRatio ++ ":1" ++ nl
                        ++ "Compression level: " ++ intText (compressionLevel args) ++ nl))
                 end
             end
         end
     end)
    (fun error => tret (failure ("Compression failed: " ++ message error))).

End Tool.
End Zip.

Module Unzip.

Record Args := {
  sourceFilePath : string;
  outputDirectory : option string;
  outputFileName : option string
}.

Section Tool.
Context {rt : Runtime} {host : Host}.
Local Open Scope tool_scope.

(** The output name when none is given: the source name without its [.gz],
    or with [.extracted] added. *)
Definition defaultOutputFileName (srcFilename : string) : string :=
  if endsWith srcFilename ".gz"
  then slice_drop_last 3 srcFilename
  else srcFilename ++ ".extracted".

Definition execute (args : Args) : T ToolResult :=
  ttry
    (absoluteSourcePath <- absolutePath (sourceFilePath args) ;;
     checked <- statSource absoluteSourcePath ;;
     match checked with
     | inl early => tret early
     | inr fileStats =>
         let baseDir := path_dirname absoluteSourcePath in
         outputDir <- (match outputDirectory args with
                       | Some dir =>
                           if negb (dir =? EmptyString)%string
                           then absolutePath dir else tret baseDir
                       | None => tret baseDir
                       end) ;;
         let baseOutputFileName :=
           or_str (outputFileName args)
             (defaultOutputFileName (path_basename absoluteSourcePath)) in
         let outputPath := path_join outputDir baseOutputFileName in
         made <- ttry (lift (fsMkdir outputDir) ;;; tret None)
                   (fun error =>
                      tret (Some (failure ("Error: Cannot create output directory "
                                           ++ outputDir ++ ". " ++ message error)))) ;;
         match made with
         | Some early => tret early
         | None =>
             reportProgress {| progress := 0; total := 100;
                               note := "Starting decompression of "
                                       ++ absoluteSourcePath ++ "..." |} ;;;
             let totalSize := stats_size fileStats in
             (* await pipeline(source, gunzip, destination), in its try *)
             piped <-
               ttry
                 (q <- lift (openWrite outputPath) ;;
                  chunks <- lift (readStream absoluteSourcePath) ;;
                  onData false "Decompressing" totalSize 0 chunks ;;;
                  let decoded := zlib_gunzip (List.concat chunks) in
                  lift (GzipHandler.writeAll q (fst decoded)) ;;;
                  match snd decoded with
                  | Some e => fun tw => (Throw e, tw)
                  | None => tret None
                  end)
                 (fun error =>
                    tret (Some (failure ("Error during decompression: "
                                         ++ message error)))) ;;
             match piped with
             | Some early => tret early
             | None =>
                 stat <- ttry (extractedStats <- lift (fsStat outputPath) ;;
                               tret (inr extractedStats))
                           (fun error =>
                              tret (inl (failure
                                ("Error: Cannot get decompressed file information: "
                                 ++ message error)))) ;;
                 match stat with
                 | inl early => tret early
                 | inr extractedStats =>
                     reportProgress {| progress := 100; total := 100;
                                       note := "Decompression completed!" |} ;;;
                     tret (success
                       ("File successfully decompressed to: " ++ outputPath ++ nl
                        ++ "Compressed file size: " ++ digits (stats_size fileStats)
                        ++ " bytes" ++ nl
                        ++ "Decompressed size: " ++ digits (stats_size extractedStats)
                        ++ " bytes" ++ nl
                        ++ "Expansion ratio: "
                        ++ Legacy.extractionRatioFormatted (stats_size extractedStats)
                             (stats_size fileStats)))
                 end
             end
         end
     end)
    (fun error => tret (failure ("Decompression failed: " ++ message error))).

End Tool.
End Unzip.

End Tools.

Module PosixHost.

(** [path.posix.resolve] of a working directory and a path. *)
Definition resolve (from to : string) : string :=
  let full := if isAbsolute to then to else from ++ "/" ++ to in
  let body := join "/" (Posix.normalizeNames false [] (split_slash full)) in
  "/" ++ body.

(** [path.posix.basename] with a suffix to drop. *)
Definition basename_ext (p suffix : string) : string :=
  let b := Posix.basename p in
  if (suffix =? EmptyString)%string then b
  else if (p =? suffix)%string then EmptyString
  else if negb (b =? suffix)%string && endsWith b suffix
       then slice_drop_last (String.length suffix) b
       else b.

Definition host : Tools.Host :=
  {| Tools.path_resolve := resolve;
     Tools.path_basename_ext := basename_ext;
     Tools.Date_getTime := 1700000000000 |}.

End PosixHost.

(* ------------------------------------------------------------------------- *)
(** ** Notions used in the statements *)
(* ------------------------------------------------------------------------- *)

(** Two names that differ in the case of their letters only. *)
Definition swap_case (c : ascii) : ascii :=
  let n := nat_of_ascii c in
  if ((65 <=? n) && (n <=? 90))%nat then ascii_of_nat (n + 32)
  else if ((97 <=? n) && (n <=? 122))%nat then ascii_of_nat (n - 32)
  else c.

Fixpoint case_variant (a b : string) : bool :=
  match a, b with
  | EmptyString, EmptyString => true
  | String c a', String d b' =>
      (Ascii.eqb c d || Ascii.eqb d (swap_case c)) && case_variant a' b'
  | _, _ => false
  end.

(** A field of the [content] object of a result. *)
Definition field (r : MCPResult) (k : string) : option value :=
  match content r with
  | Some c => Map_get c k
  | None => None
  end.

(** The percentages of a run of progress events, in order. *)
Definition percents (evs : list ProgressInfo) : list Z :=
  flat_map (fun e => match percentComplete e with Some p => [p] | None => [] end) evs.

(** The exact quotients the specification talks about, and the numbers the
    code computes for them. *)
Definition percent_of (bytes total : Z) : Q :=
  (inject_Z bytes / inject_Z total * 100)%Q.

Definition percent64 (bytes total : Z) : Q :=
  mul64 (div64 (inject_Z bytes) (inject_Z total)) 100.

(** [x] is [q] up to two roundings: a relative error of 2^-51 at most. *)
Definition rounded_twice (q x : Q) : Prop :=
  (q * (1 - (1 # 2251799813685248)) <= x <= q * (1 + (1 # 2251799813685248)))%Q.

(** What is found at a path: anything, a file, a directory. *)
Definition exists_at (w : World) (p : string) : bool :=
  match lookup w p with Some _ => true | None => false end.
Definition file_at (w : World) (p : string) : bool :=
  match lookup w p with Some (File _) => true | _ => false end.
Definition dir_at (w : World) (p : string) : bool :=
  match lookup w p with Some Dir => true | _ => false end.

(** A computation that hands back a value from every state: it never throws. *)
Definition returns {A} (c : M A) : Prop :=
  forall w, exists a w', c w = (Ret a, w').

(** A handler whose three operations always return a result. *)
Definition handler_returns (h : CompressionHandler) : Prop :=
  (forall src tgt o cb, returns (compress h src tgt o cb))
  /\ (forall src dir o cb, returns (decompress h src dir o cb))
  /\ (forall src o cb, returns (listContents h src o cb)).

(** The promise handed back by [execute_body] is one of the three operations
    of the handler the format resolves to. *)
Definition promise_of (h : CompressionHandler) (p : M OperationResult) : Prop :=
  (exists src tgt o cb, p = compress h src tgt o cb)
  \/ (exists src dir o cb, p = decompress h src dir o cb)
  \/ (exists src o cb, p = listContents h src o cb).

(** A handler that breaks the contract: its operations reject. *)
Definition rejecting_handler {rt : Runtime} : CompressionHandler :=
  Build_CompressionHandler [".bad"] "bad" (fun _ => true)
    (fun _ _ _ _ => throw (newError "rejected"))
    (fun _ _ _ _ => throw (newError "rejected"))
    (fun _ _ _ => throw (newError "rejected")).

(** [t'] has every node of [t]. *)
Definition extends (t t' : tree) : Prop :=
  forall q n, t q = Some n -> t' q = Some n.

(** From [w] to [w'] nothing changed but the events [evs] were added. *)
Definition emits (w w' : World) (evs : list ProgressInfo) : Prop :=
  cwd w' = cwd w /\ nodes w' = nodes w /\ events w' = (events w ++ evs)%list.

(** From [w] to [w'] the tree may have changed, nothing else. *)
Definition same_frame (w w' : World) : Prop :=
  cwd w' = cwd w /\ events w' = events w.

(** The byte counts the source listener reports, one per chunk. *)
Fixpoint running (acc : Z) (chunks : list (list byte)) : list Z :=
  match chunks with
  | [] => []
  | c :: r => (acc + blen c) :: running (acc + blen c) r
  end.

(** The events [compress] and [decompress] hand to a callback on a source
    of [sz] bytes of which the stream delivers [read]: one at the start, one
    per chunk read. *)
Definition source_events {rt : Runtime} (cb : bool) (stg : string) (sz : Z)
    (read : list byte) : list ProgressInfo :=
  if cb then
    CompressionUtils.formatProgress 0 (Some sz) (Some stg) None
    :: map (fun k => CompressionUtils.formatProgress k (Some sz) (Some stg) None)
           (running 0 (chunksOf (Z.to_nat highWaterMark) read))
  else [].

(** What the read stream on [src] delivers of the [data] the source held,
    once the target has been opened at [q]: all of it, or nothing when [q]
    is the place of the source itself. *)
Definition read_after_open (w : World) (src : string) (q : location)
    (data read : list byte) : Prop :=
  (locate w src <> Some q -> read = data)
  /\ (locate w src = Some q -> read = []).

(** The target of [decompress]: the source name without its [.gz], in the
    target directory. *)
Definition decompress_target {rt : Runtime} (src dir : string) : string :=
  let sourceBaseName := path_basename src in
  path_join dir (if endsWith sourceBaseName ".gz"
                 then slice_drop_last 3 sourceBaseName
                 else sourceBaseName).

(** What the gunzip listener of [listContents] keeps of the chunks that
    arrive, and the totals it reports, one per chunk it sees. *)
Fixpoint gunzip_scan (previewLen : Z) (kept : list (list byte)) (total : Z)
    (incoming : list (list byte)) : list (list byte) * Z * bool :=
  match incoming with
  | [] => (kept, total, false)
  | c :: rest =>
      if previewLen <=? total + blen c
      then ((kept ++ [c])%list, total + blen c, true)
      else gunzip_scan previewLen (kept ++ [c])%list (total + blen c) rest
  end.

Fixpoint gunzip_totals (previewLen : Z) (total : Z) (incoming : list (list byte)) : list Z :=
  match incoming with
  | [] => []
  | c :: rest =>
      (total + blen c)
      :: (if previewLen <=? total + blen c then []
          else gunzip_totals previewLen (total + blen c) rest)
  end.

Definition list_events (cb : bool) (sz previewLen : Z) (decodedChunks : list (list byte))
  : list ProgressInfo :=
  if cb then
    (CompressionUtils.formatProgress 0 (Some sz) (Some "reading") None
     :: map (fun t => CompressionUtils.formatProgress (Z.min t sz) (Some sz)
                        (Some "reading") None)
            (gunzip_totals previewLen 0 decodedChunks)
     ++ [CompressionUtils.formatProgress sz (Some sz) (Some "complete") None])%list
  else [].

(** The percentage an event carries for [k] bytes out of [sz]. *)
Definition pc (sz k : Z) : Z := Z.min (Math_round (percent64 k sz)) 100.

(** The last event of a run. *)
Definition lastEvent (evs : list ProgressInfo) : option ProgressInfo :=
  List.last (map Some evs) None.

(** A small machine to run examples on: a user's home with a few files, the
    server working in a directory below it. *)
Definition home_world : World :=
  Posix.world_of ["home"; "user"; "work"]
    [ (["home"], Dir);
      (["home"; "user"], Dir);
      (["home"; "user"; "work"], Dir);
      (["home"; "user"; "secret.gz"], File (Posix.store 6 (Posix.bytes "top secret")));
      (["home"; "user"; "notes.txt"], File (Posix.bytes "hello"));
      (["home"; "user"; "archive.gz"], File (Posix.store 6 (Posix.bytes "old")));
      (["home"; "user"; "empty.txt"], File []) ].

(** One of the three operations of the gzip handler, on a source. *)
Inductive gzip_op :=
| Compress (targetPath : string) (options : CompressionOptions)
| Decompress (targetDir : string) (options : DecompressionOptions)
| ListContents (options : ListOptions).

Definition run_op {rt : Runtime} (op : gzip_op) (src : string) (cb : bool)
  : M OperationResult :=
  match op with
  | Compress tgt o => GzipHandler.compress src tgt o cb
  | Decompress dir o => GzipHandler.decompress src dir o cb
  | ListContents o => GzipHandler.listContents src o cb
  end.

(** The file an operation writes, and that this file is not the source
    itself: the two paths lead to different places. *)
Definition op_target {rt : Runtime} (op : gzip_op) (src : string) : option string :=
  match op with
  | Compress tgt _ => Some tgt
  | Decompress dir _ => Some (decompress_target src dir)
  | ListContents _ => None
  end.

Definition target_is_not_source {rt : Runtime} (op : gzip_op) (src : string)
    (w w' : World) : Prop :=
  match op_target op src with
  | Some tgt => locate w' tgt <> locate w src
  | None => True
  end.

(** Requests used in the examples. *)
Definition request (op : UnifiedCompression.OperationType) (fmt src : string)
    (outDir outName : option string) : UnifiedCompression.Params :=
  UnifiedCompression.Build_Params op fmt src outDir outName None None None.

(** The result of a computation that returned, with a placeholder for one that threw. *)
Definition result_of (o : outcome MCPResult) : MCPResult :=
  match o with
  | Ret r => r
  | Throw e => {| isError := true; content := None; error := None |}
  end.

(** The text [s] is [q] with two decimals and a percent sign: the hundredths
    printed are an integer nearest to [q * 100]. *)
Definition prints_percent (s : string) (q : Q) : Prop :=
  exists n : Z,
    s = render_hundredths n ++ "%"
    /\ (inject_Z n - (1 # 2) <= q * 100 <= inject_Z n + (1 # 2))%Q.

(** The signed expansion of the specification:
    [(decompressedSize / compressedSize - 1) * 100]. *)
Definition signed_expansion (decompressedSize compressedSize : Z) : Q :=
  ((inject_Z decompressedSize / inject_Z compressedSize - 1) * 100)%Q.

(** [x] is the signed expansion [s] up to the three roundings of its
    computation: an error of [(s + 200) * 2^-51] at most. *)
Definition rounded_expansion (s x : Q) : Prop :=
  (s - (s + 200) * (1 # 2251799813685248) <= x
   <= s + (s + 200) * (1 # 2251799813685248))%Q.

(** Bytes below 80: text of single-byte characters. *)
Definition ascii_bytes (l : list byte) : Prop :=
  Forall (fun b => (Byte.to_N b < 128)%N) l.

(** The first chunk the decoder hands over has more than [n] bytes, unless
    it is all there is.  (zlib fills chunks of 16384 bytes.) *)
Definition first_chunk_exceeds (n : Z) (chunks : list (list byte)) : Prop :=
  match chunks with
  | [] => True
  | c :: rest => n < blen c \/ rest = []
  end.

(** The six bytes of [hello] with an acute accent on the [e], which takes
    two bytes (C3 A9), in a gzip file. *)
Definition hello_payload : list byte := [x68; xc3; xa9; x6c; x6c; x6f].

Definition text_world : World :=
  Posix.world_of ["data"]
    [ (["data"], Dir);
      (["data"; "hello.gz"], File (Posix.store 6 hello_payload));
      (["data"; "HELLO.GZ"], File (Posix.store 6 hello_payload)) ].

(** A gzip file of 32768 payload bytes, which the decoder hands over in two
    chunks of 16384 bytes. *)
Definition big_payload : list byte := repeat x61 (Z.to_nat 32768).

Definition big_world : World :=
  Posix.world_of ["data"]
    [ (["data"], Dir);
      (["data"; "big.gz"], File (Posix.store 6 big_payload)) ].

(** What holds of the sink after the bytes [written] went through [_write]. *)
Definition sink_inv (s : Legacy.MemoryWritable) (written : list byte) : Prop :=
  0 <= Legacy.totalLength s <= Legacy.maxLength s
  /\ Legacy.totalLength s = blen (List.concat (Legacy.chunks s))
  /\ List.concat (Legacy.chunks s)
     = firstn (Z.to_nat (Z.min (Legacy.maxLength s) (blen written))) written.

(** Registries made by registrations, starting from the empty one. *)
Inductive registered : FormatRegistry.t -> Prop :=
| registered_empty : registered FormatRegistry.empty
| registered_register (r : FormatRegistry.t) (formatName : string)
    (handler : CompressionHandler) :
    registered r -> registered (FormatRegistry.register r formatName handler).

(** A property of the state before and the state after that a computation
    keeps, whatever its outcome. *)
Definition preserves {A} (P : World -> World -> Prop) (c : M A) : Prop :=
  forall w o w', c w = (o, w') -> P w w'.

(** The working directory and the file tree are as they were. *)
Definition same_tree (w w' : World) : Prop :=
  cwd w' = cwd w /\ nodes w' = nodes w.

(** No progress event was handed to a callback. *)
Definition same_events (w w' : World) : Prop :=
  events w' = events w.

(** From [w] to [w'] the file at [q] was written with [content], directories
    may have been made, and nothing else changed. *)
Definition wrote (w w' : World) (q : location) (content : list byte) : Prop :=
  cwd w' = cwd w
  /\ nodes w q <> Some Dir
  /\ nodes w' q = Some (File content)
  /\ (forall q' n, q' <> q -> nodes w q' = Some n -> nodes w' q' = Some n)
  /\ (forall q' n, q' <> q -> nodes w' q' = Some n ->
                   nodes w q' = Some n \/ (nodes w q' = None /\ n = Dir)).

(** The decoder gives back what the encoder was given. *)
Definition codec_round_trip (rt : Runtime) : Prop :=
  forall (level : Z) (d : list byte),
    List.concat (fst (zlib_gunzip (zlib_gzip level d))) = d.

(** The target [execute] resolves for a compress request, and the directory
    it resolves for a decompress request. *)
Definition compress_target {rt : Runtime} (h : CompressionHandler)
    (params : UnifiedCompression.Params) : string :=
  CompressionUtils.resolveOutputPath (UnifiedCompression.sourcePath params)
    (UnifiedCompression.outputDirectory params)
    (UnifiedCompression.outputFileName params)
    (Some (match getSupportedExtensions h with e :: _ => e | [] => EmptyString end)).

Definition decompress_dir {rt : Runtime} (params : UnifiedCompression.Params) : string :=
  or_str (UnifiedCompression.outputDirectory params)
         (path_dirname (UnifiedCompression.sourcePath params)).

(** The state a tool starts in. *)
Definition tool_start (w : World) : Tools.ToolWorld :=
  {| Tools.world := w; Tools.reports := [] |}.

(** The paths the zip tool works on. *)
Definition zip_source {host : Tools.Host} (w : World) (args : Tools.Zip.Args) : string :=
  Tools.absolute_of w (Tools.Zip.sourceFilePath args).

Definition zip_targetDir {rt : Runtime} {host : Tools.Host} (w : World)
    (args : Tools.Zip.Args) : string :=
  if negb (Tools.Zip.outputDirectory args =? EmptyString)%string
  then Tools.absolute_of w (Tools.Zip.outputDirectory args)
  else path_dirname (zip_source w args).

Definition zip_targetPath {rt : Runtime} {host : Tools.Host} (w : World)
    (args : Tools.Zip.Args) : string :=
  path_join (zip_targetDir w args)
    (or_str (Tools.Zip.outputFileName args)
            (path_basename (zip_source w args) ++ ".gz")).

(** The paths the unzip tool works on. *)
Definition unzip_source {host : Tools.Host} (w : World) (args : Tools.Unzip.Args) : string :=
  Tools.absolute_of w (Tools.Unzip.sourceFilePath args).

Definition unzip_outputDir {rt : Runtime} {host : Tools.Host} (w : World)
    (args : Tools.Unzip.Args) : string :=
  if truthy_str (Tools.Unzip.outputDirectory args)
  then Tools.absolute_of w (or_str (Tools.Unzip.outputDirectory args) EmptyString)
  else path_dirname (unzip_source w args).

Definition unzip_outputPath {rt : Runtime} {host : Tools.Host} (w : World)
    (args : Tools.Unzip.Args) : string :=
  path_join (unzip_outputDir w args)
    (or_str (Tools.Unzip.outputFileName args)
            (Tools.Unzip.defaultOutputFileName (path_basename (unzip_source w args)))).

(** The report of the ['data'] listener for [k] bytes read out of [sz]. *)
Definition data_report (cap : bool) (verb : string) (sz k : Z) : Tools.Report :=
  let rounded := Math_round (percent64 k sz) in
  let p := if cap then Z.min 100 rounded else rounded in
  {| Tools.progress := p; Tools.total := 100;
     Tools.note := verb ++ "... " ++ Tools.intText p ++ "%" |}.

(** The reports of a run that got through its pipeline, on a source of
    [sz] bytes of which the stream delivered [read]. *)
Definition run_reports {rt : Runtime} (cap : bool) (verb start done : string)
    (sz : Z) (read : list byte) : list Tools.Report :=
  ({| Tools.progress := 0; Tools.total := 100; Tools.note := start |}
   :: map (data_report cap verb sz)
          (running 0 (chunksOf (Z.to_nat highWaterMark) read))
   ++ [{| Tools.progress := 100; Tools.total := 100; Tools.note := done |}])%list.

(** A run of reports that starts at 0, never goes down, and ends at 100. *)
Definition steady_run (news : list Tools.Report) : Prop :=
  (exists first rest, news = first :: rest /\ Tools.progress first = 0)
  /\ (exists front final, news = (front ++ [final])%list /\ Tools.progress final = 100)
  /\ Sorted Z.le (map Tools.progress news)
  /\ Forall (fun x => 0 <= Tools.progress x <= 100 /\ Tools.total x = 100) news.

(** A machine for the examples of the stand-alone tools: a report and a
    stale archive of it. *)
Definition tools_world : World :=
  Posix.world_of ["srv"]
    [ (["srv"], Dir);
      (["srv"; "report.txt"], File (Posix.bytes "figures"));
      (["srv"; "report.txt.gz"], File (Posix.bytes "stale")) ].

(** The result of a tool that returned, with a placeholder for one that threw. *)
Definition result_of_tool (o : outcome Tools.ToolResult) : Tools.ToolResult :=
  match o with
  | Ret r => r
  | Throw e => Tools.failure (message e)
  end.

(* ------------------------------------------------------------------------- *)
(** ** Registry: resolution by format name *)
(* ------------------------------------------------------------------------- *)

Section RegistryFacts.
Import FormatRegistry.

Lemma lower_swap_case (c : ascii) : lower_ascii (swap_case c) = lower_ascii c.
Proof.
  destruct c as [b0 b1 b2 b3 b4 b5 b6 b7].
  destruct b0, b1, b2, b3, b4, b5, b6, b7; reflexivity.
Qed.

Lemma case_variant_lower (a b : string) :
  case_variant a b = true -> toLowerCase a = toLowerCase b.
Proof.
  revert b; induction a as [|c a IH]; intros [|d b]; simpl; try discriminate.
  - reflexivity.
  - intros H. apply andb_true_iff in H as [Hc Hr].
    rewrite (IH _ Hr). f_equal.
    apply orb_true_iff in Hc as [Hc|Hc]; apply Ascii.eqb_eq in Hc; subst.
    + reflexivity.
    + now rewrite lower_swap_case.
Qed.

Lemma Map_get_set_same (V : Type) (m : Map V) (k : string) (v : V) :
  Map_get (Map_set m k v) k = Some v.
Proof.
  induction m as [|[k' v'] m IH]; simpl.
  - now rewrite String.eqb_refl.
  - destruct (String.eqb_spec k' k) as [->|Hne]; simpl.
    + now rewrite String.eqb_refl.
    + destruct (String.eqb_spec k' k); [contradiction|exact IH].
Qed.

Lemma Map_get_set_other (V : Type) (m : Map V) (k k0 : string) (v : V) :
  k <> k0 -> Map_get (Map_set m k v) k0 = Map_get m k0.
Proof.
  intros Hne. induction m as [|[k' v'] m IH]; simpl.
  - destruct (String.eqb_spec k k0); [contradiction|reflexivity].
  - destruct (String.eqb_spec k' k) as [->|Hk]; simpl.
    + destruct (String.eqb_spec k k0); [contradiction|reflexivity].
    + destruct (String.eqb_spec k' k0); [reflexivity|exact IH].
Qed.

Lemma getHandlerByFormat_register_same (r : t) (name : string) (h : CompressionHandler) :
  getHandlerByFormat (register r name h) name = Some h.
Proof. unfold getHandlerByFormat, register; simpl. apply Map_get_set_same. Qed.

End RegistryFacts.

(** C9. Resolution by format name does not look at the case of the letters:
    on any registry, a name and a case variant of it resolve alike; once a
    handler is registered under a name, every case variant of the name
    resolves to that handler, and it still does after a registration under
    a name that is no case variant of the first. *)
Theorem resolveByFormat_case_insensitive :
  forall (r : FormatRegistry.t) (name variant : string) (h : CompressionHandler),
    case_variant name variant = true ->
    FormatRegistry.getHandlerByFormat r variant
      = FormatRegistry.getHandlerByFormat r name
    /\ FormatRegistry.getHandlerByFormat
         (FormatRegistry.register r name h) variant = Some h
    /\ (forall other h',
           toLowerCase other <> toLowerCase name ->
           FormatRegistry.getHandlerByFormat
             (FormatRegistry.register (FormatRegistry.register r name h) other h')
             variant = Some h).
Proof.
  intros r name variant h Hcv.
  apply case_variant_lower in Hcv.
  unfold FormatRegistry.getHandlerByFormat. rewrite <- Hcv. split; [|split].
  - reflexivity.
  - unfold FormatRegistry.register; simpl. apply Map_get_set_same.
  - intros other h' Hne. unfold FormatRegistry.register; simpl.
    rewrite Map_get_set_other by exact Hne. apply Map_get_set_same.
Qed.

Lemma resolveByFormat_GZIP_gzip :
  case_variant "gzip" "GZIP" = true
  /\ FormatRegistry.getHandlerByFormat FormatRegistry.empty "GZIP"
     = FormatRegistry.getHandlerByFormat FormatRegistry.empty "gzip"
  /\ FormatRegistry.getHandlerByFormat (@registry Posix.runtime) "GZIP"
     = Some (@GzipHandler.handler Posix.runtime)
  /\ (forall other h',
         toLowerCase other <> toLowerCase "gzip" ->
         FormatRegistry.getHandlerByFormat
           (FormatRegistry.register (@registry Posix.runtime) other h') "GZIP"
         = Some (@GzipHandler.handler Posix.runtime)).
Proof.
  split; [reflexivity|].
  exact (@resolveByFormat_case_insensitive FormatRegistry.empty "gzip" "GZIP"
           (@GzipHandler.handler Posix.runtime) eq_refl).
Defined.

(* ------------------------------------------------------------------------- *)
(** ** The bounded in-memory sink *)
(* ------------------------------------------------------------------------- *)

Section MemoryWritableFacts.
Import Legacy.

Lemma blen_app (a b : list byte) : blen (a ++ b) = blen a + blen b.
Proof. unfold blen. rewrite length_app. lia. Qed.

Lemma blen_nonneg (a : list byte) : 0 <= blen a.
Proof. unfold blen. lia. Qed.

Lemma blen_firstn (k : Z) (a : list byte) :
  0 <= k <= blen a -> blen (firstn (Z.to_nat k) a) = k.
Proof. unfold blen. intros H. rewrite length_firstn. lia. Qed.

Lemma firstn_app_le (n : nat) (a b : list byte) :
  (n <= List.length a)%nat -> firstn n (a ++ b) = firstn n a.
Proof.
  intros H. rewrite firstn_app.
  replace (n - List.length a)%nat with 0%nat by lia.
  simpl. apply app_nil_r.
Qed.

Lemma firstn_app_ge (n : nat) (a b : list byte) :
  (List.length a <= n)%nat ->
  firstn n (a ++ b) = (a ++ firstn (n - List.length a) b)%list.
Proof.
  intros H. rewrite firstn_app. now rewrite firstn_all2 by lia.
Qed.

Lemma create_inv (maxLen : Z) : 0 <= maxLen -> sink_inv (create maxLen) [].
Proof.
  intros H. unfold sink_inv, create; simpl.
  repeat split; try lia. now rewrite firstn_nil.
Qed.

Lemma write_inv (s : MemoryWritable) (written chunk : list byte) :
  sink_inv s written -> sink_inv (_write s chunk) (written ++ chunk).
Proof.
  intros (Hb & Hlen & Hc). unfold _write.
  pose proof (blen_nonneg chunk) as Hch.
  pose proof (blen_nonneg written) as Hw.
  assert (Htl : totalLength s = Z.min (maxLength s) (blen written)).
  { rewrite Hlen, Hc. apply blen_firstn. lia. }
  destruct (Z.ltb_spec (totalLength s) (maxLength s)) as [Hlt|Hge].
  - (* room left: the sink holds all of [written] *)
    assert (Hall : List.concat (chunks s) = written).
    { rewrite Hc. apply firstn_all2. unfold blen in *. lia. }
    assert (Htw : totalLength s = blen written) by lia.
    destruct (Z.ltb_spec (maxLength s - totalLength s) (blen chunk)) as [Hcut|Hfit];
      unfold sink_inv; simpl; rewrite concat_app; simpl; rewrite app_nil_r, Hall.
    + unfold Buffer_slice0.
      rewrite !blen_app, blen_firstn by lia.
      repeat split; try lia.
      rewrite firstn_app_ge by (unfold blen in *; lia).
      do 2 f_equal. unfold blen in *. lia.
    + rewrite !blen_app.
      repeat split; try lia.
      symmetry. apply firstn_all2. rewrite length_app. unfold blen in *. lia.
  - (* full: the chunk is dropped *)
    unfold sink_inv. rewrite blen_app.
    repeat split; try lia.
    rewrite Hc. rewrite firstn_app_le by (unfold blen in *; lia).
    f_equal. lia.
Qed.

Lemma writes_inv (incoming : list (list byte)) :
  forall s written,
    sink_inv s written ->
    sink_inv (writes s incoming) (written ++ List.concat incoming).
Proof.
  induction incoming as [|c cs IH]; intros s written H; simpl.
  - now rewrite app_nil_r.
  - rewrite app_assoc. apply IH. now apply write_inv.
Qed.

Lemma writes_maxLength (incoming : list (list byte)) :
  forall s, maxLength (writes s incoming) = maxLength s.
Proof.
  unfold writes.
  induction incoming as [|c cs IH]; intros s; simpl; [reflexivity|].
  rewrite IH. unfold _write.
  destruct (totalLength s <? maxLength s); reflexivity.
Qed.

Lemma getContent_of_inv (s : MemoryWritable) (written : list byte) :
  sink_inv s written ->
  getContent s = firstn (Z.to_nat (Z.min (maxLength s) (blen written))) written.
Proof.
  intros (Hb & Hlen & Hc). unfold getContent, Buffer_concat.
  rewrite firstn_all2 by (unfold blen in Hlen; lia).
  replace (Z.to_nat (totalLength s) - List.length (List.concat (chunks s)))%nat
    with 0%nat by (unfold blen in Hlen; lia).
  simpl. now rewrite app_nil_r.
Qed.

End MemoryWritableFacts.

(** C10. After any sequence of [_write] calls on a sink made for a
    non-negative [maxLength], the stored [totalLength] is at most
    [maxLength], and [getContent()] is the first
    [min(maxLength, bytes written)] bytes of what was written, in order. *)
Theorem MemoryWritable_bounded_prefix :
  forall (maxLen : Z) (incoming : list (list byte)),
    0 <= maxLen ->
    let s := Legacy.writes (Legacy.create maxLen) incoming in
    let written := List.concat incoming in
    Legacy.totalLength s <= maxLen
    /\ Legacy.getContent s = firstn (Z.to_nat (Z.min maxLen (blen written))) written
    /\ blen (Legacy.getContent s) = Z.min maxLen (blen written).
Proof.
  intros maxLen incoming Hmax s written.
  pose proof (writes_inv incoming (create_inv Hmax)) as Hinv.
  simpl in Hinv. fold s written in Hinv.
  assert (Hm : Legacy.maxLength s = maxLen).
  { unfold s. now rewrite writes_maxLength. }
  pose proof (getContent_of_inv Hinv) as Hg. rewrite Hm in Hg.
  destruct Hinv as (Hb & _ & _). rewrite Hm in Hb.
  repeat split; [lia|exact Hg|].
  rewrite Hg. apply blen_firstn. pose proof (blen_nonneg written). lia.
Qed.

Lemma MemoryWritable_bounded_prefix_witness :
  let s := Legacy.writes (Legacy.create 5)
             [Posix.bytes "abc"; Posix.bytes "defg"; Posix.bytes "hi"] in
  0 <= 5
  /\ Legacy.totalLength s <= 5
  /\ Legacy.getContent s = Posix.bytes "abcde".
Proof.
  split; [lia|].
  pose proof (MemoryWritable_bounded_prefix
                [Posix.bytes "abc"; Posix.bytes "defg"; Posix.bytes "hi"]
                (maxLen := 5) ltac:(lia)) as H.
  destruct H as (H1 & H2 & _). split; [exact H1|exact H2].
Defined.

(* ------------------------------------------------------------------------- *)
(** ** Rounding to the nearest double *)
(* ------------------------------------------------------------------------- *)

Section DoubleFacts.
Local Open Scope Q_scope.

Lemma two_neq_0 : ~ 2 == 0.
Proof. intros H. discriminate H. Qed.

Lemma pow2_pos (e : Z) : 0 < 2 ^ e.
Proof. apply Qpower_0_lt. reflexivity. Qed.

Lemma pow2_neq_0 (e : Z) : ~ 2 ^ e == 0.
Proof. pose proof (pow2_pos e). lra. Qed.

Lemma pow2_succ (e : Z) : 2 ^ (e + 1) == 2 * 2 ^ e.
Proof. rewrite Qpower_plus by exact two_neq_0. change (2 ^ 1) with 2. ring. Qed.

Lemma pow2_le (a b : Z) : (a <= b)%Z -> 2 ^ a <= 2 ^ b.
Proof. intros H. apply Qpower_le_compat_l; [exact H|lra]. Qed.

Lemma ilog2_spec (x : Q) : 0 < x -> 2 ^ ilog2 x <= x < 2 ^ (ilog2 x + 1).
Proof.
  intros Hx. unfold ilog2.
  destruct x as [n d]. cbn [Qnum Qden].
  assert (Hn : (0 < n)%Z) by (unfold Qlt in Hx; simpl in Hx; lia).
  set (a := Z.log2 n). set (b := Z.log2 (Z.pos d)).
  pose proof (Z.log2_nonneg n) as Ha0. pose proof (Z.log2_nonneg (Z.pos d)) as Hb0.
  fold a in Ha0. fold b in Hb0.
  destruct (Z.log2_spec n Hn) as [Ha1 Ha2]. fold a in Ha1, Ha2.
  destruct (Z.log2_spec (Z.pos d) eq_refl) as [Hb1 Hb2]. fold b in Hb1, Hb2.
  rewrite Zle_Qle in Ha1, Hb1. rewrite Zlt_Qlt in Ha2, Hb2.
  rewrite Zpower_Qpower in Ha1, Hb1, Ha2, Hb2 by lia.
  change (inject_Z 2) with 2 in *.
  unfold Z.succ in *. rewrite pow2_succ in Ha2, Hb2.
  set (x := n # d) in *.
  assert (Hxd : x * inject_Z (Z.pos d) == inject_Z n).
  { unfold x. rewrite (Qmake_Qdiv n d). field. intros H. discriminate H. }
  set (P := 2 ^ (a - b)).
  assert (HP : P * 2 ^ b == 2 ^ a).
  { unfold P. rewrite <- Qpower_plus by exact two_neq_0.
    replace (a - b + b)%Z with a by lia. reflexivity. }
  pose proof (pow2_pos (a - b)) as HP0. fold P in HP0.
  pose proof (pow2_pos b) as HB0.
  set (A := 2 ^ a) in *. set (B := 2 ^ b) in *.
  set (N := inject_Z n) in *. set (D := inject_Z (Z.pos d)) in *.
  assert (Hup : x < 2 * P).
  { apply (Qmult_lt_r _ _ B HB0).
    assert (x * B <= x * D) by (apply Qmult_le_l; lra).
    assert (2 * P * B == 2 * A) by (rewrite <- HP; ring). lra. }
  assert (Hlow : P < 2 * x).
  { apply (Qmult_lt_r _ _ B HB0).
    assert (x * D < x * (2 * B)) by (apply Qmult_lt_l; lra).
    assert (2 * x * B == x * (2 * B)) by ring. lra. }
  destruct (Qle_bool P x) eqn:E.
  - apply Qle_bool_iff in E. split; [exact E|]. rewrite pow2_succ. exact Hup.
  - assert (Hlt : x < P).
    { apply Qnot_le_lt. intros H. apply Qle_bool_iff in H. congruence. }
    replace (a - b - 1 + 1)%Z with (a - b)%Z by lia. fold P.
    split; [|exact Hlt].
    assert (H2 : 2 * 2 ^ (a - b - 1) == P).
    { rewrite <- pow2_succ. replace (a - b - 1 + 1)%Z with (a - b)%Z by lia. reflexivity. }
    lra.
Qed.

Lemma ilog2_unique (x : Q) (l : Z) :
  0 < x -> 2 ^ l <= x < 2 ^ (l + 1) -> ilog2 x = l.
Proof.
  intros Hx [H1 H2]. destruct (ilog2_spec Hx) as [K1 K2].
  assert (l < ilog2 x + 1)%Z.
  { apply (Qpower_lt_compat_l_inv 2); lra. }
  assert (ilog2 x < l + 1)%Z.
  { apply (Qpower_lt_compat_l_inv 2); lra. }
  lia.
Qed.

Lemma ilog2_comp (x y : Q) : 0 < x -> x == y -> ilog2 x = ilog2 y.
Proof.
  intros Hx E. symmetry. apply ilog2_unique; [lra|].
  destruct (ilog2_spec Hx). lra.
Qed.

Lemma ilog2_mono (x y : Q) : 0 < x -> x <= y -> (ilog2 x <= ilog2 y)%Z.
Proof.
  intros Hx Hxy. destruct (ilog2_spec Hx) as [K1 _].
  assert (Hy : 0 < y) by lra. destruct (ilog2_spec Hy) as [_ K2].
  assert (ilog2 x < ilog2 y + 1)%Z; [|lia].
  apply (Qpower_lt_compat_l_inv 2); lra.
Qed.

Lemma nearest_even_bounds (y : Q) :
  inject_Z (nearest_even y) - (1 # 2) <= y <= inject_Z (nearest_even y) + (1 # 2).
Proof.
  unfold nearest_even.
  pose proof (Qfloor_le y) as Hlo. pose proof (Qlt_floor y) as Hhi.
  rewrite inject_Z_plus in Hhi. change (inject_Z 1) with 1 in Hhi.
  destruct (Qcompare_spec (y - inject_Z (Qfloor y)) (1 # 2)) as [H|H|H].
  - destruct (Z.even _); [|rewrite inject_Z_plus; change (inject_Z 1) with 1]; lra.
  - lra.
  - rewrite inject_Z_plus. change (inject_Z 1) with 1. lra.
Qed.

Lemma nearest_even_comp (y y' : Q) : y == y' -> nearest_even y = nearest_even y'.
Proof.
  intros H. unfold nearest_even. rewrite (Qfloor_comp _ _ H).
  assert (E : (y - inject_Z (Qfloor y') ?= 1 # 2) = (y' - inject_Z (Qfloor y') ?= 1 # 2)).
  { apply Qcompare_comp; [rewrite H|]; reflexivity. }
  now rewrite E.
Qed.

Lemma nearest_even_mono (y y' : Q) :
  y <= y' -> (nearest_even y <= nearest_even y')%Z.
Proof.
  intros H.
  destruct (Z_le_gt_dec (nearest_even y) (nearest_even y')) as [|Hgt]; [assumption|].
  exfalso.
  destruct (nearest_even_bounds y) as [B1 _].
  destruct (nearest_even_bounds y') as [_ B2].
  assert (Hge : (nearest_even y' + 1 <= nearest_even y)%Z) by lia.
  rewrite Zle_Qle, inject_Z_plus in Hge. change (inject_Z 1) with 1 in Hge.
  assert (E : y == y') by lra.
  rewrite (nearest_even_comp E) in Hgt. lia.
Qed.

Lemma nearest_even_Z (k : Z) : nearest_even (inject_Z k) = k.
Proof.
  unfold nearest_even. rewrite Qfloor_Z.
  assert (E : (inject_Z k - inject_Z k ?= 1 # 2) = Lt).
  { apply Qlt_alt. setoid_replace (inject_Z k - inject_Z k) with 0 by ring. reflexivity. }
  now rewrite E.
Qed.

Lemma double_pos_eq (x : Q) :
  0 < x ->
  double x = inject_Z (nearest_even (x / 2 ^ (ilog2 x - 52))) * 2 ^ (ilog2 x - 52).
Proof.
  intros Hx. unfold double. destruct x as [[|p|p] d]; try reflexivity;
    unfold Qlt in Hx; simpl in Hx; lia.
Qed.

Lemma double_neg_eq (x : Q) : x < 0 -> double x = - double (- x).
Proof.
  intros Hx. destruct x as [[|p|p] d]; try reflexivity;
    unfold Qlt in Hx; simpl in Hx; lia.
Qed.

Lemma double_zero (x : Q) : x == 0 -> double x = 0.
Proof.
  intros Hx. unfold double. destruct x as [[|p|p] d]; try reflexivity;
    unfold Qeq in Hx; simpl in Hx; lia.
Qed.

(** The significand of a positive number lies between 2^52 and 2^53. *)
Lemma significand_range (x : Q) :
  0 < x ->
  let y := x / 2 ^ (ilog2 x - 52) in
  4503599627370496 <= y < 9007199254740992
  /\ (4503599627370496 <= nearest_even y <= 9007199254740992)%Z.
Proof.
  intros Hx y. destruct (ilog2_spec Hx) as [K1 K2].
  pose proof (pow2_pos (ilog2 x - 52)) as HE.
  assert (E1 : 4503599627370496 * 2 ^ (ilog2 x - 52) == 2 ^ ilog2 x).
  { change 4503599627370496 with (2 ^ 52).
    rewrite <- Qpower_plus by exact two_neq_0.
    replace (52 + (ilog2 x - 52))%Z with (ilog2 x) by lia. reflexivity. }
  assert (E2 : 9007199254740992 * 2 ^ (ilog2 x - 52) == 2 ^ (ilog2 x + 1)).
  { change 9007199254740992 with (2 ^ 53).
    rewrite <- Qpower_plus by exact two_neq_0.
    replace (53 + (ilog2 x - 52))%Z with (ilog2 x + 1)%Z by lia. reflexivity. }
  assert (Hy : 4503599627370496 <= y < 9007199254740992).
  { unfold y. split.
    - apply Qle_shift_div_l; [exact HE|]. rewrite E1. exact K1.
    - apply Qlt_shift_div_r; [exact HE|]. rewrite E2. exact K2. }
  split; [exact Hy|]. split.
  - rewrite <- (nearest_even_Z 4503599627370496).
    apply nearest_even_mono. exact (proj1 Hy).
  - rewrite <- (nearest_even_Z 9007199254740992).
    apply nearest_even_mono. apply Qlt_le_weak. exact (proj2 Hy).
Qed.

Lemma double_comp (x y : Q) : x == y -> double x == double y.
Proof.
  assert (Hpos : forall a b, 0 < a -> a == b -> double a == double b).
  { intros a b Ha E. assert (Hb : 0 < b) by lra.
    rewrite (double_pos_eq Ha), (double_pos_eq Hb).
    rewrite <- (ilog2_comp Ha E).
    rewrite (nearest_even_comp (y := a / 2 ^ (ilog2 a - 52))
                               (y' := b / 2 ^ (ilog2 a - 52))).
    - reflexivity.
    - unfold Qdiv. apply Qmult_comp; [exact E|reflexivity]. }
  intros E. destruct (Q_dec 0 x) as [[Hx|Hx]|Hx].
  - now apply Hpos.
  - assert (Hy : y < 0) by lra.
    rewrite (double_neg_eq Hx), (double_neg_eq Hy).
    apply Qopp_comp. apply Hpos; lra.
  - rewrite (double_zero (x := x)), (double_zero (x := y)); lra.
Qed.

End DoubleFacts.

#[global] Instance double_proper : Proper (Qeq ==> Qeq) double.
Proof. intros x y E. now apply double_comp. Qed.

Section DoubleBounds.
Local Open Scope Q_scope.

Lemma double_pos (x : Q) : 0 < x -> 0 < double x.
Proof.
  intros Hx. rewrite (double_pos_eq Hx).
  destruct (significand_range Hx) as (_ & Hm & _).
  pose proof (pow2_pos (ilog2 x - 52)).
  apply Qmult_lt_0_compat; [|assumption].
  change 0 with (inject_Z 0). rewrite <- Zlt_Qlt. lia.
Qed.

Lemma double_nonneg (x : Q) : 0 <= x -> 0 <= double x.
Proof.
  intros Hx. destruct (Q_dec 0 x) as [[H|H]|H].
  - apply Qlt_le_weak. now apply double_pos.
  - lra.
  - rewrite (double_zero (x := x)); lra.
Qed.

Lemma double_opp (x : Q) : double (- x) == - double x.
Proof.
  destruct (Q_dec 0 x) as [[H|H]|H].
  - rewrite (double_neg_eq (x := - x)) by lra.
    now rewrite (Qopp_involutive x).
  - rewrite (double_neg_eq H). now rewrite Qopp_involutive.
  - rewrite (double_zero (x := x)), (double_zero (x := - x)); lra.
Qed.

Lemma double_mono_pos (x y : Q) : 0 < x -> x <= y -> double x <= double y.
Proof.
  intros Hx Hxy. assert (Hy : 0 < y) by lra.
  rewrite (double_pos_eq Hx), (double_pos_eq Hy).
  destruct (significand_range Hx) as (_ & _ & Hm).
  destruct (significand_range Hy) as (_ & Hm' & _).
  cbv zeta in Hm, Hm'.
  pose proof (ilog2_mono Hx Hxy) as Hl.
  set (e := (ilog2 x - 52)%Z) in *. set (e' := (ilog2 y - 52)%Z) in *.
  pose proof (pow2_pos e) as HE. pose proof (pow2_pos e') as HE'.
  destruct (Z.eq_dec e e') as [<-|Hne].
  - apply Qmult_le_compat_r; [|lra].
    rewrite <- Zle_Qle. apply nearest_even_mono.
    apply Qmult_le_compat_r; [exact Hxy|].
    apply Qlt_le_weak, Qinv_lt_0_compat, HE.
  - rewrite Zle_Qle in Hm, Hm'.
    apply Qle_trans with (9007199254740992 * 2 ^ e).
    { apply Qmult_le_compat_r; [exact Hm|lra]. }
    apply Qle_trans with (4503599627370496 * 2 ^ e').
    2:{ apply Qmult_le_compat_r; [exact Hm'|lra]. }
    change 9007199254740992 with (2 ^ 53). change 4503599627370496 with (2 ^ 52).
    rewrite <- !Qpower_plus by exact two_neq_0.
    apply pow2_le. unfold e, e' in *. lia.
Qed.

Lemma double_mono (x y : Q) : x <= y -> double x <= double y.
Proof.
  intros Hxy. destruct (Q_dec 0 x) as [[Hx|Hx]|Hx].
  - now apply double_mono_pos.
  - destruct (Q_dec 0 y) as [[Hy|Hy]|Hy].
    + pose proof (double_pos Hy). rewrite (double_neg_eq Hx).
      assert (0 < double (- x)) by (apply double_pos; lra). lra.
    + rewrite (double_neg_eq Hx), (double_neg_eq Hy).
      apply Qopp_le_compat. apply double_mono_pos; lra.
    + rewrite (double_neg_eq Hx), (double_zero (x := y)) by lra.
      assert (0 < double (- x)) by (apply double_pos; lra). lra.
  - rewrite (double_zero (x := x)) by lra. apply double_nonneg. lra.
Qed.

(** Rounding moves a number by at most half a unit in the last place: a
    relative error of at most 2^-53. *)
Lemma double_error (x : Q) :
  0 <= x ->
  x * (1 - (1 # 9007199254740992)) <= double x <= x * (1 + (1 # 9007199254740992)).
Proof.
  intros Hx0. destruct (Q_dec 0 x) as [[Hx|Hx]|Hx]; [|lra|].
  2:{ rewrite (double_zero (x := x)) by lra. split; lra. }
  rewrite (double_pos_eq Hx).
  destruct (significand_range Hx) as (Hy & _). cbv zeta in Hy.
  pose proof (pow2_pos (ilog2 x - 52)) as HE.
  set (E := 2 ^ (ilog2 x - 52)) in *.
  destruct (nearest_even_bounds (x / E)) as [B1 B2].
  set (m := inject_Z (nearest_even (x / E))) in *.
  assert (Hxe : x / E * E == x) by (field; lra).
  assert (H1 : (m - (1 # 2)) * E <= x / E * E) by (apply Qmult_le_compat_r; lra).
  assert (H2 : x / E * E <= (m + (1 # 2)) * E) by (apply Qmult_le_compat_r; lra).
  assert (H3 : 4503599627370496 * E <= x / E * E) by (apply Qmult_le_compat_r; lra).
  rewrite Hxe in H1, H2, H3.
  split; lra.
Qed.

Lemma double_0 : double 0 == 0.
Proof. reflexivity. Qed.

(** For a number of either sign: half a unit in the last place of a bound. *)
Lemma double_within (x a : Q) :
  - a <= x <= a ->
  x - a * (1 # 9007199254740992) <= double x <= x + a * (1 # 9007199254740992).
Proof.
  intros [H1 H2]. destruct (Qlt_le_dec x 0) as [Hneg|Hpos].
  - rewrite (double_neg_eq Hneg).
    assert (H : 0 <= - x) by lra. destruct (double_error H). split; lra.
  - destruct (double_error Hpos). split; lra.
Qed.

Lemma double_1 : double 1 == 1.
Proof. vm_compute. reflexivity. Qed.

Lemma double_100 : double 100 == 100.
Proof. vm_compute. reflexivity. Qed.

End DoubleBounds.

(** [double] and the three operations give what [SpecFloat] gives at the
    precision of binary64: on all sizes up to 48 with up to twice as many
    bytes, and on 900 pairs of sizes up to 2^53. *)
Lemma double_agrees_with_binary64 :
  forallb (fun bt =>
             Binary64.same (Binary64.quotient (fst bt) (snd bt))
                           (div64 (inject_Z (fst bt)) (inject_Z (snd bt)))
             && Binary64.same (Binary64.times100 (fst bt) (snd bt))
                              (percent64 (fst bt) (snd bt))
             && Binary64.same (Binary64.minus1_times100 (fst bt) (snd bt))
                              (Legacy.extractionRatio (fst bt) (snd bt)))
          (Binary64.pairs_upto 48 ++ Binary64.pairs_of (Binary64.sequence 600 42))
  = true.
Proof. vm_compute. reflexivity. Qed.

(* ------------------------------------------------------------------------- *)
(** ** Percentages *)
(* ------------------------------------------------------------------------- *)

Lemma inject_Z_pos (t : Z) : 0 < t -> (0 < inject_Z t)%Q.
Proof. intros H. change 0%Q with (inject_Z 0). now rewrite <- Zlt_Qlt. Qed.

Lemma inject_Z_neq_0 (t : Z) : t <> 0 -> ~ (inject_Z t == 0)%Q.
Proof. intros H E. unfold Qeq in E; simpl in E. lia. Qed.

Lemma quotient_nonneg (b t : Z) :
  0 <= b -> 0 < t -> (0 <= inject_Z b / inject_Z t)%Q.
Proof.
  intros Hb Ht. apply Qle_shift_div_l; [now apply inject_Z_pos|].
  rewrite Qmult_0_l. change 0%Q with (inject_Z 0). now rewrite <- Zle_Qle.
Qed.

Lemma quotient_mono (b b' t : Z) :
  0 < t -> b <= b' -> (inject_Z b / inject_Z t <= inject_Z b' / inject_Z t)%Q.
Proof.
  intros Ht Hb. unfold Qdiv. apply Qmult_le_compat_r.
  - now rewrite <- Zle_Qle.
  - apply Qinv_le_0_compat. apply Qlt_le_weak. now apply inject_Z_pos.
Qed.

Lemma percent_of_nonneg (b t : Z) : 0 <= b -> 0 < t -> (0 <= percent_of b t)%Q.
Proof.
  intros Hb Ht. unfold percent_of.
  apply Qmult_le_0_compat; [|discriminate]. now apply quotient_nonneg.
Qed.

Lemma Math_round_bounds (x : Q) :
  (inject_Z (Math_round x) - (1 # 2) <= x < inject_Z (Math_round x) + (1 # 2))%Q.
Proof.
  unfold Math_round.
  pose proof (Qfloor_le (x + (1 # 2))) as H1.
  pose proof (Qlt_floor (x + (1 # 2))) as H2.
  rewrite inject_Z_plus in H2. change (inject_Z 1) with 1%Q in H2.
  set (r := inject_Z (Qfloor (x + (1 # 2)))) in *. split; lra.
Qed.

Lemma Math_round_lt (x : Q) (k : Z) :
  (x < inject_Z k - (1 # 2))%Q -> Math_round x < k.
Proof.
  intros H. destruct (Math_round_bounds x) as [H1 _].
  rewrite Zlt_Qlt. lra.
Qed.

Lemma Math_round_ge (x : Q) (k : Z) :
  (inject_Z k - (1 # 2) <= x)%Q -> k <= Math_round x.
Proof.
  intros H. destruct (Math_round_bounds x) as [_ H2].
  assert (inject_Z k < inject_Z (Math_round x) + 1)%Q by lra.
  change 1%Q with (inject_Z 1) in H0.
  rewrite <- inject_Z_plus in H0. rewrite <- Zlt_Qlt in H0. lia.
Qed.

Lemma Math_round_mono (x y : Q) : (x <= y)%Q -> Math_round x <= Math_round y.
Proof. intros H. unfold Math_round. apply Qfloor_resp_le. lra. Qed.

Lemma Math_round_comp (x y : Q) : (x == y)%Q -> Math_round x = Math_round y.
Proof. intros H. unfold Math_round. apply Qfloor_comp. now rewrite H. Qed.

Lemma percent64_nonneg (b t : Z) : 0 <= b -> 0 < t -> (0 <= percent64 b t)%Q.
Proof.
  intros Hb Ht. unfold percent64, mul64, div64. apply double_nonneg.
  apply Qmult_le_0_compat; [|discriminate].
  apply double_nonneg. now apply quotient_nonneg.
Qed.

Lemma percent64_mono (b b' t : Z) :
  0 < t -> b <= b' -> (percent64 b t <= percent64 b' t)%Q.
Proof.
  intros Ht Hb. unfold percent64, mul64, div64.
  apply double_mono. apply Qmult_le_compat_r; [|discriminate].
  apply double_mono. now apply quotient_mono.
Qed.

Lemma percent64_full (t : Z) : 0 < t -> (percent64 t t == 100)%Q.
Proof.
  intros Ht. unfold percent64, mul64, div64.
  assert (E : (inject_Z t / inject_Z t == 1)%Q).
  { field. apply inject_Z_neq_0. lia. }
  rewrite E, double_1. setoid_replace (1 * 100)%Q with 100%Q by ring.
  apply double_100.
Qed.

Lemma percent64_zero (t : Z) : t <> 0 -> (percent64 0 t == 0)%Q.
Proof.
  intros Ht. unfold percent64, mul64, div64.
  assert (E : (inject_Z 0 / inject_Z t == 0)%Q).
  { change (inject_Z 0) with 0%Q. field. now apply inject_Z_neq_0. }
  rewrite E, double_0. setoid_replace (0 * 100)%Q with 0%Q by ring.
  apply double_0.
Qed.

(** The number computed for a percentage is the exact quotient up to the
    roundings of the division and of the multiplication. *)
Lemma percent64_error (b t : Z) :
  0 <= b -> 0 < t -> rounded_twice (percent_of b t) (percent64 b t).
Proof.
  intros Hb Ht. unfold rounded_twice, percent_of, percent64, mul64, div64.
  pose proof (quotient_nonneg Hb Ht) as Hq.
  set (q := (inject_Z b / inject_Z t)%Q) in *.
  pose proof (double_error Hq) as [E1 E2].
  pose proof (double_nonneg Hq) as Hd.
  set (d := double q) in *.
  assert (Hd100 : (0 <= d * 100)%Q) by lra.
  pose proof (double_error Hd100) as [F1 F2].
  set (x := double (d * 100)) in *.
  split; lra.
Qed.

Lemma percent_of_mono (b b' t : Z) :
  0 < t -> b <= b' -> (percent_of b t <= percent_of b' t)%Q.
Proof.
  intros Ht Hb. unfold percent_of.
  apply Qmult_le_compat_r; [|discriminate]. now apply quotient_mono.
Qed.

Lemma percent_of_full (t : Z) : 0 < t -> (percent_of t t == 100)%Q.
Proof.
  intros Ht. unfold percent_of. field. apply inject_Z_neq_0. lia.
Qed.

Lemma formatProgress_percent (bytes total : Z) (stg det : option string) :
  total <> 0 ->
  percentComplete (CompressionUtils.formatProgress bytes (Some total) stg det)
  = Some (Z.min (Math_round (percent64 bytes total)) 100).
Proof.
  intros H. unfold CompressionUtils.formatProgress.
  destruct (Z.eqb_spec total 0); [contradiction|reflexivity].
Qed.

(** Where the rounding of the quotient decides: 23 bytes of 40 are 57
    percent, the double of 23 / 40 * 100 lying below 57.5; and there are
    sizes whose exact percentage is below 79.5 while its double is 79.5,
    which rounds to 80. *)
Lemma percent_decided_by_the_double :
  percentComplete (CompressionUtils.formatProgress 23 (Some 40) None None) = Some 57
  /\ Binary64.percent 23 40 = Some 57
  /\ (percent_of 23 40 == 575 # 10)%Q
  /\ percentComplete
       (CompressionUtils.formatProgress 31596152053627 (Some 39743587488839) None None)
     = Some 80
  /\ Binary64.percent 31596152053627 39743587488839 = Some 80
  /\ (percent_of 31596152053627 39743587488839 < 795 # 10)%Q
  /\ (percent64 31596152053627 39743587488839 == 795 # 10)%Q.
Proof. vm_compute. repeat split. Qed.

(** C7, counterexample.  With 2 of 3 bytes processed the event carries 67,
    where the floor of 2 / 3 * 100 is 66; binary64 gives 67 as well. *)
Lemma formatProgress_two_thirds_is_67 :
  percentComplete (CompressionUtils.formatProgress 2 (Some 3) (Some "compressing") None) = Some 67
  /\ Binary64.percent 2 3 = Some 67
  /\ Math_floor (percent_of 2 3) = 66
  /\ percentComplete (CompressionUtils.formatProgress 2 (Some 3) (Some "compressing") None)
     <> Some (Math_floor (percent_of 2 3)).
Proof. vm_compute. repeat split. discriminate. Qed.

(** C7, amended.  An event made for a known, positive [totalBytes] carries
    [Math.min(Math.round(x), 100)], where [x] is the number computed for
    [bytesProcessed / totalBytes * 100]: the exact quotient up to the two
    roundings of binary64.  Below 99.5 the percentage is the integer nearest
    to [x], a tie going up; from 99.5 on it is 100. *)
Theorem formatProgress_percent_rounded :
  forall (bytes total : Z) (stg det : option string),
    0 <= bytes -> 0 < total ->
    exists p : Z,
      percentComplete (CompressionUtils.formatProgress bytes (Some total) stg det) = Some p
      /\ 0 <= p <= 100
      /\ rounded_twice (percent_of bytes total) (percent64 bytes total)
      /\ ((percent64 bytes total < 995 # 10)%Q ->
          (inject_Z p - (1 # 2) <= percent64 bytes total < inject_Z p + (1 # 2))%Q)
      /\ ((995 # 10 <= percent64 bytes total)%Q -> p = 100).
Proof.
  intros bytes total stg det Hb Ht.
  exists (Z.min (Math_round (percent64 bytes total)) 100).
  rewrite formatProgress_percent by lia.
  pose proof (percent64_nonneg Hb Ht) as Hx.
  pose proof (percent64_error Hb Ht) as Herr.
  set (x := percent64 bytes total) in *.
  assert (H0 : 0 <= Math_round x).
  { apply Math_round_ge. change (inject_Z 0) with 0%Q. lra. }
  split; [reflexivity|]. split; [lia|]. split; [exact Herr|]. split.
  - intros Hlt.
    destruct (Math_round_bounds x) as [Hlo Hhi].
    assert (Math_round x <= 100).
    { assert (Math_round x < 101); [|lia].
      apply Math_round_lt. change (inject_Z 101) with 101%Q. lra. }
    rewrite Z.min_l by lia. split; lra.
  - intros Hge.
    assert (100 <= Math_round x).
    { apply Math_round_ge. change (inject_Z 100) with 100%Q. lra. }
    lia.
Qed.

Lemma formatProgress_percent_rounded_witness :
  0 <= 2 /\ 0 < 3
  /\ exists p : Z,
      percentComplete (CompressionUtils.formatProgress 2 (Some 3) None None) = Some p
      /\ 0 <= p <= 100
      /\ rounded_twice (percent_of 2 3) (percent64 2 3)
      /\ ((percent64 2 3 < 995 # 10)%Q ->
          (inject_Z p - (1 # 2) <= percent64 2 3 < inject_Z p + (1 # 2))%Q)
      /\ ((995 # 10 <= percent64 2 3)%Q -> p = 100).
Proof.
  split; [lia|]. split; [lia|].
  apply (@formatProgress_percent_rounded 2 3 None None); lia.
Defined.

(* ------------------------------------------------------------------------- *)
(** ** The utilities, the dispatcher and the error boundary *)
(* ------------------------------------------------------------------------- *)

Section PrimitiveFacts.
Context {rt : Runtime}.
Import CompressionUtils.

Lemma fileExists_spec (p : string) (w : World) :
  fileExists p w = (Ret (exists_at w p), w).
Proof.
  unfold fileExists, try_catch, bind, fsAccess, exists_at, ret.
  destruct (lookup w p); reflexivity.
Qed.

Lemma isFile_spec (p : string) (w : World) :
  isFile p w = (Ret (file_at w p), w).
Proof.
  unfold isFile, try_catch, bind, fsStat, file_at, ret.
  destruct (lookup w p) as [[|]|]; reflexivity.
Qed.

Lemma isDirectory_spec (p : string) (w : World) :
  isDirectory p w = (Ret (dir_at w p), w).
Proof.
  unfold isDirectory, try_catch, bind, fsStat, dir_at, ret.
  destruct (lookup w p) as [[|]|]; reflexivity.
Qed.

Lemma getFileSize_spec (p : string) (w : World) :
  getFileSize p w
  = match lookup w p with
    | Some n => (Ret (stats_size n), w)
    | None => (Throw (newError ("Failed to get file size: "
                                ++ message (ENOENT "stat" p))), w)
    end.
Proof.
  unfold getFileSize, try_catch, bind, fsStat, ret, throw.
  destruct (lookup w p); reflexivity.
Qed.

Lemma exists_of_file (w : World) (p : string) :
  file_at w p = true -> exists_at w p = true.
Proof. unfold file_at, exists_at. destruct (lookup w p); [reflexivity|discriminate]. Qed.

Lemma file_or_dir (w : World) (p : string) :
  exists_at w p = true -> dir_at w p = true \/ file_at w p = true.
Proof.
  unfold exists_at, dir_at, file_at.
  destruct (lookup w p) as [[|]|]; intros; auto; discriminate.
Qed.
End PrimitiveFacts.

Section DispatcherFacts.
Context {rt : Runtime}.
Import CompressionUtils UnifiedCompression.
Variable reg : FormatRegistry.t.

Lemma execute_unknown_format (params : Params) (w : World) :
  FormatRegistry.getHandlerByFormat reg (format params) = None ->
  execute reg params w
  = (Ret (createErrorResult ("Unsupported format: " ++ format params)
            (Some ("Supported formats are: "
                   ++ join ", " (FormatRegistry.getAllFormats reg)))), w).
Proof.
  intros H. unfold execute, bind, try_catch, execute_body. rewrite H. reflexivity.
Qed.

Lemma execute_missing_source (params : Params) (w : World) (h : CompressionHandler) :
  FormatRegistry.getHandlerByFormat reg (format params) = Some h ->
  lookup w (sourcePath params) = None ->
  execute reg params w
  = (Ret (createErrorResult ("Source path does not exist: " ++ sourcePath params) None), w).
Proof.
  intros H Hl. unfold execute, bind, try_catch, execute_body. rewrite H.
  unfold bind. rewrite fileExists_spec. unfold exists_at. rewrite Hl. reflexivity.
Qed.

Lemma execute_existing_target (params : Params) (w : World) (h : CompressionHandler) :
  FormatRegistry.getHandlerByFormat reg (format params) = Some h ->
  operation params = OpCompress ->
  exists_at w (sourcePath params) = true ->
  let targetPath :=
    resolveOutputPath (sourcePath params) (outputDirectory params)
      (outputFileName params)
      (Some (match getSupportedExtensions h with e :: _ => e | [] => EmptyString end)) in
  exists_at w targetPath = true ->
  execute reg params w
  = (Ret (createErrorResult ("Output file already exists: " ++ targetPath)
            (Some "Please specify a different output file name or directory")), w).
Proof.
  intros H Hop Hs targetPath Ht.
  unfold execute, bind, try_catch, execute_body. rewrite H.
  unfold bind. rewrite fileExists_spec, Hs, Hop. simpl.
  rewrite isDirectory_spec, isFile_spec.
  destruct (file_or_dir _ _ Hs) as [Hd|Hf].
  - rewrite Hd. simpl. fold targetPath. rewrite fileExists_spec, Ht. reflexivity.
  - rewrite Hf, andb_false_r. fold targetPath. rewrite fileExists_spec, Ht. reflexivity.
Qed.
End DispatcherFacts.

Section Boundary.
Context {rt : Runtime}.
Import CompressionUtils UnifiedCompression.

Lemma try_catch_returns {A} (body : M A) (f : Error -> A) :
  returns (try_catch body (fun e => ret (f e))).
Proof.
  intros w. unfold try_catch, ret.
  destruct (body w) as [[a|e] w']; eauto.
Qed.

Lemma try_catch_flags {A} (body : M A) (f : Error -> A) (w w1 : World) (e : Error) :
  body w = (Throw e, w1) ->
  try_catch body (fun e => ret (f e)) w = (Ret (f e), w1).
Proof. intros H. unfold try_catch. now rewrite H. Qed.

Lemma GzipHandler_returns : handler_returns GzipHandler.handler.
Proof. repeat split; intros; apply try_catch_returns. Qed.

Lemma execute_body_promise (reg : FormatRegistry.t) (params : Params)
    (w w1 : World) (p : M OperationResult) :
  execute_body reg params w = (Ret (Promise p), w1) ->
  exists h,
    FormatRegistry.getHandlerByFormat reg (format params) = Some h
    /\ promise_of h p.
Proof.
  unfold execute_body.
  destruct (FormatRegistry.getHandlerByFormat reg (format params)) as [h|];
    [|discriminate].
  intros H. exists h. split; [reflexivity|].
  unfold bind in H. rewrite fileExists_spec in H.
  destruct (exists_at w (sourcePath params)); simpl in H; [|discriminate].
  destruct (operation params).
  - rewrite isDirectory_spec, isFile_spec in H.
    destruct (negb _ && negb _); [discriminate|].
    rewrite fileExists_spec in H.
    destruct (exists_at w _); [discriminate|].
    injection H as <- _. left. eauto.
  - rewrite isFile_spec in H.
    destruct (file_at w _); simpl in H; [|discriminate].
    destruct (isFormatValid h _); simpl in H; [|discriminate].
    destruct (ensureDir _ w) as [[u|e] w2]; [|discriminate].
    injection H as <- _. right; left. eauto.
  - rewrite isFile_spec in H.
    destruct (file_at w _); simpl in H; [|discriminate].
    destruct (isFormatValid h _); simpl in H; [|discriminate].
    injection H as <- _. right; right. eauto.
Qed.

Lemma execute_returns (reg : FormatRegistry.t) :
  (forall name h,
      FormatRegistry.getHandlerByFormat reg name = Some h -> handler_returns h) ->
  forall params, returns (execute reg params).
Proof.
  intros Hreg params w. unfold execute, bind, try_catch.
  destruct (execute_body reg params w) as [[[r|p]|e] w1] eqn:E; simpl;
    unfold ret; eauto.
  destruct (execute_body_promise _ _ _ E) as (h & Hh & Hp).
  destruct (Hreg _ _ Hh) as (Hc & Hd & Hl).
  destruct Hp as [(src & tgt & o & cb & ->)|[(src & dir & o & cb & ->)|(src & o & cb & ->)]].
  - apply Hc. - apply Hd. - apply Hl.
Qed.

Lemma registry_handlers (name : string) (h : CompressionHandler) :
  FormatRegistry.getHandlerByFormat registry name = Some h ->
  h = GzipHandler.handler.
Proof.
  unfold FormatRegistry.getHandlerByFormat, registry, FormatRegistry.register; simpl.
  match goal with |- context [if ?b then _ else _] => destruct b end;
    [|discriminate].
  now intros [= <-].
Qed.

Lemma execute_flags (reg : FormatRegistry.t) (params : Params)
    (w w1 : World) (e : Error) :
  execute_body reg params w = (Throw e, w1) ->
  exists r, execute reg params w = (Ret r, w1) /\ isError r = true.
Proof.
  intros H. unfold execute, bind, try_catch. rewrite H. simpl. unfold ret. eauto.
Qed.
End Boundary.

(** C3. The three operations of the gzip handler and [execute] on the
    registry of the server return a result from every state, whatever the
    arguments: none of them throws or rejects.  When an error is thrown
    inside one of them, the result it returns has [isError = true]. *)
Theorem no_exception_crosses_the_boundary :
  forall (rt : Runtime),
    (forall src tgt o cb, returns (GzipHandler.compress src tgt o cb))
    /\ (forall src dir o cb, returns (GzipHandler.decompress src dir o cb))
    /\ (forall src o cb, returns (GzipHandler.listContents src o cb))
    /\ (forall params, returns (UnifiedCompression.execute registry params))
    /\ (forall src tgt o cb w e w1,
           GzipHandler.compress_body src tgt o cb w = (Throw e, w1) ->
           exists r, GzipHandler.compress src tgt o cb w = (Ret r, w1)
                     /\ isError r = true)
    /\ (forall src dir o cb w e w1,
           GzipHandler.decompress_body src dir o cb w = (Throw e, w1) ->
           exists r, GzipHandler.decompress src dir o cb w = (Ret r, w1)
                     /\ isError r = true)
    /\ (forall src o cb w e w1,
           GzipHandler.listContents_body src o cb w = (Throw e, w1) ->
           exists r, GzipHandler.listContents src o cb w = (Ret r, w1)
                     /\ isError r = true)
    /\ (forall params w e w1,
           UnifiedCompression.execute_body registry params w = (Throw e, w1) ->
           exists r, UnifiedCompression.execute registry params w = (Ret r, w1)
                     /\ isError r = true).
Proof.
  intros rt.
  destruct GzipHandler_returns as (Hc & Hd & Hl).
  split; [exact Hc|]. split; [exact Hd|]. split; [exact Hl|].
  split.
  { apply execute_returns. intros name h Hh.
    rewrite (registry_handlers _ Hh). apply GzipHandler_returns. }
  repeat split; intros.
  - unfold GzipHandler.compress. erewrite try_catch_flags by eassumption. eauto.
  - unfold GzipHandler.decompress. erewrite try_catch_flags by eassumption. eauto.
  - unfold GzipHandler.listContents. erewrite try_catch_flags by eassumption. eauto.
  - eapply execute_flags; eassumption.
Qed.

(** The [catch] of [execute] does not cover the handler: the promise of
    the handler is returned without [await], so that a handler that rejects
    makes [execute] reject.  The gzip handler never does. *)
Lemma execute_does_not_await_the_handler :
  let reg := FormatRegistry.register FormatRegistry.empty "bad"
               (@rejecting_handler Posix.runtime) in
  let params := request UnifiedCompression.OpList "bad" "/home/user/notes.txt"
                  None None in
  exists e,
    fst (@UnifiedCompression.execute Posix.runtime reg params home_world) = Throw e
    /\ message e = "rejected".
Proof. vm_compute. eexists. split; reflexivity. Qed.

(* ------------------------------------------------------------------------- *)
(** ** The file tree and the effects of the primitives *)
(* ------------------------------------------------------------------------- *)

Section TreeFacts.

Lemma loc_eqb_eq (a b : location) : loc_eqb a b = true <-> a = b.
Proof.
  revert b; induction a as [|x a IH]; intros [|y b]; simpl; split; intros H;
    try reflexivity; try discriminate.
  - apply andb_true_iff in H as [H1 H2]. apply String.eqb_eq in H1.
    apply IH in H2. now subst.
  - injection H as -> ->. rewrite String.eqb_refl. simpl. now apply IH.
Qed.

Lemma extends_refl (t : tree) : extends t t.
Proof. intros q n H; exact H. Qed.

Lemma extends_trans (t1 t2 t3 : tree) :
  extends t1 t2 -> extends t2 t3 -> extends t1 t3.
Proof. intros H1 H2 q n H. apply H2, H1, H. Qed.

Lemma extends_put (t : tree) (q : location) (n : node) :
  t q = None -> extends t (put t q n).
Proof.
  intros Hq q' n' H. unfold put.
  destruct (loc_eqb q' q) eqn:E; [|exact H].
  apply loc_eqb_eq in E. subst. congruence.
Qed.

Lemma mkdirp_extends (names : list string) :
  forall t cur t', mkdirp t cur names = Some t' -> extends t t'.
Proof.
  induction names as [|s rest IH]; intros t cur t'; simpl.
  - destruct (t cur) as [[|]|]; try discriminate.
    intros [= <-]. apply extends_refl.
  - destruct (t cur) as [[|]|]; try discriminate.
    destruct ((s =? EmptyString) || (s =? "."))%string; [apply IH|].
    destruct (s =? "..")%string; [apply IH|].
    destruct (t (cur ++ [s])%list) eqn:E.
    + apply IH.
    + intros H. apply IH in H.
      eapply extends_trans; [|exact H]. now apply extends_put.
Qed.

Lemma walk_extends (t t' : tree) (names : list string) :
  extends t t' ->
  forall cur q, walk t cur names = Some q -> walk t' cur names = Some q.
Proof.
  intros Hext. induction names as [|s rest IH]; intros cur q; simpl; [easy|].
  destruct (t cur) as [[|]|] eqn:E; try discriminate.
  rewrite (Hext _ _ E).
  destruct ((s =? EmptyString) || (s =? "."))%string; [apply IH|].
  destruct (s =? "..")%string; apply IH.
Qed.

Lemma lookup_extends (w w' : World) (p : string) (n : node) :
  cwd w' = cwd w -> extends (nodes w) (nodes w') ->
  lookup w p = Some n -> lookup w' p = Some n.
Proof.
  intros Hc Hext. unfold lookup, locate. rewrite Hc.
  destruct (p =? EmptyString)%string; [discriminate|].
  destruct (walk (nodes w) _ _) as [q|] eqn:E; [|discriminate].
  erewrite walk_extends by eassumption. apply Hext.
Qed.

Lemma lookup_same (w w' : World) (p : string) :
  cwd w' = cwd w -> nodes w' = nodes w -> lookup w' p = lookup w p.
Proof. intros Hc Hn. unfold lookup, locate. now rewrite Hc, Hn. Qed.

End TreeFacts.

Section EffectFacts.
Context {rt : Runtime}.
Import CompressionUtils.

Lemma same_frame_refl (w : World) : same_frame w w.
Proof. split; reflexivity. Qed.

Lemma fsMkdir_effect (p : string) (w w1 : World) (o : outcome unit) :
  fsMkdir p w = (o, w1) ->
  same_frame w w1 /\ extends (nodes w) (nodes w1).
Proof.
  unfold fsMkdir.
  destruct (p =? EmptyString)%string.
  - intros [= <- <-]. split; [apply same_frame_refl|apply extends_refl].
  - destruct (mkdirp _ _ _) as [t|] eqn:E.
    + intros [= <- <-]. split; [split; reflexivity|]. simpl.
      eapply mkdirp_extends; eassumption.
    + intros [= <- <-]. split; [apply same_frame_refl|apply extends_refl].
Qed.

Lemma ensureDir_effect (p : string) (w w1 : World) (o : outcome unit) :
  ensureDir p w = (o, w1) ->
  same_frame w w1 /\ extends (nodes w) (nodes w1).
Proof.
  unfold ensureDir, try_catch, bind, fsAccess.
  destruct (lookup w p) as [n|] eqn:El.
  - rewrite isDirectory_spec. unfold dir_at. rewrite El.
    destruct n; simpl.
    + apply fsMkdir_effect.
    + intros [= <- <-]. split; [apply same_frame_refl|apply extends_refl].
  - apply fsMkdir_effect.
Qed.

Lemma report_effect (cb : bool) (e : ProgressInfo) (w : World) :
  exists w1, report cb e w = (Ret tt, w1)
             /\ emits w w1 (if cb then [e] else []).
Proof.
  unfold report, emits. destruct cb; eexists; split; try reflexivity; simpl.
  - auto.
  - now rewrite app_nil_r.
Qed.

Lemma emits_trans (w1 w2 w3 : World) (a b : list ProgressInfo) :
  emits w1 w2 a -> emits w2 w3 b -> emits w1 w3 (a ++ b).
Proof.
  intros (c1 & n1 & e1) (c2 & n2 & e2). repeat split; try congruence.
  rewrite e2, e1. now rewrite app_assoc.
Qed.

Lemma openWrite_effect (p : string) (w w1 : World) (o : outcome location) :
  openWrite p w = (o, w1) -> same_frame w w1.
Proof.
  unfold openWrite. destruct (locate w p) as [q|].
  - destruct (nodes w q) as [[|]|]; intros [= <- <-]; split; reflexivity.
  - intros [= <- <-]. apply same_frame_refl.
Qed.

Lemma writeChunk_effect (q : location) (c : list byte) (w : World) :
  exists w1, writeChunk q c w = (Ret tt, w1) /\ same_frame w w1.
Proof. unfold writeChunk. eexists; split; [reflexivity|split; reflexivity]. Qed.

Lemma writeAll_effect (q : location) (cs : list (list byte)) :
  forall w, exists w1, GzipHandler.writeAll q cs w = (Ret tt, w1) /\ same_frame w w1.
Proof.
  induction cs as [|c cs IH]; intros w; simpl.
  - exists w. split; [reflexivity|apply same_frame_refl].
  - unfold bind. destruct (writeChunk_effect q c w) as (w1 & -> & (Hc & He)).
    destruct (IH w1) as (w2 & -> & (Hc2 & He2)).
    exists w2. split; [reflexivity|]. split; congruence.
Qed.

Lemma onSourceData_effect (cb : bool) (sz : Z) (stg : string)
    (chunks : list (list byte)) :
  forall acc w,
  exists total w1,
    GzipHandler.onSourceData cb sz stg acc chunks w = (Ret total, w1)
    /\ emits w w1
         (if cb
          then map (fun k => formatProgress k (Some sz) (Some stg) None)
                   (running acc chunks)
          else []).
Proof.
  induction chunks as [|c cs IH]; intros acc w;
    cbn [GzipHandler.onSourceData running map].
  - exists acc, w. split; [reflexivity|].
    repeat split. destruct cb; now rewrite app_nil_r.
  - unfold bind.
    destruct (report_effect cb (formatProgress (acc + blen c) (Some sz) (Some stg) None) w)
      as (w1 & -> & H1).
    destruct (IH (acc + blen c) w1) as (total & w2 & -> & H2).
    exists total, w2. split; [reflexivity|].
    pose proof (emits_trans H1 H2) as H. destruct cb; exact H.
Qed.
End EffectFacts.

Section TreeMore.

Lemma walk_agree (t t' : tree) (names : list string) :
  (forall c, t c = Some Dir -> t' c = Some Dir) ->
  forall cur q, walk t cur names = Some q -> walk t' cur names = Some q.
Proof.
  intros Hd. induction names as [|s rest IH]; intros cur q; simpl; [easy|].
  destruct (t cur) as [[|]|] eqn:E; try discriminate.
  rewrite (Hd _ E).
  destruct ((s =? EmptyString) || (s =? "."))%string; [apply IH|].
  destruct (s =? "..")%string; apply IH.
Qed.

Lemma put_same (t : tree) (q : location) (n : node) : put t q n q = Some n.
Proof.
  unfold put. replace (loc_eqb q q) with true; [reflexivity|].
  symmetry. now apply loc_eqb_eq.
Qed.

Lemma put_other (t : tree) (q q' : location) (n : node) :
  q' <> q -> put t q n q' = t q'.
Proof.
  intros Hne. unfold put. destruct (loc_eqb q' q) eqn:E; [|reflexivity].
  apply loc_eqb_eq in E. contradiction.
Qed.

Lemma wrote_dirs (w w' : World) (q : location) (c : list byte) :
  wrote w w' q c -> forall l, nodes w l = Some Dir -> nodes w' l = Some Dir.
Proof.
  intros (_ & Hq & _ & Hk & _) l Hl. apply Hk; [|exact Hl]. congruence.
Qed.

Lemma wrote_locate (w w' : World) (q : location) (c : list byte) (p : string) (l : location) :
  wrote w w' q c -> locate w p = Some l -> locate w' p = Some l.
Proof.
  intros Hw. pose proof (wrote_dirs Hw) as Hd. destruct Hw as (Hc & _).
  unfold locate. rewrite Hc.
  destruct (p =? EmptyString)%string; [discriminate|].
  now apply walk_agree.
Qed.

Lemma wrote_lookup (w w' : World) (q : location) (c : list byte) (p : string) (n : node) :
  wrote w w' q c -> lookup w p = Some n -> locate w' p <> Some q ->
  lookup w' p = Some n.
Proof.
  intros Hw Hl Hne. unfold lookup in *.
  destruct (locate w p) as [l|] eqn:El; [|discriminate].
  rewrite (wrote_locate _ Hw El) in *.
  destruct Hw as (_ & _ & _ & Hk & _). apply Hk; [congruence|exact Hl].
Qed.
End TreeMore.

Lemma concat_chunks_fuel (k : nat) :
  forall fuel d, (List.length d <= fuel)%nat ->
                 List.concat (chunks_fuel fuel k d) = d.
Proof.
  induction fuel as [|fuel IH]; intros d Hlen.
  - destruct d; [reflexivity|simpl in Hlen; lia].
  - destruct d as [|b d]; [reflexivity|].
    cbn [chunks_fuel List.concat].
    rewrite IH.
    + apply firstn_skipn.
    + rewrite length_skipn. simpl in *. lia.
Qed.

Lemma concat_chunksOf (size : nat) (d : list byte) :
  List.concat (chunksOf size d) = d.
Proof. unfold chunksOf. now apply concat_chunks_fuel. Qed.

Section SuccessPaths.
Context {rt : Runtime}.
Import CompressionUtils.

Lemma openWrite_post (p : string) (w w' : World) (q : location) :
  openWrite p w = (Ret q, w') ->
  locate w p = Some q
  /\ nodes w q <> Some Dir
  /\ cwd w' = cwd w
  /\ nodes w' = put (nodes w) q (File []).
Proof.
  unfold openWrite. destruct (locate w p) as [l|]; [|discriminate].
  destruct (nodes w l) as [[d|]|] eqn:E; try discriminate;
    intros [= <- <-]; repeat split; congruence.
Qed.

Lemma writeAll_post (q : location) (cs : list (list byte)) :
  forall w old,
    nodes w q = Some (File old) ->
    exists w',
      GzipHandler.writeAll q cs w = (Ret tt, w')
      /\ cwd w' = cwd w
      /\ nodes w' q = Some (File (old ++ List.concat cs))
      /\ forall q', q' <> q -> nodes w' q' = nodes w q'.
Proof.
  induction cs as [|c cs IH]; intros w old Hq; cbn [GzipHandler.writeAll List.concat].
  - exists w. rewrite app_nil_r. repeat split; auto.
  - unfold bind, writeChunk. rewrite Hq.
    match goal with |- context [GzipHandler.writeAll q cs ?w1] =>
      destruct (IH w1 (old ++ c)%list) as (w' & Hr & Hc & Hn & Ho)
    end.
    { cbn [nodes]. apply put_same. }
    exists w'. rewrite Hr. split; [reflexivity|]. split; [exact Hc|]. split.
    + now rewrite Hn, <- app_assoc.
    + intros q' Hne. rewrite (Ho _ Hne). cbn [nodes]. now apply put_other.
Qed.

Lemma file_at_inv (w : World) (p : string) :
  file_at w p = true -> exists data, lookup w p = Some (File data).
Proof.
  unfold file_at. destruct (lookup w p) as [[d|]|]; try discriminate. eauto.
Qed.

(** A successful [compress], step by step: the states after the target
    directory is made ([w1]), after the first event ([w2]) and after the
    target is opened ([w3]), what is read then, and what ends up in the
    target. *)
Lemma compress_trace (src tgt : string) (o : CompressionOptions) (cb : bool)
    (w w' : World) (r : MCPResult) :
  GzipHandler.compress src tgt o cb w = (Ret r, w') ->
  isError r = false ->
  exists data read n w1 w2 w3 q,
    lookup w src = Some (File data)
    /\ ensureDir (path_dirname tgt) w = (Ret tt, w1)
    /\ cwd w2 = cwd w1 /\ nodes w2 = nodes w1
    /\ openWrite tgt w2 = (Ret q, w3)
    /\ lookup w3 src = Some (File read)
    /\ cwd w' = cwd w3
    /\ nodes w' q = Some (File (zlib_gzip (or_num (compressionLevel o) 6) read))
    /\ (forall q', q' <> q -> nodes w' q' = nodes w3 q')
    /\ lookup w' tgt = Some n
    /\ events w' = (events w ++ source_events cb "compressing" (blen data) read)%list
    /\ r = createSuccessResult ("Successfully compressed file to " ++ tgt)
             [("originalSize", VNum (blen data));
              ("compressedSize", VNum (stats_size n));
              ("compressionRatio",
               VStr (formatCompressionRatio (blen data) (stats_size n)));
              ("sourcePath", VStr src);
              ("targetPath", VStr tgt)].
Proof.
  unfold GzipHandler.compress, try_catch.
  destruct (GzipHandler.compress_body src tgt o cb w) as [[r0|e] w0] eqn:E;
    intros [= <- <-] Hok; [|discriminate].
  unfold GzipHandler.compress_body, bind in E.
  rewrite fileExists_spec in E.
  destruct (exists_at w src); [|injection E as <- _; discriminate].
  cbn [negb] in E. rewrite isFile_spec in E.
  destruct (file_at w src) eqn:Hf; [|injection E as <- _; discriminate].
  cbn [negb] in E.
  destruct (file_at_inv _ _ Hf) as (data & Hsrc).
  rewrite getFileSize_spec, Hsrc in E. cbn [stats_size] in E.
  destruct (ensureDir (path_dirname tgt) w) as [[[]|e] w1] eqn:Ed; [|discriminate].
  destruct (ensureDir_effect _ _ Ed) as ((Hc1 & He1) & Hx1).
  unfold GzipHandler.createGzip in E.
  destruct (_ || _); [discriminate|]. unfold ret at 1 in E.
  destruct (report_effect cb (formatProgress 0 (Some (blen data)) (Some "compressing") None) w1)
    as (w2 & Hr & (Hc2 & Hn2 & He2)).
  rewrite Hr in E.
  destruct (openWrite tgt w2) as [[q|e] w3] eqn:Eo; [|discriminate].
  destruct (openWrite_post _ _ Eo) as (_ & _ & Hc3 & Hn3).
  destruct (openWrite_effect _ _ Eo) as (_ & He3).
  unfold readStream in E.
  destruct (lookup w3 src) as [[read|]|] eqn:Hread; try discriminate.
  destruct (onSourceData_effect cb (blen data) "compressing"
              (chunksOf (Z.to_nat highWaterMark) read) 0 w3)
    as (total & w4 & Hd & (Hc4 & Hn4 & He4)).
  rewrite Hd in E. rewrite concat_chunksOf in E.
  destruct (@writeAll_post q [zlib_gzip (or_num (compressionLevel o) 6) read] w4 [])
    as (w5 & Hw & Hc5 & Hq5 & Ho5).
  { rewrite Hn4, Hn3. apply put_same. }
  cbn [GzipHandler.writeAll] in Hw. unfold bind in Hw.
  destruct (writeChunk_effect q (zlib_gzip (or_num (compressionLevel o) 6) read) w4)
    as (w5' & Ew & (_ & He5)).
  rewrite Ew in Hw, E. unfold ret in Hw. injection Hw as ->.
  rewrite getFileSize_spec in E.
  destruct (lookup w5 tgt) as [n|] eqn:Ht; [|discriminate].
  unfold ret in E. injection E as <- <-.
  cbn [List.concat app] in Hq5. rewrite app_nil_r in Hq5.
  exists data, read, n, w1, w2, w3, q.
  split; [exact Hsrc|]. split; [reflexivity|]. split; [exact Hc2|]. split; [exact Hn2|].
  split; [exact Eo|]. split; [exact Hread|]. split; [congruence|].
  split; [exact Hq5|]. split.
  { intros q' Hne. rewrite (Ho5 _ Hne). now rewrite Hn4. }
  split; [exact Ht|]. split; [|reflexivity].
  rewrite He5, He4, He3, He2, He1. rewrite <- app_assoc. f_equal.
  unfold source_events. destruct cb; reflexivity.
Qed.

Lemma compress_success (src tgt : string) (o : CompressionOptions) (cb : bool)
    (w w' : World) (r : MCPResult) :
  GzipHandler.compress src tgt o cb w = (Ret r, w') ->
  isError r = false ->
  exists data read n,
    lookup w src = Some (File data)
    /\ lookup w' tgt = Some n
    /\ events w' = (events w ++ source_events cb "compressing" (blen data) read)%list
    /\ r = createSuccessResult ("Successfully compressed file to " ++ tgt)
             [("originalSize", VNum (blen data));
              ("compressedSize", VNum (stats_size n));
              ("compressionRatio",
               VStr (formatCompressionRatio (blen data) (stats_size n)));
              ("sourcePath", VStr src);
              ("targetPath", VStr tgt)].
Proof.
  intros H Hok.
  destruct (compress_trace _ _ _ _ _ H Hok)
    as (data & read & n & w1 & w2 & w3 & q & Hsrc & _ & _ & _ & _ & _ & _ & _ & _
        & Ht & Hev & Hr).
  exists data, read, n. repeat split; assumption.
Qed.

(** A successful [decompress], step by step. *)
Lemma decompress_trace (src dir : string) (o : DecompressionOptions) (cb : bool)
    (w w' : World) (r : MCPResult) :
  GzipHandler.decompress src dir o cb w = (Ret r, w') ->
  isError r = false ->
  exists data read n w1 w2 w3 q,
    lookup w src = Some (File data)
    /\ ensureDir dir w = (Ret tt, w1)
    /\ cwd w2 = cwd w1 /\ nodes w2 = nodes w1
    /\ openWrite (decompress_target src dir) w2 = (Ret q, w3)
    /\ lookup w3 src = Some (File read)
    /\ snd (zlib_gunzip read) = None
    /\ cwd w' = cwd w3
    /\ nodes w' q = Some (File (List.concat (fst (zlib_gunzip read))))
    /\ (forall q', q' <> q -> nodes w' q' = nodes w3 q')
    /\ lookup w' (decompress_target src dir) = Some n
    /\ events w' = (events w ++ source_events cb "decompressing" (blen data) read)%list
    /\ r = createSuccessResult
             ("Successfully decompressed file to " ++ decompress_target src dir)
             [("compressedSize", VNum (blen data));
              ("decompressedSize", VNum (stats_size n));
              ("expansionRatio",
               VStr (formatCompressionRatio (blen data) (stats_size n)));
              ("sourcePath", VStr src);
              ("targetPath", VStr (decompress_target src dir))].
Proof.
  unfold GzipHandler.decompress, try_catch.
  destruct (GzipHandler.decompress_body src dir o cb w) as [[r0|e] w0] eqn:E;
    intros [= <- <-] Hok; [|discriminate].
  unfold GzipHandler.decompress_body, bind in E.
  rewrite fileExists_spec in E.
  destruct (exists_at w src); [|injection E as <- _; discriminate].
  cbn [negb] in E. rewrite isFile_spec in E.
  destruct (file_at w src) eqn:Hf; [|injection E as <- _; discriminate].
  cbn [negb] in E.
  destruct (file_at_inv _ _ Hf) as (data & Hsrc).
  destruct (ensureDir dir w) as [[[]|e] w1] eqn:Ed; [|discriminate].
  destruct (ensureDir_effect _ _ Ed) as ((Hc1 & He1) & Hx1).
  assert (Hsrc1 : lookup w1 src = Some (File data))
    by (eapply lookup_extends; eassumption).
  fold (decompress_target src dir) in E.
  rewrite getFileSize_spec, Hsrc1 in E. cbn [stats_size] in E.
  destruct (report_effect cb
              (formatProgress 0 (Some (blen data)) (Some "decompressing") None) w1)
    as (w2 & Hr & (Hc2 & Hn2 & He2)).
  rewrite Hr in E.
  destruct (openWrite (decompress_target src dir) w2) as [[q|e] w3] eqn:Eo;
    [|discriminate].
  destruct (openWrite_post _ _ Eo) as (_ & _ & Hc3 & Hn3).
  destruct (openWrite_effect _ _ Eo) as (_ & He3).
  unfold readStream in E.
  destruct (lookup w3 src) as [[read|]|] eqn:Hread; try discriminate.
  destruct (onSourceData_effect cb (blen data) "decompressing"
              (chunksOf (Z.to_nat highWaterMark) read) 0 w3)
    as (total & w4 & Hd & (Hc4 & Hn4 & He4)).
  rewrite Hd in E. rewrite concat_chunksOf in E.
  destruct (@writeAll_post q (fst (zlib_gunzip read)) w4 [])
    as (w5 & Hw & Hc5 & Hq5 & Ho5).
  { rewrite Hn4, Hn3. apply put_same. }
  destruct (writeAll_effect q (fst (zlib_gunzip read)) w4) as (w5' & Hw' & (_ & He5)).
  assert (w5' = w5) by congruence. subst w5'.
  rewrite Hw in E.
  destruct (snd (zlib_gunzip read)) as [e|] eqn:Herr; [discriminate|].
  rewrite getFileSize_spec in E.
  destruct (lookup w5 (decompress_target src dir)) as [n|] eqn:Ht; [|discriminate].
  unfold ret in E. injection E as <- <-.
  cbn [app] in Hq5.
  exists data, read, n, w1, w2, w3, q.
  split; [exact Hsrc|]. split; [reflexivity|]. split; [exact Hc2|]. split; [exact Hn2|].
  split; [exact Eo|]. split; [exact Hread|]. split; [exact Herr|].
  split; [congruence|]. split; [exact Hq5|]. split.
  { intros q' Hne. rewrite (Ho5 _ Hne). now rewrite Hn4. }
  split; [exact Ht|]. split; [|reflexivity].
  rewrite He5, He4, He3, He2, He1. rewrite <- app_assoc. f_equal.
  unfold source_events. destruct cb; reflexivity.
Qed.

Lemma decompress_success (src dir : string) (o : DecompressionOptions) (cb : bool)
    (w w' : World) (r : MCPResult) :
  GzipHandler.decompress src dir o cb w = (Ret r, w') ->
  isError r = false ->
  exists data read n,
    lookup w src = Some (File data)
    /\ lookup w' (decompress_target src dir) = Some n
    /\ snd (zlib_gunzip read) = None
    /\ events w' = (events w ++ source_events cb "decompressing" (blen data) read)%list
    /\ r = createSuccessResult
             ("Successfully decompressed file to " ++ decompress_target src dir)
             [("compressedSize", VNum (blen data));
              ("decompressedSize", VNum (stats_size n));
              ("expansionRatio",
               VStr (formatCompressionRatio (blen data) (stats_size n)));
              ("sourcePath", VStr src);
              ("targetPath", VStr (decompress_target src dir))].
Proof.
  intros H Hok.
  destruct (decompress_trace _ _ _ _ _ H Hok)
    as (data & read & n & w1 & w2 & w3 & q & Hsrc & _ & _ & _ & _ & _ & Herr & _ & _ & _
        & Ht & Hev & Hr).
  exists data, read, n. repeat split; assumption.
Qed.
End SuccessPaths.

Section SuccessPaths2.
Context {rt : Runtime}.
Import CompressionUtils.

Lemma onGunzipData_effect (cb : bool) (sz previewLen : Z)
    (incoming : list (list byte)) :
  forall kept total w,
  exists w1,
    GzipHandler.onGunzipData cb sz previewLen kept total incoming w
    = (Ret (gunzip_scan previewLen kept total incoming), w1)
    /\ emits w w1
         (if cb
          then map (fun t => formatProgress (Z.min t sz) (Some sz) (Some "reading") None)
                   (gunzip_totals previewLen total incoming)
          else []).
Proof.
  induction incoming as [|c cs IH]; intros kept total w;
    cbn [GzipHandler.onGunzipData gunzip_scan gunzip_totals map].
  - exists w. split; [reflexivity|].
    repeat split. destruct cb; now rewrite app_nil_r.
  - unfold bind.
    destruct (report_effect cb
                (formatProgress (Z.min (total + blen c) sz) (Some sz) (Some "reading") None) w)
      as (w1 & -> & H1).
    destruct (previewLen <=? total + blen c).
    + exists w1. split; [reflexivity|]. destruct cb; exact H1.
    + destruct (IH (kept ++ [c])%list (total + blen c) w1) as (w2 & -> & H2).
      exists w2. split; [reflexivity|].
      pose proof (emits_trans H1 H2) as H. destruct cb; exact H.
Qed.

Lemma listContents_success (src : string) (o : ListOptions) (cb : bool)
    (w w' : World) (r : MCPResult) :
  GzipHandler.listContents src o cb w = (Ret r, w') ->
  isError r = false ->
  exists data,
    let sz := blen data in
    let previewLen := or_num (previewLength o) 1000 in
    let decoded := zlib_gunzip data in
    let '(chunks, totalLength, destroyed) :=
      gunzip_scan previewLen [] 0 (fst decoded) in
    lookup w src = Some (File data)
    /\ GzipHandler.isFormatValid src = true
    /\ (destroyed = true \/ snd decoded = None)
    /\ nodes w' = nodes w
    /\ events w' = (events w ++ list_events cb sz previewLen (fst decoded))%list
    /\ r = createSuccessResult ("Content preview of " ++ src)
             [("fileName", VStr (removeExtension (path_basename src) (Some ".gz")));
              ("compressedSize", VNum sz);
              ("previewSize", VNum totalLength);
              ("preview",
               VStr (Buffer_toString (Buffer_concat chunks totalLength)
                       (Z.min previewLen totalLength)));
              ("isTruncated", VBool (previewLen <? totalLength))].
Proof.
  unfold GzipHandler.listContents, try_catch.
  destruct (GzipHandler.listContents_body src o cb w) as [[r0|e] w0] eqn:E;
    intros [= <- <-] Hok; [|discriminate].
  unfold GzipHandler.listContents_body, bind in E.
  rewrite fileExists_spec in E.
  destruct (exists_at w src); [|injection E as <- _; discriminate].
  cbn [negb] in E. rewrite isFile_spec in E.
  destruct (file_at w src) eqn:Hf; [|injection E as <- _; discriminate].
  cbn [negb] in E.
  destruct (GzipHandler.isFormatValid src) eqn:Hv; [|injection E as <- _; discriminate].
  cbn [negb] in E.
  destruct (file_at_inv _ _ Hf) as (data & Hsrc).
  rewrite getFileSize_spec, Hsrc in E. cbn [stats_size] in E.
  destruct (report_effect cb (formatProgress 0 (Some (blen data)) (Some "reading") None) w)
    as (w1 & Hr & (Hc1 & Hn1 & He1)).
  rewrite Hr in E.
  assert (Hsrc1 : lookup w1 src = Some (File data)).
  { replace (lookup w1 src) with (lookup w src)
      by (symmetry; apply lookup_same; assumption).
    assumption. }
  unfold readStream in E. rewrite Hsrc1 in E. rewrite concat_chunksOf in E.
  destruct (onGunzipData_effect cb (blen data) (or_num (previewLength o) 1000)
              (fst (zlib_gunzip data)) [] 0 w1)
    as (w2 & Hg & (Hc2 & Hn2 & He2)).
  rewrite Hg in E.
  exists data. cbv zeta.
  destruct (gunzip_scan (or_num (previewLength o) 1000) [] 0 (fst (zlib_gunzip data)))
    as [[chunks totalLength] destroyed].
  destruct (report_effect cb
              (formatProgress (blen data) (Some (blen data)) (Some "complete") None) w2)
    as (w3 & Hr3 & (Hc3 & Hn3 & He3)).
  assert (Hev : events w3 = (events w ++ list_events cb (blen data)
                               (or_num (previewLength o) 1000)
                               (fst (zlib_gunzip data)))%list).
  { rewrite He3, He2, He1. rewrite <- !app_assoc. f_equal.
    unfold list_events. destruct cb; reflexivity. }
  destruct destroyed.
  - rewrite Hr3 in E. unfold ret in E. injection E as <- <-.
    repeat split; try assumption; try congruence. now left.
  - destruct (snd (zlib_gunzip data)) as [e|] eqn:Herr; [discriminate|].
    rewrite Hr3 in E. unfold ret in E. injection E as <- <-.
    repeat split; try assumption; try congruence. now right.
Qed.
End SuccessPaths2.

(* ------------------------------------------------------------------------- *)
(** ** Progress events *)
(* ------------------------------------------------------------------------- *)

Section ProgressFacts.
Import CompressionUtils.

Lemma pc_mono (sz a b : Z) : 0 < sz -> a <= b -> pc sz a <= pc sz b.
Proof.
  intros Hsz Hab. unfold pc.
  pose proof (Math_round_mono (percent64_mono Hsz Hab)). lia.
Qed.

Lemma pc_full (sz : Z) : 0 < sz -> pc sz sz = 100.
Proof.
  intros Hsz. unfold pc.
  rewrite (Math_round_comp (percent64_full Hsz)). reflexivity.
Qed.

Lemma percents_app (a b : list ProgressInfo) :
  percents (a ++ b) = (percents a ++ percents b)%list.
Proof. unfold percents. apply flat_map_app. Qed.

Lemma percents_known (sz : Z) (stg : string) (ks : list Z) :
  sz <> 0 ->
  percents (map (fun k => formatProgress k (Some sz) (Some stg) None) ks)
  = map (pc sz) ks.
Proof.
  intros Hsz. induction ks as [|k ks IH]; [reflexivity|].
  cbn [map]. change (?x :: ?l) with ([x] ++ l)%list at 1.
  rewrite percents_app, IH. unfold percents at 1. cbn [flat_map].
  rewrite formatProgress_percent by assumption. reflexivity.
Qed.

Lemma percents_unknown (stg : string) (ks : list Z) :
  percents (map (fun k => formatProgress k (Some 0) (Some stg) None) ks) = [].
Proof. induction ks as [|k ks IH]; [reflexivity|exact IH]. Qed.

Lemma Sorted_map_mono (f : Z -> Z) (l : list Z) :
  (forall x y, x <= y -> f x <= f y) ->
  Sorted Z.le l -> Sorted Z.le (map f l).
Proof.
  intros Hf. induction 1 as [|a l Hs IH Hhd]; simpl; constructor; auto.
  destruct Hhd; simpl; constructor; auto.
Qed.

Lemma Sorted_snoc (l : list Z) (m : Z) :
  Sorted Z.le l -> Forall (fun x => x <= m) l -> Sorted Z.le (l ++ [m]).
Proof.
  induction 1 as [|a l Hs IH Hhd]; intros Hall; simpl.
  - repeat constructor.
  - inversion Hall as [|? ? Ha Hl]; subst.
    constructor; [now apply IH|].
    destruct Hhd; simpl; constructor; auto.
Qed.

Lemma running_sorted (chunks : list (list byte)) :
  forall acc, Sorted Z.le (acc :: running acc chunks).
Proof.
  induction chunks as [|c cs IH]; intros acc; simpl.
  - repeat constructor.
  - constructor; [apply IH|]. constructor. pose proof (blen_nonneg c). lia.
Qed.

Lemma running_last (chunks : list (list byte)) :
  forall acc d,
    chunks <> [] ->
    List.last (running acc chunks) d = acc + blen (List.concat chunks).
Proof.
  induction chunks as [|c cs IH]; intros acc d Hne; [contradiction|].
  cbn [running List.concat]. rewrite blen_app.
  destruct cs as [|c' cs'].
  - cbn [running List.last List.concat]. change (blen []) with 0. lia.
  - change (List.last (?a :: running ?b (c' :: cs')) d)
      with (List.last (running b (c' :: cs')) d).
    rewrite IH by discriminate. lia.
Qed.

Lemma gunzip_totals_sorted (previewLen : Z) (chunks : list (list byte)) :
  forall total, Sorted Z.le (total :: gunzip_totals previewLen total chunks).
Proof.
  induction chunks as [|c cs IH]; intros total; simpl.
  - repeat constructor.
  - constructor.
    + destruct (previewLen <=? total + blen c); [repeat constructor|apply IH].
    + constructor. pose proof (blen_nonneg c). lia.
Qed.

Lemma last_map_Some (A : Type) (l : list A) (x : A) :
  List.last (map Some (l ++ [x])) None = Some x.
Proof.
  induction l as [|a l IH]; [reflexivity|].
  simpl. destruct (map Some (l ++ [x])) eqn:E.
  - destruct l; discriminate.
  - exact IH.
Qed.

Lemma last_map (A B : Type) (f : A -> B) (l : list A) (d : A) :
  l <> [] -> List.last (map f l) (f d) = f (List.last l d).
Proof.
  induction l as [|a l IH]; intros Hne; [contradiction|].
  destruct l as [|b l]; [reflexivity|].
  change (List.last (map f (b :: l)) (f d) = f (List.last (b :: l) d)).
  apply IH. discriminate.
Qed.
End ProgressFacts.

Section ProgressRuns.
Context {rt : Runtime}.
Import CompressionUtils.

Lemma blen_zero (d : list byte) : blen d = 0 -> d = [].
Proof. destruct d; [reflexivity|]. unfold blen. simpl. lia. Qed.

Lemma chunksOf_nonempty (size : nat) (d : list byte) :
  d <> [] -> chunksOf size d <> [].
Proof.
  intros Hd Hc. apply Hd. rewrite <- (concat_chunksOf size d). now rewrite Hc.
Qed.

Lemma source_events_sorted (cb : bool) (stg : string) (sz : Z) (read : list byte) :
  0 <= sz -> Sorted Z.le (percents (source_events cb stg sz read)).
Proof.
  intros Hsz. unfold source_events. destruct cb; [|constructor].
  set (ks := running 0 (chunksOf (Z.to_nat highWaterMark) read)).
  change (formatProgress 0 (Some sz) (Some stg) None
          :: map (fun k => formatProgress k (Some sz) (Some stg) None) ks)
    with (map (fun k => formatProgress k (Some sz) (Some stg) None) (0 :: ks)).
  destruct (Z.eq_dec sz 0) as [Hz|Hnz].
  - rewrite Hz, percents_unknown. constructor.
  - rewrite percents_known by assumption.
    apply Sorted_map_mono.
    + intros x y. apply pc_mono. lia.
    + apply running_sorted.
Qed.

Lemma last_Some (A : Type) (l : list A) (d : A) :
  l <> [] -> List.last (map Some l) None = Some (List.last l d).
Proof.
  induction l as [|a l IH]; intros Hne; [contradiction|].
  destruct l as [|b l]; [reflexivity|].
  change (List.last (map Some (b :: l)) None = Some (List.last (b :: l) d)).
  apply IH. discriminate.
Qed.

Lemma source_events_last (stg : string) (data : list byte) :
  data <> [] ->
  lastEvent (source_events true stg (blen data) data)
  = Some (formatProgress (blen data) (Some (blen data)) (Some stg) None).
Proof.
  intros Hd. unfold source_events, lastEvent.
  pose proof (chunksOf_nonempty (Z.to_nat highWaterMark) Hd) as Hc.
  pose proof (concat_chunksOf (Z.to_nat highWaterMark) data) as Hcat.
  set (cs := chunksOf (Z.to_nat highWaterMark) data) in *.
  set (f := fun k => formatProgress k (Some (blen data)) (Some stg) None).
  change (f 0 :: map f (running 0 cs)) with (map f (0 :: running 0 cs)).
  rewrite (@last_Some _ _ (f 0)) by discriminate.
  change (formatProgress 0 (Some (blen data)) (Some stg) None :: map f (running 0 cs))
    with (map f (0 :: running 0 cs)).
  rewrite (@last_map _ _ f (0 :: running 0 cs) 0) by discriminate. f_equal.
  destruct cs as [|c cs']; [contradiction|].
  change (List.last (0 :: running 0 (c :: cs')) 0)
    with (List.last (running 0 (c :: cs')) 0).
  rewrite running_last by discriminate. rewrite Hcat. reflexivity.
Qed.

Lemma list_events_sorted (cb : bool) (sz previewLen : Z) (chunks : list (list byte)) :
  0 <= sz ->
  Sorted Z.le (percents (list_events cb sz previewLen chunks)).
Proof.
  intros Hsz. unfold list_events. destruct cb; [|constructor].
  set (ks := map (fun t => Z.min t sz) (gunzip_totals previewLen 0 chunks)).
  replace (map (fun t => formatProgress (Z.min t sz) (Some sz) (Some "reading") None)
               (gunzip_totals previewLen 0 chunks))
    with (map (fun k => formatProgress k (Some sz) (Some "reading") None) ks)
    by (unfold ks; now rewrite map_map).
  change (formatProgress 0 (Some sz) (Some "reading") None
          :: map (fun k => formatProgress k (Some sz) (Some "reading") None) ks
             ++ [formatProgress sz (Some sz) (Some "complete") None])%list
    with (map (fun k => formatProgress k (Some sz) (Some "reading") None) (0 :: ks)
          ++ map (fun k => formatProgress k (Some sz) (Some "complete") None) [sz])%list.
  rewrite percents_app.
  destruct (Z.eq_dec sz 0) as [Hz|Hnz].
  - subst sz. rewrite !percents_unknown. constructor.
  - rewrite !percents_known by assumption.
    rewrite <- map_app. apply Sorted_map_mono.
    + intros x y. apply pc_mono. lia.
    + apply Sorted_snoc.
      * replace (0 :: ks) with (map (fun t => Z.min t sz)
                                   (0 :: gunzip_totals previewLen 0 chunks)).
        -- apply Sorted_map_mono; [intros; lia|apply gunzip_totals_sorted].
        -- cbn [map]. f_equal. lia.
      * constructor; [lia|]. unfold ks. apply Forall_forall.
        intros x Hx. apply in_map_iff in Hx as (t & <- & _). lia.
Qed.

Lemma list_events_last (sz previewLen : Z) (chunks : list (list byte)) :
  lastEvent (list_events true sz previewLen chunks)
  = Some (formatProgress sz (Some sz) (Some "complete") None).
Proof.
  unfold list_events, lastEvent.
  rewrite app_comm_cons. apply last_map_Some.
Qed.
End ProgressRuns.

Section ProgressProperties.
Import CompressionUtils.

(** C5, counterexample.  Compressing an empty file with a callback succeeds
    and hands over one event only: it has no percentage, and its stage is
    [compressing]. *)
Lemma compress_empty_file_ends_without_100 :
  let out := @GzipHandler.compress Posix.runtime "/home/user/empty.txt"
               "/home/user/empty.txt.gz" (Build_CompressionOptions (Some 6)) true
               home_world in
  (exists r, fst out = Ret r /\ isError r = false)
  /\ events (snd out)
     = [ {| bytesProcessed := 0; totalBytes := None; percentComplete := None;
            stage := "compressing"; detail := None |} ]
  /\ (forall e, lastEvent (events (snd out)) = Some e ->
                ~ (percentComplete e = Some 100 /\ stage e = "complete")).
Proof.
  vm_compute. split; [eexists; split; reflexivity|]. split; [reflexivity|].
  intros e [= <-] [H _]. discriminate.
Qed.

(** The last event of a successful [compress] keeps the stage of the
    chunks before it: no closing event follows, as one does in
    [listContents]. *)
Lemma compress_ends_in_stage_compressing :
  let out := @GzipHandler.compress Posix.runtime "/home/user/notes.txt"
               "/home/user/notes.txt.gz" (Build_CompressionOptions (Some 6)) true
               home_world in
  isError (result_of (fst out)) = false
  /\ events (snd out)
     = [ {| bytesProcessed := 0; totalBytes := Some 5; percentComplete := Some 0;
            stage := "compressing"; detail := None |};
         {| bytesProcessed := 5; totalBytes := Some 5; percentComplete := Some 100;
            stage := "compressing"; detail := None |} ].
Proof. vm_compute. split; reflexivity. Qed.

(** A target that is the source itself.  Opening the target empties the
    file before it is read: [compress] onto the source succeeds, hands over
    the event of the start only, and leaves the encoding of nothing. *)
Lemma compress_onto_the_source :
  let out := @GzipHandler.compress Posix.runtime "/home/user/notes.txt"
               "/home/user/notes.txt" (Build_CompressionOptions (Some 6)) true
               home_world in
  isError (result_of (fst out)) = false
  /\ field (result_of (fst out)) "originalSize" = Some (VNum 5)
  /\ events (snd out)
     = [ {| bytesProcessed := 0; totalBytes := Some 5; percentComplete := Some 0;
            stage := "compressing"; detail := None |} ]
  /\ lookup (snd out) "/home/user/notes.txt" = Some (File (Posix.store 6 [])).
Proof. vm_compute. repeat split. Qed.

(** [decompress] of a file whose name ends in [.GZ] into its own directory
    has the source as its target, since only a lower-case [.gz] is removed
    from the name: the decoder gets nothing to decode, the operation fails,
    and the file is left empty. *)
Lemma decompress_onto_the_source :
  let out := @GzipHandler.decompress Posix.runtime "/data/HELLO.GZ" "/data"
               (Build_DecompressionOptions None) false text_world in
  @decompress_target Posix.runtime "/data/HELLO.GZ" "/data" = "/data/HELLO.GZ"
  /\ fst out = Ret (createErrorResult
                      "Error decompressing file: unexpected end of file" None)
  /\ lookup (snd out) "/data/HELLO.GZ" = Some (File []).
Proof. vm_compute. repeat split. Qed.
End ProgressProperties.

(* ------------------------------------------------------------------------- *)
(** ** Requests the dispatcher refuses, and one it does not *)
(* ------------------------------------------------------------------------- *)

Section DispatcherProperties.
Import CompressionUtils UnifiedCompression.

(** What [normalizePath] would answer, were it called: it throws on a path
    that still has two dots after normalization, and lets through a path
    whose [..] is absorbed by the name before it. *)
Lemma normalizePath_examples :
  (exists e, fst (@normalizePath Posix.runtime "../secret.gz" home_world) = Throw e
             /\ message e = "Path traversal detected. Path cannot contain "
                            ++ dquote ++ ".." ++ dquote)
  /\ fst (@normalizePath Posix.runtime "work/../secret.gz" home_world)
     = Ret "secret.gz"
  /\ fst (@normalizePath Posix.runtime "/home/user/notes.txt" home_world)
     = Ret "/home/user/notes.txt".
Proof. vm_compute. split; [eexists; split; reflexivity|]. split; reflexivity. Qed.

(** C1, the code at the failing input.  A decompress request for
    [../secret.gz] is not refused: the dispatcher never calls
    [normalizePath], which would have thrown on this path, and the gzip
    handler writes [secret] into the parent of the working directory. *)
Lemma traversal_request_is_served :
  let params := request OpDecompress "gzip" "../secret.gz" None None in
  let out := @execute Posix.runtime (@registry Posix.runtime) params home_world in
  In ".." (split_slash (sourcePath params))
  /\ (exists e, fst (@normalizePath Posix.runtime (sourcePath params) home_world) = Throw e)
  /\ fst out
     = Ret (createSuccessResult "Successfully decompressed file to ../secret"
              [("compressedSize", VNum 12); ("decompressedSize", VNum 10);
               ("expansionRatio", VStr "83.33%");
               ("sourcePath", VStr "../secret.gz");
               ("targetPath", VStr "../secret")])
  /\ nodes home_world ["home"; "user"; "secret"] = None
  /\ nodes (snd out) ["home"; "user"; "secret"]
     = Some (File (Posix.bytes "top secret")).
Proof.
  vm_compute. split; [auto|]. split; [eexists; reflexivity|]. repeat split.
Qed.


(** A request for a format that is not registered fails on the format,
    also when its source does not exist: the handler is resolved before the
    source is looked at. *)
Lemma unknown_format_hides_missing_source :
  let params := request OpCompress "rar" "/does/not/exist" (Some "/out") None in
  let out := @execute Posix.runtime (@registry Posix.runtime) params home_world in
  lookup home_world (sourcePath params) = None
  /\ fst out
     = Ret (createErrorResult "Unsupported format: rar"
              (Some "Supported formats are: gzip"))
  /\ fst out
     <> Ret (createErrorResult "Source path does not exist: /does/not/exist" None).
Proof. vm_compute. repeat split. discriminate. Qed.



(** C6.  A request whose source path does not exist leaves the state as it
    was, so that no output file is written and no output directory made,
    and returns a failure: [Source path does not exist] for every
    registered format; the three operations of the gzip handler, called
    directly, answer [Source file does not exist]. *)
Theorem missing_source_is_refused :
  forall (rt : Runtime) (reg : FormatRegistry.t) (params : Params) (w : World),
    lookup w (sourcePath params) = None ->
    (forall h,
        FormatRegistry.getHandlerByFormat reg (format params) = Some h ->
        execute reg params w
        = (Ret (createErrorResult
                  ("Source path does not exist: " ++ sourcePath params) None), w))
    /\ (exists r, execute reg params w = (Ret r, w) /\ isError r = true)
    /\ (forall op cb,
           run_op op (sourcePath params) cb w
           = (Ret (createErrorResult
                     ("Source file does not exist: " ++ sourcePath params) None), w)).
Proof.
  intros rt reg params w Hl. split; [|split].
  - intros h Hh. eapply execute_missing_source; eassumption.
  - destruct (FormatRegistry.getHandlerByFormat reg (format params)) as [h|] eqn:Hh.
    + eexists. split; [eapply execute_missing_source; eassumption|reflexivity].
    + eexists. split; [now apply execute_unknown_format|reflexivity].
  - intros op cb.
    destruct op; cbn [run_op];
      unfold GzipHandler.compress, GzipHandler.decompress, GzipHandler.listContents,
        GzipHandler.compress_body, GzipHandler.decompress_body,
        GzipHandler.listContents_body, try_catch, bind;
      rewrite fileExists_spec; unfold exists_at; rewrite Hl; reflexivity.
Qed.

Lemma missing_source_is_refused_witness :
  let params := request OpCompress "gzip" "/does/not/exist" (Some "/out") None in
  @execute Posix.runtime (@registry Posix.runtime) params home_world
  = (Ret (createErrorResult "Source path does not exist: /does/not/exist" None),
     home_world).
Proof.
  exact (proj1 (@missing_source_is_refused Posix.runtime (@registry Posix.runtime)
                  (request OpCompress "gzip" "/does/not/exist" (Some "/out") None)
                  home_world eq_refl)
               (@GzipHandler.handler Posix.runtime) eq_refl).
Defined.
End DispatcherProperties.

(* ------------------------------------------------------------------------- *)
(** ** Ratios *)
(* ------------------------------------------------------------------------- *)

Section RatioProperties.
Import CompressionUtils.

(** C8, counterexample.  Decompressing a 12-byte file into 10 bytes, the
    gzip handler reports the expansion ratio [83.33%], the plain quotient
    10 / 12 * 100 (with [SpecFloat] as well), where the signed quantity
    (10 / 12 - 1) * 100 prints as [-16.67%]; likewise 50 bytes that expand
    to 100 are reported as [200.00%], not as [100.00%]. *)
Lemma decompress_reports_plain_quotient :
  let out := @GzipHandler.decompress Posix.runtime "/home/user/secret.gz"
               "/home/user/out" (Build_DecompressionOptions None) false home_world in
  isError (result_of (fst out)) = false
  /\ field (result_of (fst out)) "compressedSize" = Some (VNum 12)
  /\ field (result_of (fst out)) "decompressedSize" = Some (VNum 10)
  /\ field (result_of (fst out)) "expansionRatio" = Some (VStr "83.33%")
  /\ Binary64.ratio 12 10 = Some "83.33%"
  /\ toFixed2 (signed_expansion 10 12) ++ "%" = "-16.67%"
  /\ formatCompressionRatio 50 100 = "200.00%"
  /\ toFixed2 (signed_expansion 100 50) ++ "%" = "100.00%"
  /\ field (result_of (fst out)) "expansionRatio"
     <> Some (VStr (toFixed2 (signed_expansion 10 12) ++ "%")).
Proof. vm_compute. repeat split. discriminate. Qed.

(** Where the rounding of the quotient decides the second decimal: 201
    bytes of 20000 are exactly 1.005 percent, printed [1.00%] since the
    number computed lies below; and 301401984659 of 107907554073 are
    printed [279.31%], where the exact value would give [279.32]. *)
Lemma ratio_decided_by_the_double :
  formatCompressionRatio 20000 201 = "1.00%"
  /\ Binary64.ratio 20000 201 = Some "1.00%"
  /\ toFixed2 (percent_of 201 20000) = "1.01"
  /\ formatCompressionRatio 107907554073 301401984659 = "279.31%"
  /\ Binary64.ratio 107907554073 301401984659 = Some "279.31%"
  /\ toFixed2 (percent_of 301401984659 107907554073) = "279.32"
  /\ Legacy.extractionRatioFormatted 10 12 = "-16.67%"
  /\ Legacy.extractionRatioFormatted 100 50 = "+100.00%".
Proof. vm_compute. repeat split. Qed.

Lemma hundredths_bounds (a : Q) :
  (inject_Z (hundredths a) - (1 # 2) <= a * 100 <= inject_Z (hundredths a) + (1 # 2))%Q.
Proof.
  destruct (Math_round_bounds (a * 100)) as [H1 H2].
  change (Math_round (a * 100)) with (hundredths a) in *. split; lra.
Qed.

Lemma toFixed2_prints (x : Q) :
  (0 <= x)%Q -> prints_percent (toFixed2 x ++ "%") x.
Proof.
  intros Hx. unfold toFixed2.
  destruct (Qlt_le_dec x 0) as [Hneg|_]; [lra|].
  exists (hundredths x). split; [reflexivity|apply hundredths_bounds].
Qed.

Lemma toFixed2_negative (x : Q) :
  (x < 0)%Q -> toFixed2 x = "-" ++ toFixed2 (- x).
Proof.
  intros Hx. unfold toFixed2.
  destruct (Qlt_le_dec x 0) as [_|Hge]; [|lra].
  destruct (Qlt_le_dec (- x) 0) as [Hneg|_]; [lra|]. reflexivity.
Qed.

Lemma formatCompressionRatio_prints (originalSize compressedSize : Z) :
  0 < originalSize -> 0 <= compressedSize ->
  prints_percent (formatCompressionRatio originalSize compressedSize)
                 (percent64 compressedSize originalSize)
  /\ rounded_twice (percent_of compressedSize originalSize)
                   (percent64 compressedSize originalSize).
Proof.
  intros Ho Hc. split; [|now apply percent64_error].
  unfold formatCompressionRatio.
  destruct (Z.eqb_spec originalSize 0); [lia|].
  apply toFixed2_prints. now apply percent64_nonneg.
Qed.

(** The number the unzip tool computes for the signed expansion, against
    its exact value. *)
Lemma extractionRatio_error (extractedSize fileSize : Z) :
  0 <= extractedSize -> 0 < fileSize ->
  rounded_expansion (signed_expansion extractedSize fileSize)
                    (Legacy.extractionRatio extractedSize fileSize).
Proof.
  intros He Hf.
  unfold rounded_expansion, signed_expansion, Legacy.extractionRatio, mul64, sub64, div64.
  pose proof (quotient_nonneg He Hf) as Hq.
  set (q := (inject_Z extractedSize / inject_Z fileSize)%Q) in *.
  destruct (double_error Hq) as [E1 E2]. pose proof (double_nonneg Hq) as Hd.
  set (d1 := double q) in *.
  set (a1 := (1 + q * (1 + (1 # 9007199254740992)))%Q).
  destruct (@double_within (d1 - 1) a1) as [F1 F2]; [unfold a1; split; lra|].
  set (d2 := double (d1 - 1)) in *.
  set (a2 := (100 * (a1 * (1 + (1 # 9007199254740992))))%Q).
  destruct (@double_within (d2 * 100) a2) as [G1 G2];
    [unfold a2, a1 in *; split; lra|].
  unfold a2, a1 in *. split; lra.
Qed.

Lemma extractionRatioFormatted_signed (extractedSize fileSize : Z) :
  fileSize <> 0 ->
  let r := Legacy.extractionRatio extractedSize fileSize in
  ((0 < r)%Q ->
   exists s, Legacy.extractionRatioFormatted extractedSize fileSize = "+" ++ s
             /\ prints_percent s r)
  /\ ((r < 0)%Q ->
      exists s, Legacy.extractionRatioFormatted extractedSize fileSize = "-" ++ s
                /\ prints_percent s (- r))
  /\ ((r == 0)%Q ->
      Legacy.extractionRatioFormatted extractedSize fileSize = "0.00%").
Proof.
  intros H r. unfold Legacy.extractionRatioFormatted.
  destruct (Z.eqb_spec fileSize 0); [contradiction|].
  cbv zeta. fold r.
  destruct (Qlt_le_dec 0 r) as [Hpos|Hle]; repeat split.
  - intros _. eexists. split; [reflexivity|]. apply toFixed2_prints. lra.
  - intros Hneg. lra.
  - intros Hz. lra.
  - intros Hpos. lra.
  - intros Hneg. rewrite toFixed2_negative by exact Hneg.
    eexists. split; [reflexivity|]. apply toFixed2_prints. lra.
  - intros Hz. unfold toFixed2.
    destruct (Qlt_le_dec r 0) as [Hneg|_]; [lra|].
    unfold hundredths. rewrite (Qfloor_comp (r * 100 + (1 # 2)) (1 # 2)).
    + reflexivity.
    + rewrite Hz. reflexivity.
Qed.

(** C8, amended.  A successful [compress] reports [compressionRatio] as
    [compressedSize / originalSize * 100] with two decimals and a percent
    sign, and a successful [decompress] reports [expansionRatio] as
    [decompressedSize / compressedSize * 100] in the same way, both from the
    size of the target file as it is once the pipeline has completed.  The
    text is [toFixed(2)] of the number computed, which is the exact quotient
    up to the two roundings of binary64: the hundredths printed are nearest
    to that number.  The signed [(decompressedSize / compressedSize - 1) *
    100], computed with three roundings, is what the stand-alone unzip tool
    prints. *)
Theorem ratios_reported :
  forall (rt : Runtime) (op : gzip_op) (src : string) (cb : bool)
         (w w' : World) (r : MCPResult),
    run_op op src cb w = (Ret r, w') ->
    isError r = false ->
    (exists data,
        lookup w src = Some (File data)
        /\ match op with
           | Compress tgt _ =>
               exists n,
                 lookup w' tgt = Some n
                 /\ field r "originalSize" = Some (VNum (blen data))
                 /\ field r "compressedSize" = Some (VNum (stats_size n))
                 /\ field r "compressionRatio"
                    = Some (VStr (formatCompressionRatio (blen data) (stats_size n)))
                 /\ (data <> [] ->
                     prints_percent (formatCompressionRatio (blen data) (stats_size n))
                                    (percent64 (stats_size n) (blen data))
                     /\ rounded_twice (percent_of (stats_size n) (blen data))
                                      (percent64 (stats_size n) (blen data)))
           | Decompress dir _ =>
               exists n,
                 lookup w' (decompress_target src dir) = Some n
                 /\ field r "compressedSize" = Some (VNum (blen data))
                 /\ field r "decompressedSize" = Some (VNum (stats_size n))
                 /\ field r "expansionRatio"
                    = Some (VStr (formatCompressionRatio (blen data) (stats_size n)))
                 /\ (data <> [] ->
                     prints_percent (formatCompressionRatio (blen data) (stats_size n))
                                    (percent64 (stats_size n) (blen data))
                     /\ rounded_twice (percent_of (stats_size n) (blen data))
                                      (percent64 (stats_size n) (blen data)))
           | ListContents _ => True
           end)
    /\ (forall extractedSize fileSize,
           0 <= extractedSize -> 0 < fileSize ->
           let x := Legacy.extractionRatio extractedSize fileSize in
           rounded_expansion (signed_expansion extractedSize fileSize) x
           /\ ((0 < x)%Q ->
            exists s, Legacy.extractionRatioFormatted extractedSize fileSize = "+" ++ s
                      /\ prints_percent s x)
           /\ ((x < 0)%Q ->
               exists s, Legacy.extractionRatioFormatted extractedSize fileSize = "-" ++ s
                         /\ prints_percent s (- x))
           /\ ((x == 0)%Q ->
               Legacy.extractionRatioFormatted extractedSize fileSize = "0.00%")).
Proof.
  intros rt op src cb w w' r H Hok.
  split.
  2:{ intros e f He Hf x. split; [now apply extractionRatio_error|].
      apply extractionRatioFormatted_signed. lia. }
  assert (Hsize : forall n, 0 <= stats_size n).
  { intros [d|]; simpl; [apply blen_nonneg|lia]. }
  assert (Hpos : forall data : list byte, data <> [] -> 0 < blen data).
  { intros data Hd. pose proof (blen_nonneg data).
    assert (blen data <> 0) by (intros Hz; now apply blen_zero in Hz). lia. }
  destruct op as [tgt o|dir o|o]; cbn [run_op] in H.
  - destruct (compress_success _ _ _ _ _ H Hok) as (data & read & n & Hsrc & Ht & _ & ->).
    exists data. split; [exact Hsrc|]. exists n. split; [exact Ht|].
    split; [reflexivity|]. split; [reflexivity|]. split; [reflexivity|].
    intros Hd. apply formatCompressionRatio_prints; auto.
  - destruct (decompress_success _ _ _ _ _ H Hok)
      as (data & read & n & Hsrc & Ht & _ & _ & ->).
    exists data. split; [exact Hsrc|]. exists n. split; [exact Ht|].
    split; [reflexivity|]. split; [reflexivity|]. split; [reflexivity|].
    intros Hd. apply formatCompressionRatio_prints; auto.
  - destruct (listContents_success _ _ _ _ H Hok) as (data & Hl). cbv zeta in Hl.
    destruct (gunzip_scan _ _ _ _) as [[chunks totalLength] destroyed].
    destruct Hl as (Hsrc & _). exists data. split; [exact Hsrc|exact I].
Qed.

Lemma ratios_reported_witness :
  let r := createSuccessResult
             "Successfully decompressed file to /home/user/out/secret"
             [("compressedSize", VNum 12); ("decompressedSize", VNum 10);
              ("expansionRatio", VStr "83.33%");
              ("sourcePath", VStr "/home/user/secret.gz");
              ("targetPath", VStr "/home/user/out/secret")] in
  exists data,
    lookup home_world "/home/user/secret.gz" = Some (File data)
    /\ exists n,
        lookup (snd (@GzipHandler.decompress Posix.runtime "/home/user/secret.gz"
                       "/home/user/out" (Build_DecompressionOptions None) false
                       home_world))
               (@decompress_target Posix.runtime "/home/user/secret.gz" "/home/user/out")
        = Some n
        /\ field r "compressedSize" = Some (VNum (blen data))
        /\ field r "decompressedSize" = Some (VNum (stats_size n))
        /\ field r "expansionRatio"
           = Some (VStr (formatCompressionRatio (blen data) (stats_size n)))
        /\ (data <> [] ->
            prints_percent (formatCompressionRatio (blen data) (stats_size n))
                           (percent64 (stats_size n) (blen data))
            /\ rounded_twice (percent_of (stats_size n) (blen data))
                             (percent64 (stats_size n) (blen data))).
Proof.
  refine (proj1 (@ratios_reported Posix.runtime
            (Decompress "/home/user/out" (Build_DecompressionOptions None))
            "/home/user/secret.gz" false home_world _ _ _ _)).
  - vm_compute. reflexivity.
  - reflexivity.
Defined.
End RatioProperties.

(* ------------------------------------------------------------------------- *)
(** ** Previews *)
(* ------------------------------------------------------------------------- *)

Section PreviewProperties.
Import CompressionUtils.


(** Called by itself, the handler takes a preview length above the 10000
    that the schema of the tool allows.  With 16384 on a payload of 32768
    bytes the first chunk of the decoder ends exactly at the preview
    length: the preview has its 16384 bytes, but the result is not marked
    truncated. *)
Lemma preview_at_chunk_boundary_not_marked :
  let out := @GzipHandler.listContents Posix.runtime "/data/big.gz"
               (Build_ListOptions (Some 16384)) false big_world in
  let r := result_of (fst out) in
  fst (@zlib_gunzip Posix.runtime (Posix.store 6 big_payload))
    = [firstn (Z.to_nat 16384) big_payload; skipn (Z.to_nat 16384) big_payload]
  /\ blen big_payload = 32768
  /\ isError r = false
  /\ field r "preview"
     = Some (VStr (string_of_list_byte (firstn (Z.to_nat 16384) big_payload)))
  /\ field r "previewSize" = Some (VNum 16384)
  /\ field r "isTruncated" = Some (VBool false).
Proof. vm_compute. repeat split. Qed.

Lemma gunzip_scan_spec (previewLen : Z) (incoming : list (list byte)) :
  forall kept total,
    let '(chunks, totalLength, destroyed) :=
      gunzip_scan previewLen kept total incoming in
    exists taken rest,
      incoming = (taken ++ rest)%list
      /\ chunks = (kept ++ taken)%list
      /\ totalLength = total + blen (List.concat taken)
      /\ (destroyed = true -> previewLen <= totalLength)
      /\ (destroyed = false -> rest = [] /\ (incoming <> [] -> totalLength < previewLen)).
Proof.
  induction incoming as [|c cs IH]; intros kept total; cbn [gunzip_scan].
  - exists [], []. change (blen (List.concat [])) with 0.
    split; [reflexivity|]. split; [now rewrite app_nil_r|]. split; [lia|].
    split; [discriminate|]. intros _. split; [reflexivity|]. intros H; contradiction.
  - destruct (Z.leb_spec previewLen (total + blen c)) as [Hle|Hlt].
    + exists [c], cs. cbn [List.concat]. rewrite app_nil_r.
      split; [reflexivity|]. split; [reflexivity|]. split; [reflexivity|].
      split; [intros _; exact Hle|discriminate].
    + specialize (IH (kept ++ [c])%list (total + blen c)).
      destruct (gunzip_scan previewLen (kept ++ [c]) (total + blen c) cs)
        as [[chunks totalLength] destroyed].
      destruct IH as (taken & rest & -> & -> & -> & Hd & Hn).
      exists (c :: taken), rest. cbn [List.concat]. rewrite blen_app, <- app_assoc.
      split; [reflexivity|]. split; [reflexivity|]. split; [lia|].
      split; [intros H; apply Hd in H; lia|].
      intros H. destruct (Hn H) as [-> Hlt']. split; [reflexivity|]. intros _.
      destruct taken as [|t ts].
      * change (blen (List.concat [])) with 0. lia.
      * rewrite app_nil_r in Hlt'. pose proof (Hlt' ltac:(discriminate)). lia.
Qed.

Lemma Buffer_concat_exact (chunks : list (list byte)) :
  Buffer_concat chunks (blen (List.concat chunks)) = List.concat chunks.
Proof.
  unfold Buffer_concat, blen. rewrite Nat2Z.id, firstn_all, Nat.sub_diag.
  apply app_nil_r.
Qed.

Lemma firstn_firstn_app (n : nat) (a b : list byte) :
  (n <= List.length a)%nat -> firstn n a = firstn n (a ++ b).
Proof. intros H. symmetry. now apply firstn_app_le. Qed.

Lemma utf8_decode_ascii (l : list byte) :
  ascii_bytes l -> utf8_decode [] 0 0 0 l = l.
Proof.
  induction 1 as [|b l Hb _ IH]; [reflexivity|].
  cbn [utf8_decode]. apply N.ltb_lt in Hb. rewrite Hb. now rewrite IH.
Qed.

Lemma Buffer_toString_ascii (b : list byte) (k : Z) :
  ascii_bytes (firstn (Z.to_nat k) b) ->
  Buffer_toString b k = string_of_list_byte (firstn (Z.to_nat k) b).
Proof. intros H. unfold Buffer_toString. now rewrite utf8_decode_ascii. Qed.

(** The fields of a preview, from the chunks the listener kept. *)
Lemma listContents_fields (rt : Runtime) (src : string) (o : ListOptions) (cb : bool)
    (w w' : World) (r : MCPResult) (data : list byte) :
  GzipHandler.listContents src o cb w = (Ret r, w') ->
  isError r = false ->
  lookup w src = Some (File data) ->
  snd (zlib_gunzip data) = None ->
  let N := or_num (previewLength o) 1000 in
  let payload := List.concat (fst (zlib_gunzip data)) in
  let M := blen payload in
  0 <= N ->
  exists totalLength,
    snd (fst (gunzip_scan N [] 0 (fst (zlib_gunzip data)))) = totalLength
    /\ field r "previewSize" = Some (VNum totalLength)
    /\ field r "preview" = Some (VStr (Buffer_toString payload (Z.min N M)))
    /\ field r "isTruncated" = Some (VBool (N <? totalLength))
    /\ (M <= N -> totalLength = M)
    /\ (N < M -> N <= totalLength <= M).
Proof.
  intros H Hok Hsrc Herr N payload M HN.
  destruct (listContents_success _ _ _ _ H Hok) as (data' & Hl). cbv zeta in Hl.
  fold N in Hl.
  pose proof (gunzip_scan_spec N (fst (zlib_gunzip data')) [] 0) as Hscan.
  destruct (gunzip_scan N [] 0 (fst (zlib_gunzip data')))
    as [[chunks totalLength] destroyed] eqn:Escan.
  destruct Hl as (Hsrc' & _ & _ & _ & _ & ->).
  assert (data' = data) by congruence. subst data'.
  destruct Hscan as (taken & rest & Hin & -> & -> & Hd & Hn).
  cbn [app] in *. rewrite Z.add_0_l in *.
  assert (Hpay : payload = (List.concat taken ++ List.concat rest)%list).
  { unfold payload. now rewrite Hin, concat_app. }
  assert (HM : M = blen (List.concat taken) + blen (List.concat rest)).
  { unfold M. now rewrite Hpay, blen_app. }
  pose proof (blen_nonneg (List.concat taken)) as Ht0.
  pose proof (blen_nonneg (List.concat rest)) as Hr0.
  exists (blen (List.concat taken)).
  assert (Hmin : Z.min N (blen (List.concat taken)) = Z.min N M).
  { destruct destroyed.
    - specialize (Hd eq_refl). lia.
    - destruct (Hn eq_refl) as [-> _]. change (blen (List.concat [])) with 0 in HM. lia. }
  split; [now rewrite Escan|]. split; [reflexivity|]. split; [|split; [reflexivity|split]].
  - unfold field. cbn. unfold Buffer_toString. rewrite Buffer_concat_exact.
    do 4 f_equal. rewrite Hmin, Hpay.
    apply firstn_firstn_app. unfold blen in *. lia.
  - intros HMN. destruct destroyed.
    + specialize (Hd eq_refl). lia.
    + destruct (Hn eq_refl) as [-> _]. change (blen (List.concat [])) with 0 in HM. lia.
  - intros HNM. destruct destroyed.
    + specialize (Hd eq_refl). lia.
    + destruct (Hn eq_refl) as [-> Hlt].
      change (blen (List.concat [])) with 0 in HM.
      destruct taken as [|t ts].
      * change (blen (List.concat [])) with 0 in *. lia.
      * rewrite app_nil_r in Hin. rewrite Hin in Hlt.
        pose proof (Hlt ltac:(discriminate)). lia.
Qed.

(** X16.  What [listContents] returns for a preview length [N >= 0] on a
    source that decodes to [payload] without an error: the preview is the
    UTF-8 decoding of the first [min N M] bytes, which is these bytes
    themselves when they are all below 80; for [M <= N] the result is not
    marked truncated; for [M > N] it is marked truncated unless the chunk
    that reached [N] ended exactly there. *)
Lemma listContents_preview (rt : Runtime) (src : string) (o : ListOptions) (cb : bool)
    (w w' : World) (r : MCPResult) (data : list byte) :
  GzipHandler.listContents src o cb w = (Ret r, w') ->
  isError r = false ->
  lookup w src = Some (File data) ->
  snd (zlib_gunzip data) = None ->
  let N := or_num (previewLength o) 1000 in
  let payload := List.concat (fst (zlib_gunzip data)) in
  let M := blen payload in
  0 <= N ->
  exists totalLength,
    field r "previewSize" = Some (VNum totalLength)
    /\ field r "preview" = Some (VStr (Buffer_toString payload (Z.min N M)))
    /\ (ascii_bytes (firstn (Z.to_nat (Z.min N M)) payload) ->
        field r "preview"
        = Some (VStr (string_of_list_byte (firstn (Z.to_nat (Z.min N M)) payload))))
    /\ (M <= N -> field r "isTruncated" = Some (VBool false))
    /\ (N < M -> N <= totalLength <= M
                 /\ field r "isTruncated" = Some (VBool (negb (totalLength =? N)))).
Proof.
  intros H Hok Hsrc Herr N payload M HN.
  destruct (@listContents_fields rt src o cb w w' r data H Hok Hsrc Herr HN)
    as (totalLength & _ & Hsize & Hprev & Htr & Hle & Hlt).
  fold N payload M in Hprev, Htr, Hle, Hlt.
  exists totalLength. split; [exact Hsize|]. split; [exact Hprev|]. split; [|split].
  - intros Ha. rewrite Hprev. now rewrite Buffer_toString_ascii.
  - intros HMN. rewrite Htr, (Hle HMN). do 2 f_equal. apply Z.ltb_ge. exact HMN.
  - intros HNM. split; [now apply Hlt|]. rewrite Htr. do 2 f_equal.
    pose proof (Hlt HNM).
    destruct (Z.eqb_spec totalLength N) as [->|Hne]; simpl.
    + apply Z.ltb_irrefl.
    + apply Z.ltb_lt. lia.
Qed.

Lemma chunks_fuel_nil (fuel k : nat) : chunks_fuel fuel k [] = [].
Proof. destruct fuel; reflexivity. Qed.

Lemma chunksOf_first (size : nat) (d : list byte) :
  (0 < size)%nat -> d <> [] ->
  exists rest,
    chunksOf size d = firstn size d :: rest
    /\ ((List.length d <= size)%nat -> rest = []).
Proof.
  intros Hs Hd. destruct d as [|b d]; [contradiction|].
  destruct size as [|k]; [lia|].
  unfold chunksOf. cbn [List.length Nat.pred chunks_fuel].
  eexists. split; [reflexivity|].
  intros Hlen. rewrite skipn_all2 by exact Hlen. apply chunks_fuel_nil.
Qed.

(** A decoder that hands over its output in chunks of [size] bytes, the
    last one shorter, as the codec of [Posix.runtime] does with 16384. *)
Lemma chunksOf_first_chunk_exceeds (n size : Z) (payload : list byte) :
  0 <= n < size -> first_chunk_exceeds n (chunksOf (Z.to_nat size) payload).
Proof.
  intros Hn. destruct payload as [|b d]; [exact I|].
  destruct (@chunksOf_first (Z.to_nat size) (b :: d) ltac:(lia) ltac:(discriminate))
    as (rest & -> & Hrest).
  unfold first_chunk_exceeds.
  destruct (Nat.le_gt_cases (List.length (b :: d)) (Z.to_nat size)) as [Hle|Hgt].
  - right. now apply Hrest.
  - left. unfold blen. rewrite length_firstn. lia.
Qed.


End PreviewProperties.

(* ------------------------------------------------------------------------- *)
(** ** The registry: registration, extensions, files *)
(* ------------------------------------------------------------------------- *)

Section RegistryMore.
Import FormatRegistry.

Lemma lower_ascii_idem (c : ascii) : lower_ascii (lower_ascii c) = lower_ascii c.
Proof.
  destruct c as [b0 b1 b2 b3 b4 b5 b6 b7].
  destruct b0, b1, b2, b3, b4, b5, b6, b7; reflexivity.
Qed.

Lemma toLowerCase_idem (s : string) : toLowerCase (toLowerCase s) = toLowerCase s.
Proof.
  induction s as [|c s IH]; simpl; [reflexivity|].
  now rewrite lower_ascii_idem, IH.
Qed.

Lemma Map_has_in (V : Type) (m : Map V) (k : string) :
  Map_has m k = true <-> In k (Map_keys m).
Proof.
  unfold Map_has, Map_keys. induction m as [|[k' v] m IH]; simpl.
  - split; [discriminate|contradiction].
  - destruct (String.eqb_spec k' k) as [->|Hne].
    + split; auto.
    + rewrite IH. split; [auto|]. intros [H|H]; [contradiction|exact H].
Qed.

Lemma Map_keys_set (V : Type) (m : Map V) (k : string) (v : V) :
  Map_keys (Map_set m k v)
  = if Map_has m k then Map_keys m else (Map_keys m ++ [k])%list.
Proof.
  unfold Map_has, Map_keys. induction m as [|[k' v'] m IH]; simpl; [reflexivity|].
  destruct (String.eqb_spec k' k) as [->|Hne]; simpl; [reflexivity|].
  rewrite IH. destruct (Map_get m k); reflexivity.
Qed.

Lemma Map_keys_set_NoDup (V : Type) (m : Map V) (k : string) (v : V) :
  NoDup (Map_keys m) -> NoDup (Map_keys (Map_set m k v)).
Proof.
  intros H. rewrite Map_keys_set. destruct (Map_has m k) eqn:E; [exact H|].
  apply NoDup_app; [exact H|repeat constructor; intros []|].
  intros x Hx [<-|[]]. apply Map_has_in in Hx. congruence.
Qed.

Lemma Map_get_in (V : Type) (m : Map V) (k : string) (v : V) :
  NoDup (Map_keys m) -> In (k, v) m -> Map_get m k = Some v.
Proof.
  unfold Map_keys. induction m as [|[k' v'] m IH]; simpl; intros Hnd Hin; [contradiction|].
  inversion Hnd as [|? ? Hnotin Hnd']; subst.
  destruct Hin as [[= -> ->]|Hin].
  - now rewrite String.eqb_refl.
  - destruct (String.eqb_spec k' k) as [->|Hne]; [|now apply IH].
    exfalso. apply Hnotin. change k with (fst (k, v)). now apply in_map.
Qed.

Lemma registered_keys (r : t) :
  registered r ->
  NoDup (getAllFormats r)
  /\ (forall k, In k (getAllFormats r) -> toLowerCase k = k).
Proof.
  induction 1 as [|r n h Hr [Hnd Hlow]]; unfold getAllFormats in *; simpl.
  - split; [constructor|intros k []].
  - split; [now apply Map_keys_set_NoDup|].
    intros k. rewrite Map_keys_set.
    destruct (Map_has (handlers r) (toLowerCase n)); [apply Hlow|].
    intros Hin. apply in_app_or in Hin as [Hin|[<-|[]]]; [now apply Hlow|].
    apply toLowerCase_idem.
Qed.
End RegistryMore.

(** X1.  Registering a handler under a name that differs from an earlier
    one in the case of its letters only replaces the earlier handler: both
    spellings then resolve to the new handler, and the list of formats and
    the handler count stay as they were. *)
Theorem register_last_wins :
  forall (r : FormatRegistry.t) (name variant : string) (h h' : CompressionHandler),
    case_variant name variant = true ->
    let r1 := FormatRegistry.register r name h in
    let r2 := FormatRegistry.register r1 variant h' in
    FormatRegistry.getHandlerByFormat r2 name = Some h'
    /\ FormatRegistry.getHandlerByFormat r2 variant = Some h'
    /\ FormatRegistry.getAllFormats r2 = FormatRegistry.getAllFormats r1
    /\ FormatRegistry.getHandlerCount r2 = FormatRegistry.getHandlerCount r1.
Proof.
  intros r name variant h h' Hcv r1 r2.
  apply case_variant_lower in Hcv.
  assert (Hk : FormatRegistry.getAllFormats r2 = FormatRegistry.getAllFormats r1).
  { unfold r2, FormatRegistry.getAllFormats, FormatRegistry.register at 1; simpl.
    rewrite Map_keys_set. rewrite <- Hcv.
    unfold Map_has. unfold r1, FormatRegistry.register; simpl.
    now rewrite Map_get_set_same. }
  unfold FormatRegistry.getHandlerByFormat. rewrite Hcv.
  repeat split.
  - unfold r2, FormatRegistry.register at 1; simpl. apply Map_get_set_same.
  - unfold r2, FormatRegistry.register at 1; simpl. apply Map_get_set_same.
  - exact Hk.
  - unfold FormatRegistry.getHandlerCount, Map_size.
    unfold FormatRegistry.getAllFormats, Map_keys in Hk.
    apply (f_equal (@List.length _)) in Hk. rewrite !length_map in Hk. now rewrite Hk.
Qed.

Lemma register_last_wins_witness :
  case_variant "zip" "ZIP" = true
  /\ FormatRegistry.getHandlerByFormat
       (FormatRegistry.register
          (FormatRegistry.register FormatRegistry.empty "zip"
             (@GzipHandler.handler Posix.runtime))
          "ZIP" (@rejecting_handler Posix.runtime)) "zip"
     = Some (@rejecting_handler Posix.runtime).
Proof.
  split; [reflexivity|].
  exact (proj1 (@register_last_wins FormatRegistry.empty "zip" "ZIP"
                  (@GzipHandler.handler Posix.runtime)
                  (@rejecting_handler Posix.runtime) eq_refl)).
Defined.

(** X2.  In a registry built by registrations, the formats listed are
    distinct, the handler count is their number, every listed format
    resolves to a handler, and a name resolves only if its lower-case form
    is listed. *)
Theorem registered_formats_resolve :
  forall (r : FormatRegistry.t),
    registered r ->
    NoDup (FormatRegistry.getAllFormats r)
    /\ FormatRegistry.getHandlerCount r
       = Z.of_nat (List.length (FormatRegistry.getAllFormats r))
    /\ (forall k, In k (FormatRegistry.getAllFormats r) ->
                  exists h, FormatRegistry.getHandlerByFormat r k = Some h)
    /\ (forall name h,
           FormatRegistry.getHandlerByFormat r name = Some h ->
           In (toLowerCase name) (FormatRegistry.getAllFormats r)).
Proof.
  intros r Hr. destruct (registered_keys Hr) as [Hnd Hlow].
  split; [exact Hnd|]. split; [|split].
  - unfold FormatRegistry.getHandlerCount, FormatRegistry.getAllFormats, Map_size, Map_keys.
    now rewrite length_map.
  - intros k Hin. unfold FormatRegistry.getHandlerByFormat. rewrite (Hlow _ Hin).
    apply Map_has_in in Hin. unfold Map_has in Hin.
    destruct (Map_get (FormatRegistry.handlers r) k) as [h|]; [eauto|discriminate].
  - intros name h Hget. apply Map_has_in. unfold Map_has.
    unfold FormatRegistry.getHandlerByFormat in Hget. now rewrite Hget.
Qed.

Lemma registered_formats_resolve_witness :
  NoDup (FormatRegistry.getAllFormats (@registry Posix.runtime))
  /\ FormatRegistry.getHandlerCount (@registry Posix.runtime) = 1.
Proof.
  destruct (@registered_formats_resolve (@registry Posix.runtime)
              (registered_register "gzip" (@GzipHandler.handler Posix.runtime)
                 registered_empty)) as (H1 & H2 & _).
  split; [exact H1|exact H2].
Defined.

(** X3.  [register] keeps the order of the formats: a name already
    registered keeps its place, a new one goes to the end; the handlers of
    the other names are not touched. *)
Theorem register_keeps_order :
  forall (r : FormatRegistry.t) (name : string) (h : CompressionHandler),
    (In (toLowerCase name) (FormatRegistry.getAllFormats r) ->
     FormatRegistry.getAllFormats (FormatRegistry.register r name h)
     = FormatRegistry.getAllFormats r)
    /\ (~ In (toLowerCase name) (FormatRegistry.getAllFormats r) ->
        FormatRegistry.getAllFormats (FormatRegistry.register r name h)
        = (FormatRegistry.getAllFormats r ++ [toLowerCase name])%list)
    /\ (forall other,
           toLowerCase other <> toLowerCase name ->
           FormatRegistry.getHandlerByFormat (FormatRegistry.register r name h) other
           = FormatRegistry.getHandlerByFormat r other).
Proof.
  intros r name h.
  unfold FormatRegistry.getAllFormats, FormatRegistry.register; simpl.
  rewrite Map_keys_set. split; [|split].
  - intros Hin. apply Map_has_in in Hin. now rewrite Hin.
  - intros Hnin. destruct (Map_has _ _) eqn:E; [|reflexivity].
    apply Map_has_in in E. contradiction.
  - intros other Hne. unfold FormatRegistry.getHandlerByFormat; simpl.
    apply Map_get_set_other. congruence.
Qed.

Section RegistryExt.
Import FormatRegistry.

Lemma fold_set_other (h : CompressionHandler) (k : string) (exts : list string) :
  forall m,
    (forall e, In e exts -> toLowerCase e <> k) ->
    Map_get (fold_left (fun m ext => Map_set m (toLowerCase ext) h) exts m) k
    = Map_get m k.
Proof.
  induction exts as [|e exts IH]; intros m Hne; simpl; [reflexivity|].
  rewrite IH by (intros; apply Hne; now right).
  apply Map_get_set_other. apply Hne. now left.
Qed.

Lemma fold_set_in (h : CompressionHandler) (k : string) (exts : list string) :
  forall m,
    (exists e, In e exts /\ toLowerCase e = k) ->
    Map_get (fold_left (fun m ext => Map_set m (toLowerCase ext) h) exts m) k
    = Some h.
Proof.
  induction exts as [|e exts IH]; intros m (e0 & Hin & He0); simpl; [destruct Hin|].
  destruct (in_dec string_dec k (map toLowerCase exts)) as [Hk|Hk].
  - apply in_map_iff in Hk as (e1 & He1 & Hin1). apply IH. eauto.
  - rewrite fold_set_other.
    + destruct Hin as [->|Hin].
      * rewrite He0. apply Map_get_set_same.
      * exfalso. apply Hk. apply in_map_iff. eauto.
    + intros e1 Hin1 Heq. apply Hk. apply in_map_iff. eauto.
Qed.

Lemma Map_get_values (V : Type) (m : Map V) (k : string) (v : V) :
  Map_get m k = Some v -> In v (Map_values m).
Proof.
  unfold Map_values. induction m as [|[k' v'] m IH]; simpl; [discriminate|].
  destruct (k' =? k)%string; [intros [= ->]; now left|]. intros H; right; auto.
Qed.

Lemma Map_values_get (V : Type) (m : Map V) (v : V) :
  NoDup (Map_keys m) -> In v (Map_values m) ->
  exists k, In k (Map_keys m) /\ Map_get m k = Some v.
Proof.
  intros Hnd Hin. unfold Map_values in Hin.
  apply in_map_iff in Hin as ([k v'] & Hv & Hin). simpl in Hv. subst v'.
  exists k. split.
  - unfold Map_keys. change k with (fst (k, v)). now apply in_map.
  - now apply Map_get_in.
Qed.
End RegistryExt.

(** X4.  After [register], every extension the handler supports resolves
    to it in any letter case and is listed in lower case, provided its
    lower-case form does not end in [.tar.gz] without being [.tar.gz]
    itself (such a text is answered by the [.tar.gz] entry, when there is
    one). *)
Theorem registered_extension_resolves :
  forall (r : FormatRegistry.t) (name ext variant : string) (h : CompressionHandler),
    In ext (getSupportedExtensions h) ->
    case_variant ext variant = true ->
    (endsWith (toLowerCase ext) ".tar.gz" = true -> toLowerCase ext = ".tar.gz") ->
    FormatRegistry.getHandlerByExtension (FormatRegistry.register r name h) variant
    = Some h
    /\ In (toLowerCase ext)
          (FormatRegistry.getAllExtensions (FormatRegistry.register r name h)).
Proof.
  intros r name ext variant h Hin Hcv Hcomp.
  apply case_variant_lower in Hcv.
  assert (Hget : Map_get (FormatRegistry.extensionMap (FormatRegistry.register r name h))
                   (toLowerCase ext) = Some h).
  { unfold FormatRegistry.register; simpl. apply fold_set_in. eauto. }
  split.
  - unfold FormatRegistry.getHandlerByExtension. cbv zeta. rewrite <- Hcv.
    destruct (endsWith (toLowerCase ext) ".tar.gz") eqn:E; cbn [andb].
    + rewrite <- (Hcomp eq_refl). unfold Map_has. now rewrite Hget.
    + exact Hget.
  - apply Map_has_in. unfold Map_has. now rewrite Hget.
Qed.

Lemma registered_extension_resolves_witness :
  FormatRegistry.getHandlerByExtension (@registry Posix.runtime) ".GZ"
  = Some (@GzipHandler.handler Posix.runtime).
Proof.
  refine (proj1 (@registered_extension_resolves FormatRegistry.empty "gzip" ".gz" ".GZ"
                   (@GzipHandler.handler Posix.runtime) _ _ _)).
  - simpl. left. reflexivity.
  - reflexivity.
  - vm_compute. discriminate.
Defined.

(** X5.  In a registry built by registrations, the handler
    [getHandlerForFile] returns accepts the file and is registered under a
    listed format; when it returns nothing, no registered handler accepts
    the file. *)
Theorem getHandlerForFile_sound :
  forall (r : FormatRegistry.t) (filePath : string),
    registered r ->
    (forall h, FormatRegistry.getHandlerForFile r filePath = Some h ->
               isFormatValid h filePath = true
               /\ exists k, In k (FormatRegistry.getAllFormats r)
                            /\ FormatRegistry.getHandlerByFormat r k = Some h)
    /\ (FormatRegistry.getHandlerForFile r filePath = None ->
        forall name h, FormatRegistry.getHandlerByFormat r name = Some h ->
                       isFormatValid h filePath = false).
Proof.
  intros r filePath Hr. destruct (registered_keys Hr) as [Hnd Hlow].
  unfold FormatRegistry.getHandlerForFile. split.
  - intros h Hf. apply find_some in Hf as [Hin Hv]. split; [exact Hv|].
    destruct (@Map_values_get _ _ h Hnd Hin) as (k & Hk & Hget).
    exists k. split; [exact Hk|].
    unfold FormatRegistry.getHandlerByFormat. now rewrite (Hlow _ Hk).
  - intros Hf name h Hget.
    apply (find_none _ _ Hf). eapply Map_get_values. exact Hget.
Qed.

Lemma getHandlerForFile_sound_witness :
  isFormatValid (@GzipHandler.handler Posix.runtime) "a.GZ" = true.
Proof.
  exact (proj1 (proj1 (@getHandlerForFile_sound (@registry Posix.runtime) "a.GZ"
                   (registered_register "gzip" (@GzipHandler.handler Posix.runtime)
                      registered_empty)) (@GzipHandler.handler Posix.runtime) eq_refl)).
Defined.

(* ------------------------------------------------------------------------- *)
(** ** The utilities: names, probes, directories *)
(* ------------------------------------------------------------------------- *)

Section StringFacts.

Lemma length_append (a b : string) :
  String.length (a ++ b) = (String.length a + String.length b)%nat.
Proof. induction a as [|c a IH]; simpl; [reflexivity|now rewrite IH]. Qed.

Lemma substring_all (s : string) : substring 0 (String.length s) s = s.
Proof. induction s as [|c s IH]; simpl; [reflexivity|now rewrite IH]. Qed.

Lemma substring_append_left (a b : string) :
  substring 0 (String.length a) (a ++ b) = a.
Proof.
  induction a as [|c a IH]; simpl.
  - destruct b; reflexivity.
  - now rewrite IH.
Qed.

Lemma substring_append_right (a b : string) (n : nat) :
  substring (String.length a) n (a ++ b) = substring 0 n b.
Proof. induction a as [|c a IH]; simpl; [reflexivity|exact IH]. Qed.

Lemma endsWith_append (a b : string) : endsWith (a ++ b) b = true.
Proof.
  unfold endsWith. rewrite length_append.
  replace (String.length a + String.length b - String.length b)%nat
    with (String.length a) by lia.
  rewrite substring_append_right, substring_all, String.eqb_refl.
  rewrite andb_true_r. apply Nat.leb_le. lia.
Qed.

Lemma slice_drop_last_append (a b : string) :
  slice_drop_last (String.length b) (a ++ b) = a.
Proof.
  unfold slice_drop_last. rewrite length_append.
  replace (String.length a + String.length b - String.length b)%nat
    with (String.length a) by lia.
  apply substring_append_left.
Qed.

Lemma prefix_substring (n : nat) (s : string) : prefix (substring 0 n s) s = true.
Proof.
  revert n; induction s as [|c s IH]; intros [|n]; simpl; try reflexivity.
  destruct (ascii_dec c c) as [_|Hne]; [apply IH|now elim Hne].
Qed.

Lemma prefix_refl (s : string) : prefix s s = true.
Proof.
  induction s as [|c s IH]; simpl; [reflexivity|].
  destruct (ascii_dec c c) as [_|Hne]; [apply IH|now elim Hne].
Qed.

Lemma toLowerCase_append (a b : string) :
  toLowerCase (a ++ b) = toLowerCase a ++ toLowerCase b.
Proof. induction a as [|c a IH]; simpl; [reflexivity|now rewrite IH]. Qed.
End StringFacts.

Section UtilsExt.
Context {rt : Runtime}.
Import CompressionUtils.

(** X10.  [removeExtension] with an explicit non-empty extension undoes
    appending it, and whatever its arguments its result is a prefix of the
    path it was given. *)
Theorem removeExtension_undoes_append :
  forall (name ext : string),
    ext <> EmptyString ->
    removeExtension (name ++ ext) (Some ext) = name
    /\ forall (filePath : string) (extension : option string),
         prefix (removeExtension filePath extension) filePath = true.
Proof.
  intros name ext Hne. split.
  - assert (E : (ext =? EmptyString)%string = false) by now apply String.eqb_neq.
    unfold removeExtension, or_str. rewrite E. cbv beta iota zeta.
    rewrite E. cbn [negb andb].
    rewrite endsWith_append. apply slice_drop_last_append.
  - intros filePath extension. unfold removeExtension.
    destruct (_ && _); [apply prefix_substring|apply prefix_refl].
Qed.

(** X6.  The gzip handler accepts every path that ends in [.gz] written
    in any letter case. *)
Theorem isFormatValid_any_case :
  forall (name ext : string),
    case_variant ".gz" ext = true ->
    GzipHandler.isFormatValid (name ++ ext) = true.
Proof.
  intros name ext Hcv. apply case_variant_lower in Hcv.
  unfold GzipHandler.isFormatValid. rewrite toLowerCase_append, <- Hcv.
  apply endsWith_append.
Qed.

Lemma walk_some_node (t : tree) (names : list string) (cur q : location) (n : node) :
  walk t cur names = Some q -> t q = Some n -> t cur <> None.
Proof.
  destruct names as [|s rest]; simpl.
  - intros [= ->]. congruence.
  - destruct (t cur) as [[|]|]; discriminate.
Qed.

Lemma mkdirp_file_in_the_way (names : list string) :
  forall t cur q d,
    walk t cur names = Some q -> t q = Some (File d) -> mkdirp t cur names = None.
Proof.
  induction names as [|s rest IH]; intros t cur q d; simpl.
  - intros [= ->] Hq. now rewrite Hq.
  - destruct (t cur) as [[|]|] eqn:Ec; try discriminate.
    destruct ((s =? EmptyString) || (s =? "."))%string; [apply IH|].
    destruct (s =? "..")%string; [apply IH|].
    intros Hw Hq.
    destruct (t (cur ++ [s])%list) eqn:E.
    + eapply IH; eassumption.
    + exfalso. eapply walk_some_node; eassumption.
Qed.

Lemma mkdirp_creates (names : list string) :
  forall t cur t',
    mkdirp t cur names = Some t' ->
    exists q, walk t' cur names = Some q /\ t' q = Some Dir.
Proof.
  induction names as [|s rest IH]; intros t cur t' H.
  - simpl in H. destruct (t cur) as [[|]|] eqn:Ec; try discriminate.
    injection H as <-. exists cur. split; [reflexivity|exact Ec].
  - pose proof (mkdirp_extends _ _ _ H) as Hext.
    simpl in H. destruct (t cur) as [[|]|] eqn:Ec; try discriminate.
    cbn [walk]. rewrite (Hext _ _ Ec).
    destruct ((s =? EmptyString) || (s =? "."))%string; [eapply IH; eassumption|].
    destruct (s =? "..")%string; [eapply IH; eassumption|].
    destruct (t (cur ++ [s])%list); eapply IH; eassumption.
Qed.

Lemma mkdirp_only_dirs (names : list string) :
  forall t cur t',
    mkdirp t cur names = Some t' ->
    forall q n, t' q = Some n -> t q = Some n \/ (t q = None /\ n = Dir).
Proof.
  induction names as [|s rest IH]; intros t cur t' H q n Hq; simpl in H.
  - destruct (t cur) as [[|]|]; try discriminate. injection H as <-. now left.
  - destruct (t cur) as [[|]|]; try discriminate.
    destruct ((s =? EmptyString) || (s =? "."))%string; [eapply IH; eassumption|].
    destruct (s =? "..")%string; [eapply IH; eassumption|].
    destruct (t (cur ++ [s])%list) eqn:E; [eapply IH; eassumption|].
    destruct (IH _ _ _ H q n Hq) as [Hp|[Hp ->]].
    + unfold put in Hp. destruct (loc_eqb q (cur ++ [s])%list) eqn:Eq.
      * apply loc_eqb_eq in Eq. subst q. injection Hp as <-. right. now split.
      * now left.
    + unfold put in Hp. destruct (loc_eqb q (cur ++ [s])%list); [discriminate|].
      right. now split.
Qed.

Lemma ensureDir_cases (p : string) (w : World) :
  ensureDir p w = if dir_at w p then (Ret tt, w) else fsMkdir p w.
Proof.
  unfold ensureDir, try_catch, bind, fsAccess, dir_at.
  destruct (lookup w p) as [n|] eqn:El; [|reflexivity].
  rewrite isDirectory_spec. unfold dir_at. rewrite El.
  destruct n; reflexivity.
Qed.

Lemma ensureDir_post (p : string) (w w' : World) :
  ensureDir p w = (Ret tt, w') ->
  dir_at w' p = true
  /\ cwd w' = cwd w /\ events w' = events w
  /\ (forall q n, nodes w q = Some n -> nodes w' q = Some n)
  /\ (forall q n, nodes w' q = Some n ->
                  nodes w q = Some n \/ (nodes w q = None /\ n = Dir)).
Proof.
  rewrite ensureDir_cases. destruct (dir_at w p) eqn:Ed.
  - intros [= <-]. repeat split; auto.
  - unfold fsMkdir. destruct (String.eqb_spec p EmptyString) as [->|Hne]; [discriminate|].
    destruct (mkdirp _ _ _) as [t|] eqn:Em; [|discriminate].
    intros [= <-]. cbn [cwd nodes events].
    split; [|split; [reflexivity|split; [reflexivity|split]]].
    + destruct (mkdirp_creates _ _ _ Em) as (q & Hw & Hq).
      unfold dir_at, lookup, locate. cbn [cwd nodes].
      destruct (String.eqb_spec p EmptyString) as [->|_]; [now elim Hne|].
      now rewrite Hw, Hq.
    + eapply mkdirp_extends; eassumption.
    + eapply mkdirp_only_dirs; eassumption.
Qed.

(** X8.  When [ensureDir] returns, the path is a directory; every node
    that was there is kept, every node added is a directory, the working
    directory and the events are unchanged, and calling it again changes
    nothing. *)
Theorem ensureDir_makes_directory :
  forall (dirPath : string) (w w' : World),
    ensureDir dirPath w = (Ret tt, w') ->
    dir_at w' dirPath = true
    /\ cwd w' = cwd w /\ events w' = events w
    /\ (forall q n, nodes w q = Some n -> nodes w' q = Some n)
    /\ (forall q n, nodes w' q = Some n ->
                    nodes w q = Some n \/ (nodes w q = None /\ n = Dir))
    /\ ensureDir dirPath w' = (Ret tt, w').
Proof.
  intros dirPath w w' H. destruct (ensureDir_post _ _ H) as (Hd & Hc & He & Hk & Ha).
  repeat split; try assumption.
  rewrite ensureDir_cases, Hd. reflexivity.
Qed.

Lemma file_not_dir (w : World) (p : string) :
  file_at w p = true -> dir_at w p = false.
Proof.
  unfold file_at, dir_at. destruct (lookup w p) as [[d|]|]; try discriminate; reflexivity.
Qed.

Lemma fsMkdir_on_a_file (p : string) (w : World) :
  file_at w p = true -> fsMkdir p w = (Throw (EEXIST "mkdir" p), w).
Proof.
  intros Hf. unfold file_at in Hf.
  destruct (lookup w p) as [[d|]|] eqn:El; try discriminate.
  unfold fsMkdir. unfold lookup, locate in El.
  destruct (p =? EmptyString)%string; [discriminate|].
  destruct (walk _ _ _) as [q|] eqn:Ew; [|discriminate].
  now rewrite (mkdirp_file_in_the_way _ _ _ Ew El).
Qed.

(** X9.  On a path that is a regular file [ensureDir] throws the [EEXIST]
    error of [mkdir] and leaves the state as it was: its own error
    [Path exists but is not a directory] is caught by its own [catch] and
    never reaches the caller. *)
Theorem ensureDir_on_a_file :
  forall (dirPath : string) (w : World),
    file_at w dirPath = true ->
    ensureDir dirPath w = (Throw (EEXIST "mkdir" dirPath), w).
Proof.
  intros dirPath w Hf.
  rewrite ensureDir_cases, (file_not_dir _ _ Hf).
  now apply fsMkdir_on_a_file.
Qed.

(** X7.  [fileExists], [isFile] and [isDirectory] never throw and leave
    the state as it was; a path that is a file or a directory exists, no
    path is both; on a path that does not exist [getFileSize] throws an
    error whose message starts with [Failed to get file size: ]. *)
Theorem probes_never_throw :
  forall (p : string) (w : World),
    exists e f d,
      fileExists p w = (Ret e, w)
      /\ isFile p w = (Ret f, w)
      /\ isDirectory p w = (Ret d, w)
      /\ (f = true -> e = true) /\ (d = true -> e = true)
      /\ (f = true -> d = false)
      /\ (e = false ->
          exists err, getFileSize p w = (Throw err, w)
                      /\ prefix "Failed to get file size: " (message err) = true).
Proof.
  intros p w. exists (exists_at w p), (file_at w p), (dir_at w p).
  rewrite fileExists_spec, isFile_spec, isDirectory_spec, getFileSize_spec.
  unfold exists_at, file_at, dir_at.
  destruct (lookup w p) as [[d|]|]; repeat split; try congruence.
  intros _. eexists. split; [reflexivity|]. reflexivity.
Qed.
End UtilsExt.

Lemma removeExtension_undoes_append_witness :
  @CompressionUtils.removeExtension Posix.runtime "report.txt.gz" (Some ".gz") = "report.txt".
Proof.
  refine (proj1 (@removeExtension_undoes_append Posix.runtime "report.txt" ".gz" _)).
  discriminate.
Defined.

Lemma isFormatValid_any_case_witness :
  GzipHandler.isFormatValid "DATA.Gz" = true.
Proof. exact (@isFormatValid_any_case "DATA" ".Gz" eq_refl). Defined.

Lemma ensureDir_on_a_file_witness :
  exists e, @CompressionUtils.ensureDir Posix.runtime "/home/user/notes.txt" home_world
            = (Throw e, home_world)
            /\ prefix "EEXIST" (message e) = true.
Proof.
  eexists. split.
  - refine (@ensureDir_on_a_file Posix.runtime "/home/user/notes.txt" home_world _).
    vm_compute. reflexivity.
  - reflexivity.
Defined.

(* ------------------------------------------------------------------------- *)
(** ** What the operations leave untouched *)
(* ------------------------------------------------------------------------- *)

Section Preservation.
Variable P : World -> World -> Prop.
Hypothesis P_refl : forall w, P w w.
Hypothesis P_trans : forall w1 w2 w3, P w1 w2 -> P w2 w3 -> P w1 w3.

Lemma preserves_ret (A : Type) (a : A) : preserves P (ret a).
Proof. intros w o w' [= <- <-]. apply P_refl. Qed.

Lemma preserves_throw (A : Type) (e : Error) : preserves P (@throw A e).
Proof. intros w o w' [= <- <-]. apply P_refl. Qed.

Lemma preserves_bind (A B : Type) (c : M A) (k : A -> M B) :
  preserves P c -> (forall a, preserves P (k a)) -> preserves P (bind c k).
Proof.
  intros Hc Hk w o w'. unfold bind.
  destruct (c w) as [[a|e] w1] eqn:E.
  - intros H. eapply P_trans; [eapply Hc; eassumption|eapply Hk; eassumption].
  - intros [= <- <-]. eapply Hc; eassumption.
Qed.

Lemma preserves_try_catch (A : Type) (c : M A) (k : Error -> M A) :
  preserves P c -> (forall e, preserves P (k e)) -> preserves P (try_catch c k).
Proof.
  intros Hc Hk w o w'. unfold try_catch.
  destruct (c w) as [[a|e] w1] eqn:E.
  - intros [= <- <-]. eapply Hc; eassumption.
  - intros H. eapply P_trans; [eapply Hc; eassumption|eapply Hk; eassumption].
Qed.

Lemma preserves_pure (A : Type) (c : M A) :
  (forall w, snd (c w) = w) -> preserves P c.
Proof. intros H w o w' E. specialize (H w). rewrite E in H. simpl in H. subst. apply P_refl. Qed.
End Preservation.

Section Quiet.
Context {rt : Runtime}.
Import CompressionUtils.

Lemma same_tree_refl (w : World) : same_tree w w.
Proof. split; reflexivity. Qed.

Lemma same_tree_trans (w1 w2 w3 : World) :
  same_tree w1 w2 -> same_tree w2 w3 -> same_tree w1 w3.
Proof. intros [a b] [c d]. split; congruence. Qed.

Lemma same_events_refl (w : World) : same_events w w.
Proof. reflexivity. Qed.

Lemma same_events_trans (w1 w2 w3 : World) :
  same_events w1 w2 -> same_events w2 w3 -> same_events w1 w3.
Proof. unfold same_events. congruence. Qed.

Variable P : World -> World -> Prop.
Hypothesis P_refl : forall w, P w w.
Hypothesis P_trans : forall w1 w2 w3, P w1 w2 -> P w2 w3 -> P w1 w3.

Lemma preserves_fileExists (p : string) : preserves P (fileExists p).
Proof. apply preserves_pure; [assumption|]. intros w. now rewrite fileExists_spec. Qed.

Lemma preserves_isFile (p : string) : preserves P (isFile p).
Proof. apply preserves_pure; [assumption|]. intros w. now rewrite isFile_spec. Qed.

Lemma preserves_isDirectory (p : string) : preserves P (isDirectory p).
Proof. apply preserves_pure; [assumption|]. intros w. now rewrite isDirectory_spec. Qed.

Lemma preserves_getFileSize (p : string) : preserves P (getFileSize p).
Proof.
  apply preserves_pure; [assumption|]. intros w. rewrite getFileSize_spec.
  destruct (lookup w p); reflexivity.
Qed.

Lemma preserves_readStream (p : string) : preserves P (readStream p).
Proof.
  apply preserves_pure; [assumption|]. intros w. unfold readStream.
  destruct (lookup w p) as [[|]|]; reflexivity.
Qed.

Lemma preserves_createGzip (level : Z) : preserves P (GzipHandler.createGzip level).
Proof.
  apply preserves_pure; [assumption|]. intros w. unfold GzipHandler.createGzip.
  destruct (_ || _); reflexivity.
Qed.
End Quiet.

Section QuietOps.
Context {rt : Runtime}.
Import CompressionUtils.

Lemma report_same_tree (cb : bool) (e : ProgressInfo) : preserves same_tree (report cb e).
Proof.
  intros w o w' H. destruct (report_effect cb e w) as (w1 & H1 & (Hc & Hn & _)).
  rewrite H1 in H. injection H as <- <-. now split.
Qed.

Lemma report_same_events (e : ProgressInfo) : preserves same_events (report false e).
Proof. intros w o w' [= <- <-]. reflexivity. Qed.

Lemma ensureDir_same_events (p : string) : preserves same_events (ensureDir p).
Proof. intros w o w' H. now destruct (ensureDir_effect _ _ H) as ((_ & He) & _). Qed.

Lemma openWrite_same_events (p : string) : preserves same_events (openWrite p).
Proof. intros w o w' H. now destruct (openWrite_effect _ _ H) as (_ & He). Qed.

Lemma writeChunk_same_events (q : location) (c : list byte) :
  preserves same_events (writeChunk q c).
Proof. intros w o w' [= <- <-]. reflexivity. Qed.

Lemma writeAll_same_events (q : location) (cs : list (list byte)) :
  preserves same_events (GzipHandler.writeAll q cs).
Proof.
  intros w o w' H. destruct (writeAll_effect q cs w) as (w1 & H1 & (_ & He)).
  rewrite H1 in H. now injection H as <- <-.
Qed.

Lemma onSourceData_same_events (sz : Z) (stg : string) (acc : Z) (cs : list (list byte)) :
  preserves same_events (GzipHandler.onSourceData false sz stg acc cs).
Proof.
  intros w o w' H.
  destruct (onSourceData_effect false sz stg cs acc w) as (t & w1 & H1 & (_ & _ & He)).
  rewrite H1 in H. injection H as <- <-. unfold same_events. now rewrite He, app_nil_r.
Qed.

Lemma onGunzipData_same_events (sz n : Z) (kept : list (list byte)) (total : Z)
    (cs : list (list byte)) :
  preserves same_events (GzipHandler.onGunzipData false sz n kept total cs).
Proof.
  intros w o w' H.
  destruct (onGunzipData_effect false sz n cs kept total w) as (w1 & H1 & (_ & _ & He)).
  rewrite H1 in H. injection H as <- <-. unfold same_events. now rewrite He, app_nil_r.
Qed.

Lemma onGunzipData_same_tree (cb : bool) (sz n : Z) (kept : list (list byte)) (total : Z)
    (cs : list (list byte)) :
  preserves same_tree (GzipHandler.onGunzipData cb sz n kept total cs).
Proof.
  intros w o w' H.
  destruct (onGunzipData_effect cb sz n cs kept total w) as (w1 & H1 & (Hc & Hn & _)).
  rewrite H1 in H. injection H as <- <-. now split.
Qed.

Ltac keep refl trans prim :=
  repeat first
    [ apply preserves_ret; exact refl
    | apply preserves_throw; exact refl
    | apply preserves_fileExists; exact refl
    | apply preserves_isFile; exact refl
    | apply preserves_isDirectory; exact refl
    | apply preserves_getFileSize; exact refl
    | apply preserves_readStream; exact refl
    | apply preserves_createGzip; exact refl
    | prim
    | apply preserves_bind; [exact trans| |intros ?]
    | apply preserves_try_catch; [exact trans| |intros ?]
    | match goal with
      | |- preserves _ (match ?x with _ => _ end) => destruct x
      end ].

Ltac keep_tree :=
  keep same_tree_refl same_tree_trans
    ltac:(first [apply report_same_tree | apply onGunzipData_same_tree]).

Ltac keep_events :=
  keep same_events_refl same_events_trans
    ltac:(first [ apply report_same_events | apply ensureDir_same_events
                | apply openWrite_same_events | apply writeChunk_same_events
                | apply writeAll_same_events | apply onSourceData_same_events
                | apply onGunzipData_same_events ]).

Lemma listContents_same_tree (src : string) (o : ListOptions) (cb : bool) :
  preserves same_tree (GzipHandler.listContents src o cb).
Proof.
  unfold GzipHandler.listContents, GzipHandler.listContents_body. keep_tree.
Qed.

Lemma run_op_same_events (op : gzip_op) (src : string) :
  preserves same_events (run_op op src false).
Proof.
  destruct op as [tgt o|dir o|o]; cbn [run_op];
    unfold GzipHandler.compress, GzipHandler.compress_body,
      GzipHandler.decompress, GzipHandler.decompress_body,
      GzipHandler.listContents, GzipHandler.listContents_body; keep_events.
Qed.

End QuietOps.

Section DispatcherRuns.
Context {rt : Runtime}.
Import CompressionUtils UnifiedCompression.
Variable reg : FormatRegistry.t.

Lemma execute_compress_run (params : Params) (w : World) (h : CompressionHandler) :
  FormatRegistry.getHandlerByFormat reg (format params) = Some h ->
  operation params = OpCompress ->
  exists_at w (sourcePath params) = true ->
  exists_at w (compress_target h params) = false ->
  execute reg params w
  = compress h (sourcePath params) (compress_target h params)
      (Build_CompressionOptions (Some (or_num (p_compressionLevel params) 6)))
      false w.
Proof.
  intros H Hop Hs Ht.
  unfold execute, bind, try_catch, execute_body. rewrite H.
  unfold bind. rewrite fileExists_spec, Hs, Hop. cbn [negb].
  rewrite isDirectory_spec, isFile_spec.
  fold (compress_target h params).
  destruct (file_or_dir _ _ Hs) as [Hd|Hf].
  - rewrite Hd. cbn [negb andb]. rewrite fileExists_spec, Ht. reflexivity.
  - rewrite Hf, andb_false_r. rewrite fileExists_spec, Ht. reflexivity.
Qed.

Lemma execute_not_a_file (params : Params) (w : World) (h : CompressionHandler) :
  FormatRegistry.getHandlerByFormat reg (format params) = Some h ->
  operation params <> OpCompress ->
  exists_at w (sourcePath params) = true ->
  file_at w (sourcePath params) = false ->
  execute reg params w
  = (Ret (createErrorResult ("Source path must be a file: " ++ sourcePath params) None), w).
Proof.
  intros H Hop Hs Hf.
  unfold execute, bind, try_catch, execute_body. rewrite H.
  unfold bind. rewrite fileExists_spec, Hs. cbn [negb].
  destruct (operation params); [now elim Hop| |]; rewrite isFile_spec, Hf; reflexivity.
Qed.

Lemma execute_wrong_extension (params : Params) (w : World) (h : CompressionHandler) :
  FormatRegistry.getHandlerByFormat reg (format params) = Some h ->
  operation params <> OpCompress ->
  file_at w (sourcePath params) = true ->
  isFormatValid h (sourcePath params) = false ->
  execute reg params w
  = (Ret (createErrorResult
            ("File is not a valid " ++ format params ++ " file: " ++ sourcePath params)
            (Some ("Expected file extensions: "
                   ++ join ", " (getSupportedExtensions h)))), w).
Proof.
  intros H Hop Hf Hv.
  unfold execute, bind, try_catch, execute_body. rewrite H.
  unfold bind. rewrite fileExists_spec, (exists_of_file _ _ Hf). cbn [negb].
  destruct (operation params); [now elim Hop| |]; rewrite isFile_spec, Hf, Hv; reflexivity.
Qed.

Lemma execute_list_run (params : Params) (w : World) (h : CompressionHandler) :
  FormatRegistry.getHandlerByFormat reg (format params) = Some h ->
  operation params = OpList ->
  file_at w (sourcePath params) = true ->
  isFormatValid h (sourcePath params) = true ->
  execute reg params w
  = listContents h (sourcePath params)
      (Build_ListOptions (Some (or_num (p_previewLength params) 1000))) false w.
Proof.
  intros H Hop Hf Hv.
  unfold execute, bind, try_catch, execute_body. rewrite H.
  unfold bind. rewrite fileExists_spec, (exists_of_file _ _ Hf), Hop. cbn [negb].
  rewrite isFile_spec, Hf, Hv. reflexivity.
Qed.

Lemma execute_decompress_run (params : Params) (w : World) (h : CompressionHandler) :
  FormatRegistry.getHandlerByFormat reg (format params) = Some h ->
  operation params = OpDecompress ->
  file_at w (sourcePath params) = true ->
  isFormatValid h (sourcePath params) = true ->
  execute reg params w
  = match ensureDir (decompress_dir params) w with
    | (Ret _, w1) =>
        decompress h (sourcePath params) (decompress_dir params)
          (Build_DecompressionOptions (Some (or_num (p_stripComponents params) 0)))
          false w1
    | (Throw e, w1) =>
        (Ret (createErrorResult
                ("Error during decompress operation: " ++ message e) (stack e)), w1)
    end.
Proof.
  intros H Hop Hf Hv.
  unfold execute, bind, try_catch, execute_body. rewrite H.
  unfold bind. rewrite fileExists_spec, (exists_of_file _ _ Hf), Hop. cbn [negb].
  rewrite isFile_spec, Hf, Hv. cbn [negb].
  fold (decompress_dir params).
  destruct (ensureDir (decompress_dir params) w) as [[[]|e] w1]; reflexivity.
Qed.
End DispatcherRuns.

Section DispatcherExt.
Context {rt : Runtime}.
Import CompressionUtils UnifiedCompression.

(** every request on the server's registry: no events *)
Lemma execute_same_events (params : Params) :
  preserves same_events (execute registry params).
Proof.
  intros w o w' H.
  destruct (FormatRegistry.getHandlerByFormat registry (format params)) as [h|] eqn:Eh.
  2:{ rewrite (execute_unknown_format _ _ _ Eh) in H. now injection H as <- <-. }
  pose proof (registry_handlers _ Eh) as ->.
  destruct (lookup w (sourcePath params)) as [n|] eqn:El.
  2:{ rewrite (execute_missing_source _ _ _ Eh El) in H. now injection H as <- <-. }
  assert (Hs : exists_at w (sourcePath params) = true) by (unfold exists_at; now rewrite El).
  destruct (operation params) eqn:Hop.
  - destruct (exists_at w (compress_target GzipHandler.handler params)) eqn:Ht.
    + rewrite (execute_existing_target _ _ _ Eh Hop Hs Ht) in H. now injection H as <- <-.
    + rewrite (execute_compress_run _ _ _ Eh Hop Hs Ht) in H.
      exact (@run_op_same_events _ (Compress _ _) _ _ _ _ H).
  - destruct (file_at w (sourcePath params)) eqn:Hf.
    2:{ rewrite (execute_not_a_file _ _ _ Eh) in H by congruence.
        now injection H as <- <-. }
    destruct (isFormatValid GzipHandler.handler (sourcePath params)) eqn:Hv.
    2:{ rewrite (execute_wrong_extension _ _ _ Eh) in H by congruence.
        now injection H as <- <-. }
    rewrite (execute_decompress_run _ _ _ Eh Hop Hf Hv) in H.
    destruct (ensureDir (decompress_dir params) w) as [[[]|e] w1] eqn:Ed.
    + eapply same_events_trans; [eapply ensureDir_same_events; eassumption|].
      exact (@run_op_same_events _ (Decompress _ _) _ _ _ _ H).
    + injection H as <- <-. eapply ensureDir_same_events; eassumption.
  - destruct (file_at w (sourcePath params)) eqn:Hf.
    2:{ rewrite (execute_not_a_file _ _ _ Eh) in H by congruence.
        now injection H as <- <-. }
    destruct (isFormatValid GzipHandler.handler (sourcePath params)) eqn:Hv.
    2:{ rewrite (execute_wrong_extension _ _ _ Eh) in H by congruence.
        now injection H as <- <-. }
    rewrite (execute_list_run _ _ _ Eh Hop Hf Hv) in H.
    exact (@run_op_same_events _ (ListContents _) _ _ _ _ H).
Qed.
End DispatcherExt.

(* ------------------------------------------------------------------------- *)
(** ** What the pipelines write *)
(* ------------------------------------------------------------------------- *)



Section Pipelines.
Context {rt : Runtime}.
Import CompressionUtils.

(** The file system side of the two pipelines: the directory is made, the
    target is opened, and what the transform gives ends up in it. *)
Lemma pipeline_wrote (dir tgt : string) (w w1 w2 w3 w5 : World) (q : location)
    (content : list byte) :
  ensureDir dir w = (Ret tt, w1) ->
  cwd w2 = cwd w1 -> nodes w2 = nodes w1 ->
  openWrite tgt w2 = (Ret q, w3) ->
  cwd w5 = cwd w3 ->
  nodes w5 q = Some (File content) ->
  (forall q', q' <> q -> nodes w5 q' = nodes w3 q') ->
  locate w5 tgt = Some q /\ wrote w w5 q content.
Proof.
  intros He Hc2 Hn2 Ho Hc5 Hq5 Ho5.
  destruct (ensureDir_post _ _ He) as (_ & Hc1 & _ & Hk1 & Ha1).
  destruct (openWrite_post _ _ Ho) as (Hl & Hnd & Hc3 & Hn3).
  assert (Hother : forall q', q' <> q -> nodes w5 q' = nodes w1 q').
  { intros q' Hne. rewrite (Ho5 _ Hne), Hn3, put_other by exact Hne. now rewrite Hn2. }
  assert (Hw : wrote w w5 q content).
  { split; [congruence|]. split; [|split; [exact Hq5|split]].
    - intros Hd. apply Hnd. rewrite Hn2. now apply Hk1.
    - intros q' n Hne Hq'. rewrite (Hother _ Hne). now apply Hk1.
    - intros q' n Hne Hq'. rewrite (Hother _ Hne) in Hq'. now apply Ha1. }
  split; [|exact Hw].
  unfold locate in *. rewrite Hc5, Hc3.
  destruct (tgt =? EmptyString)%string; [discriminate|].
  revert Hl. apply walk_agree. intros c Hcd.
  assert (c <> q) by congruence.
  rewrite (Hother _ H). now rewrite <- Hn2.
Qed.

Lemma read_after_open_spec (w w3 : World) (src : string) (q : location)
    (data read : list byte) :
  wrote w w3 q [] ->
  lookup w src = Some (File data) ->
  lookup w3 src = Some (File read) ->
  read_after_open w src q data read.
Proof.
  intros Hw Hsrc Hread. unfold lookup in Hsrc, Hread.
  destruct (locate w src) as [l|] eqn:El; [|discriminate].
  rewrite (wrote_locate _ Hw El) in Hread.
  destruct Hw as (_ & _ & Hq & Hk & _).
  unfold read_after_open. rewrite El. split.
  - intros Hne. assert (l <> q) by congruence.
    rewrite (Hk _ _ H Hsrc) in Hread. congruence.
  - intros [= ->]. congruence.
Qed.

(** What the two pipelines have in common, from their traces. *)
Lemma pipeline_post (dir src tgt : string) (w w1 w2 w3 w' : World) (q : location)
    (data read content : list byte) (n : node) :
  lookup w src = Some (File data) ->
  ensureDir dir w = (Ret tt, w1) ->
  cwd w2 = cwd w1 -> nodes w2 = nodes w1 ->
  openWrite tgt w2 = (Ret q, w3) ->
  lookup w3 src = Some (File read) ->
  cwd w' = cwd w3 ->
  nodes w' q = Some (File content) ->
  (forall q', q' <> q -> nodes w' q' = nodes w3 q') ->
  lookup w' tgt = Some n ->
  locate w' tgt = Some q
  /\ wrote w w' q content
  /\ read_after_open w src q data read
  /\ n = File content.
Proof.
  intros Hsrc Hd Hc2 Hn2 Ho Hread Hc Hq Hoth Ht.
  destruct (openWrite_post _ _ Ho) as (_ & _ & Hc3 & Hn3).
  destruct (@pipeline_wrote dir tgt w w1 w2 w3 w3 q [] Hd Hc2 Hn2 Ho eq_refl)
    as (_ & Hw3).
  { rewrite Hn3. apply put_same. }
  { reflexivity. }
  destruct (@pipeline_wrote dir tgt w w1 w2 w3 w' q content Hd Hc2 Hn2 Ho Hc Hq Hoth)
    as (Hl & Hw).
  split; [exact Hl|]. split; [exact Hw|].
  split; [eapply read_after_open_spec; eassumption|].
  unfold lookup in Ht. rewrite Hl in Ht. congruence.
Qed.

Lemma compress_post (src tgt : string) (o : CompressionOptions) (cb : bool)
    (w w' : World) (r : MCPResult) :
  GzipHandler.compress src tgt o cb w = (Ret r, w') ->
  isError r = false ->
  exists data read q,
    let gz := zlib_gzip (or_num (compressionLevel o) 6) read in
    lookup w src = Some (File data)
    /\ locate w' tgt = Some q
    /\ wrote w w' q gz
    /\ read_after_open w src q data read
    /\ events w' = (events w ++ source_events cb "compressing" (blen data) read)%list
    /\ r = createSuccessResult ("Successfully compressed file to " ++ tgt)
             [("originalSize", VNum (blen data));
              ("compressedSize", VNum (blen gz));
              ("compressionRatio", VStr (formatCompressionRatio (blen data) (blen gz)));
              ("sourcePath", VStr src);
              ("targetPath", VStr tgt)].
Proof.
  intros H Hok.
  destruct (compress_trace _ _ _ _ _ H Hok)
    as (data & read & n & w1 & w2 & w3 & q & Hsrc & Hd & Hc2 & Hn2 & Ho & Hread & Hc
        & Hq & Hoth & Ht & Hev & Hr).
  destruct (@pipeline_post _ _ _ _ _ _ _ _ _ _ _ _ _ Hsrc Hd Hc2 Hn2 Ho Hread Hc Hq Hoth Ht)
    as (Hl & Hw & Hra & ->).
  exists data, read, q. cbv zeta.
  split; [exact Hsrc|]. split; [exact Hl|]. split; [exact Hw|]. split; [exact Hra|].
  split; [exact Hev|exact Hr].
Qed.

Lemma decompress_post (src dir : string) (o : DecompressionOptions) (cb : bool)
    (w w' : World) (r : MCPResult) :
  GzipHandler.decompress src dir o cb w = (Ret r, w') ->
  isError r = false ->
  exists data read q,
    let payload := List.concat (fst (zlib_gunzip read)) in
    lookup w src = Some (File data)
    /\ snd (zlib_gunzip read) = None
    /\ locate w' (decompress_target src dir) = Some q
    /\ wrote w w' q payload
    /\ read_after_open w src q data read
    /\ events w' = (events w ++ source_events cb "decompressing" (blen data) read)%list
    /\ r = createSuccessResult
             ("Successfully decompressed file to " ++ decompress_target src dir)
             [("compressedSize", VNum (blen data));
              ("decompressedSize", VNum (blen payload));
              ("expansionRatio",
               VStr (formatCompressionRatio (blen data) (blen payload)));
              ("sourcePath", VStr src);
              ("targetPath", VStr (decompress_target src dir))].
Proof.
  intros H Hok.
  destruct (decompress_trace _ _ _ _ _ H Hok)
    as (data & read & n & w1 & w2 & w3 & q & Hsrc & Hd & Hc2 & Hn2 & Ho & Hread & Herr
        & Hc & Hq & Hoth & Ht & Hev & Hr).
  destruct (@pipeline_post _ _ _ _ _ _ _ _ _ _ _ _ _ Hsrc Hd Hc2 Hn2 Ho Hread Hc Hq Hoth Ht)
    as (Hl & Hw & Hra & ->).
  exists data, read, q. cbv zeta.
  split; [exact Hsrc|]. split; [exact Herr|]. split; [exact Hl|]. split; [exact Hw|].
  split; [exact Hra|]. split; [exact Hev|exact Hr].
Qed.
End Pipelines.

Section HandlerExt.
Context {rt : Runtime}.
Import CompressionUtils.

Lemma wrote_target (w w' : World) (q : location) (c : list byte) (p : string) :
  wrote w w' q c -> locate w' p = Some q -> lookup w' p = Some (File c).
Proof. intros (_ & _ & Hq & _) Hl. unfold lookup. now rewrite Hl. Qed.

Lemma wrote_frame (w w' : World) (q : location) (c : list byte) (tgt : string) :
  wrote w w' q c -> locate w' tgt = Some q ->
  forall p n, lookup w p = Some n -> locate w' p <> locate w' tgt ->
              lookup w' p = Some n.
Proof.
  intros Hw Hl p n Hp Hne. eapply wrote_lookup; try eassumption. congruence.
Qed.

Lemma wrote_source (w w' : World) (q : location) (c : list byte) (tgt src : string)
    (n : node) :
  wrote w w' q c -> locate w' tgt = Some q ->
  lookup w src = Some n -> locate w' tgt <> locate w src ->
  lookup w' src = Some n.
Proof.
  intros Hw Hl Hs Hne. eapply wrote_lookup; try eassumption.
  unfold lookup in Hs. destruct (locate w src) as [l|] eqn:El; [|discriminate].
  rewrite (wrote_locate _ Hw El). congruence.
Qed.

(** X11.  When [compress] succeeds on a target that is not the source file
    itself, the target holds the gzip encoding of the source at level
    [compressionLevel || 6], the sizes reported are those of the source and
    of the encoding, the source is unchanged, and every other path that
    resolved before resolves to the same node. *)
Theorem compress_writes_the_encoding :
  forall (src tgt : string) (o : CompressionOptions) (cb : bool)
         (w w' : World) (r : MCPResult),
    GzipHandler.compress src tgt o cb w = (Ret r, w') ->
    isError r = false ->
    locate w' tgt <> locate w src ->
    exists data,
      let gz := zlib_gzip (or_num (compressionLevel o) 6) data in
      lookup w src = Some (File data)
      /\ lookup w' tgt = Some (File gz)
      /\ lookup w' src = Some (File data)
      /\ field r "originalSize" = Some (VNum (blen data))
      /\ field r "compressedSize" = Some (VNum (blen gz))
      /\ (forall p n, lookup w p = Some n -> locate w' p <> locate w' tgt ->
                      lookup w' p = Some n).
Proof.
  intros src tgt o cb w w' r H Hok Hne.
  destruct (compress_post _ _ _ _ _ H Hok)
    as (data & read & q & Hsrc & Hl & Hw & (Hread & _) & _ & ->).
  assert (read = data) by (apply Hread; congruence). subst read.
  exists data. cbv zeta. split; [exact Hsrc|]. split; [eapply wrote_target; eassumption|].
  split; [eapply wrote_source; eassumption|].
  split; [reflexivity|]. split; [reflexivity|].
  eapply wrote_frame; eassumption.
Qed.

(** X12.  When [decompress] succeeds on a target that is not the source
    file itself, the decoder ended without an error, the target (the source
    name without [.gz], in the target directory) holds all the decoded
    chunks in order, its size is the [decompressedSize] reported, the
    source is unchanged, and every other path that resolved before resolves
    to the same node. *)
Theorem decompress_writes_the_decoding :
  forall (src dir : string) (o : DecompressionOptions) (cb : bool)
         (w w' : World) (r : MCPResult),
    GzipHandler.decompress src dir o cb w = (Ret r, w') ->
    isError r = false ->
    let tgt := decompress_target src dir in
    locate w' tgt <> locate w src ->
    exists data,
      let payload := List.concat (fst (zlib_gunzip data)) in
      lookup w src = Some (File data)
      /\ snd (zlib_gunzip data) = None
      /\ lookup w' tgt = Some (File payload)
      /\ lookup w' src = Some (File data)
      /\ field r "targetPath" = Some (VStr tgt)
      /\ field r "decompressedSize" = Some (VNum (blen payload))
      /\ (forall p n, lookup w p = Some n -> locate w' p <> locate w' tgt ->
                      lookup w' p = Some n).
Proof.
  intros src dir o cb w w' r H Hok tgt Hne.
  destruct (decompress_post _ _ _ _ _ H Hok)
    as (data & read & q & Hsrc & Herr & Hl & Hw & (Hread & _) & _ & ->).
  fold tgt in Hl.
  assert (read = data) by (apply Hread; congruence). subst read.
  exists data. cbv zeta. split; [exact Hsrc|]. split; [exact Herr|].
  split; [eapply wrote_target; eassumption|].
  split; [eapply wrote_source; eassumption|].
  split; [reflexivity|]. split; [reflexivity|].
  eapply wrote_frame; eassumption.
Qed.

(** X13.  With a codec whose decoder gives back what the encoder was
    given, decompressing what [compress] wrote restores the bytes of the
    source, and the [decompressedSize] reported is the [originalSize]
    reported before. *)
Theorem compress_then_decompress :
  forall (src tgt dir : string) (o : CompressionOptions) (o' : DecompressionOptions)
         (cb cb' : bool) (w w1 w2 : World) (r1 r2 : MCPResult),
    codec_round_trip rt ->
    GzipHandler.compress src tgt o cb w = (Ret r1, w1) ->
    isError r1 = false ->
    locate w1 tgt <> locate w src ->
    GzipHandler.decompress tgt dir o' cb' w1 = (Ret r2, w2) ->
    isError r2 = false ->
    locate w2 (decompress_target tgt dir) <> locate w1 tgt ->
    exists data,
      lookup w src = Some (File data)
      /\ lookup w2 (decompress_target tgt dir) = Some (File data)
      /\ field r2 "decompressedSize" = field r1 "originalSize".
Proof.
  intros src tgt dir o o' cb cb' w w1 w2 r1 r2 Hcodec H1 Hok1 Hne1 H2 Hok2 Hne2.
  destruct (compress_post _ _ _ _ _ H1 Hok1)
    as (data & read & q & Hsrc & Hl & Hw & (Hread & _) & _ & ->).
  assert (read = data) by (apply Hread; congruence). subst read.
  pose proof (wrote_target _ Hw Hl) as Htgt.
  destruct (decompress_post _ _ _ _ _ H2 Hok2)
    as (gz & read' & q' & Hgz & _ & Hl' & Hw' & (Hread' & _) & _ & ->).
  assert (read' = gz) by (apply Hread'; congruence). subst read'.
  rewrite Htgt in Hgz. injection Hgz as <-.
  rewrite Hcodec in Hw'.
  exists data. split; [exact Hsrc|]. split; [eapply wrote_target; eassumption|].
  change (Some (VNum (blen (List.concat (fst (zlib_gunzip
            (zlib_gzip (or_num (compressionLevel o) 6) data))))))
          = Some (VNum (blen data))).
  now rewrite Hcodec.
Qed.

(** X15.  [listContents] changes no file and no directory, whatever its
    outcome, and neither does a [list] request to [execute] on the registry
    of the server. *)
Theorem listing_changes_no_file :
  (forall (src : string) (o : ListOptions) (cb : bool),
      preserves same_tree (GzipHandler.listContents src o cb))
  /\ (forall (params : UnifiedCompression.Params),
         UnifiedCompression.operation params = UnifiedCompression.OpList ->
         preserves same_tree (UnifiedCompression.execute registry params)).
Proof.
  split; [exact listContents_same_tree|].
  intros params Hop w o w' H.
  destruct (FormatRegistry.getHandlerByFormat registry (UnifiedCompression.format params))
    as [h|] eqn:Eh.
  2:{ rewrite (execute_unknown_format _ _ _ Eh) in H. injection H as <- <-.
      apply same_tree_refl. }
  pose proof (registry_handlers _ Eh) as ->.
  destruct (lookup w (UnifiedCompression.sourcePath params)) as [n|] eqn:El.
  2:{ rewrite (execute_missing_source _ _ _ Eh El) in H. injection H as <- <-.
      apply same_tree_refl. }
  assert (Hs : exists_at w (UnifiedCompression.sourcePath params) = true)
    by (unfold exists_at; now rewrite El).
  destruct (file_at w (UnifiedCompression.sourcePath params)) eqn:Hf.
  2:{ rewrite (execute_not_a_file _ _ _ Eh) in H by congruence.
      injection H as <- <-. apply same_tree_refl. }
  destruct (isFormatValid GzipHandler.handler (UnifiedCompression.sourcePath params)) eqn:Hv.
  2:{ rewrite (execute_wrong_extension _ _ _ Eh) in H by congruence.
      injection H as <- <-. apply same_tree_refl. }
  rewrite (execute_list_run _ _ _ Eh Hop Hf Hv) in H.
  eapply listContents_same_tree. exact H.
Qed.

(** X17.  Without a callback the three operations of the gzip handler
    report no progress, and [execute] on the registry of the server, which
    passes none, reports no progress for any request. *)
Theorem no_callback_no_events :
  (forall (op : gzip_op) (src : string), preserves same_events (run_op op src false))
  /\ (forall (params : UnifiedCompression.Params),
         preserves same_events (UnifiedCompression.execute registry params)).
Proof. split; [exact run_op_same_events|exact execute_same_events]. Qed.
End HandlerExt.

(* ------------------------------------------------------------------------- *)
(** ** Progress events: the run of a successful operation *)
(* ------------------------------------------------------------------------- *)

Section ProgressCompletion.
Import CompressionUtils.

Lemma full_percent (data : list byte) (stg : string) :
  data <> [] ->
  percentComplete (formatProgress (blen data) (Some (blen data)) (Some stg) None)
  = Some 100.
Proof.
  intros Hd.
  assert (blen data <> 0) by (intros Hz; now apply blen_zero in Hz).
  rewrite formatProgress_percent by assumption.
  fold (pc (blen data) (blen data)). rewrite pc_full; [reflexivity|].
  pose proof (blen_nonneg data). lia.
Qed.

(** C5, amended.  When an operation of the gzip handler that was given a
    callback succeeds, the percentages it emitted never decrease; if the
    source file is not empty and the file written is not the source itself,
    the last event carries 100; and the last event of [listContents] has
    the stage [complete]. *)
Theorem progress_nondecreasing_and_complete :
  forall (rt : Runtime) (op : gzip_op) (src : string) (w w' : World) (r : MCPResult),
    run_op op src true w = (Ret r, w') ->
    isError r = false ->
    exists data evs,
      lookup w src = Some (File data)
      /\ events w' = (events w ++ evs)%list
      /\ Sorted Z.le (percents evs)
      /\ (data <> [] -> target_is_not_source op src w w' ->
          exists e, lastEvent evs = Some e /\ percentComplete e = Some 100)
      /\ match op with
         | ListContents _ => exists e, lastEvent evs = Some e /\ stage e = "complete"
         | _ => True
         end.
Proof.
  intros rt op src w w' r H Hok.
  destruct op as [tgt o|dir o|o]; cbn [run_op] in H.
  - destruct (compress_post _ _ _ _ _ H Hok)
      as (data & read & q & Hsrc & Hl & _ & (Hread & _) & Hev & _).
    exists data, (source_events true "compressing" (blen data) read).
    split; [exact Hsrc|]. split; [exact Hev|].
    split; [apply source_events_sorted, blen_nonneg|]. split; [|exact I].
    intros Hd Hne. unfold target_is_not_source in Hne. cbn [op_target] in Hne.
    assert (read = data) by (apply Hread; congruence). subst read.
    eexists. split; [apply source_events_last; exact Hd|now apply full_percent].
  - destruct (decompress_post _ _ _ _ _ H Hok)
      as (data & read & q & Hsrc & _ & Hl & _ & (Hread & _) & Hev & _).
    exists data, (source_events true "decompressing" (blen data) read).
    split; [exact Hsrc|]. split; [exact Hev|].
    split; [apply source_events_sorted, blen_nonneg|]. split; [|exact I].
    intros Hd Hne. unfold target_is_not_source in Hne. cbn [op_target] in Hne.
    assert (read = data) by (apply Hread; congruence). subst read.
    eexists. split; [apply source_events_last; exact Hd|now apply full_percent].
  - destruct (listContents_success _ _ _ _ H Hok) as (data & Hl). cbv zeta in Hl.
    destruct (gunzip_scan _ _ _ _) as [[chunks totalLength] destroyed].
    destruct Hl as (Hsrc & _ & _ & _ & Hev & _).
    exists data, (list_events true (blen data) (or_num (previewLength o) 1000)
                    (fst (zlib_gunzip data))).
    split; [exact Hsrc|]. split; [exact Hev|].
    split; [apply list_events_sorted, blen_nonneg|]. split.
    + intros Hd _. eexists. split; [apply list_events_last|now apply full_percent].
    + eexists. split; [apply list_events_last|].
      unfold formatProgress. destruct (blen data =? 0); reflexivity.
Qed.
End ProgressCompletion.

Lemma progress_nondecreasing_and_complete_witness :
  Sorted Z.le
    (percents (events (snd (@GzipHandler.compress Posix.runtime "/home/user/notes.txt"
                              "/home/user/notes.txt.gz" (Build_CompressionOptions (Some 6))
                              true home_world))))
  /\ exists e,
      lastEvent (events (snd (@GzipHandler.compress Posix.runtime "/home/user/notes.txt"
                                "/home/user/notes.txt.gz"
                                (Build_CompressionOptions (Some 6)) true home_world)))
      = Some e
      /\ percentComplete e = Some 100.
Proof.
  destruct (@progress_nondecreasing_and_complete Posix.runtime
              (Compress "/home/user/notes.txt.gz" (Build_CompressionOptions (Some 6)))
              "/home/user/notes.txt" home_world
              (snd (@GzipHandler.compress Posix.runtime "/home/user/notes.txt"
                      "/home/user/notes.txt.gz" (Build_CompressionOptions (Some 6))
                      true home_world))
              (result_of (fst (@GzipHandler.compress Posix.runtime "/home/user/notes.txt"
                      "/home/user/notes.txt.gz" (Build_CompressionOptions (Some 6))
                      true home_world))))
    as (data & evs & Hsrc & Hev & Hs & Hlast & _).
  - vm_compute. reflexivity.
  - vm_compute. reflexivity.
  - change (events home_world ++ evs)%list with evs in Hev. rewrite Hev.
    split; [exact Hs|]. apply Hlast.
    + vm_compute in Hsrc. injection Hsrc as <-. discriminate.
    + vm_compute. discriminate.
Defined.

Lemma posix_codec_round_trip : codec_round_trip Posix.runtime.
Proof. intros level d. cbn. apply concat_chunksOf. Qed.

Lemma compress_writes_the_encoding_witness :
  lookup (snd (@GzipHandler.compress Posix.runtime "/home/user/notes.txt"
                 "/home/user/out/notes.txt.gz" (Build_CompressionOptions None) true
                 home_world))
         "/home/user/out/notes.txt.gz"
  = Some (File (Posix.store 6 (Posix.bytes "hello"))).
Proof.
  destruct (@compress_writes_the_encoding Posix.runtime "/home/user/notes.txt"
              "/home/user/out/notes.txt.gz" (Build_CompressionOptions None) true
              home_world
              (snd (@GzipHandler.compress Posix.runtime "/home/user/notes.txt"
                      "/home/user/out/notes.txt.gz" (Build_CompressionOptions None) true
                      home_world))
              (result_of (fst (@GzipHandler.compress Posix.runtime "/home/user/notes.txt"
                      "/home/user/out/notes.txt.gz" (Build_CompressionOptions None) true
                      home_world))))
    as (data & Hsrc & Htgt & _).
  - vm_compute. reflexivity.
  - vm_compute. reflexivity.
  - vm_compute. discriminate.
  - vm_compute in Hsrc. injection Hsrc as <-. exact Htgt.
Defined.

Section DispatcherExt2.
Context {rt : Runtime}.
Import CompressionUtils UnifiedCompression.

Lemma or_num_twice (o : option Z) (d : Z) :
  d <> 0 -> or_num (Some (or_num o d)) d = or_num o d.
Proof.
  intros Hd. unfold or_num. destruct o as [n|].
  - destruct (Z.eqb_spec n 0) as [->|Hn].
    + destruct (Z.eqb_spec d 0); [contradiction|reflexivity].
    + destruct (Z.eqb_spec n 0); [contradiction|reflexivity].
  - destruct (Z.eqb_spec d 0); [contradiction|reflexivity].
Qed.


(** X19.  A [decompress] or [list] request on a source that exists is
    refused with the state untouched when the source is not a regular file
    ([Source path must be a file]) or when the handler does not accept its
    name ([File is not a valid ... file], with the extensions expected). *)
Theorem execute_refuses_what_is_no_archive :
  forall (reg : FormatRegistry.t) (params : Params) (w : World) (h : CompressionHandler),
    FormatRegistry.getHandlerByFormat reg (format params) = Some h ->
    operation params <> OpCompress ->
    exists_at w (sourcePath params) = true ->
    (file_at w (sourcePath params) = false ->
     execute reg params w
     = (Ret (createErrorResult
               ("Source path must be a file: " ++ sourcePath params) None), w))
    /\ (file_at w (sourcePath params) = true ->
        isFormatValid h (sourcePath params) = false ->
        execute reg params w
        = (Ret (createErrorResult
                  ("File is not a valid " ++ format params ++ " file: "
                   ++ sourcePath params)
                  (Some ("Expected file extensions: "
                         ++ join ", " (getSupportedExtensions h)))), w)).
Proof.
  intros reg params w h Hh Hop Hs. split.
  - intros Hf. now apply (execute_not_a_file _ _ _ Hh).
  - intros Hf Hv. now apply (execute_wrong_extension _ _ _ Hh).
Qed.

(** X20.  A [compress] request on a directory passes the checks of
    [execute], which accepts a file or a directory, and is refused by the
    gzip handler: the result is the handler's
    [Source path is not a file], and the state is untouched. *)
Theorem execute_compress_of_a_directory :
  forall (params : Params) (w : World) (h : CompressionHandler),
    FormatRegistry.getHandlerByFormat registry (format params) = Some h ->
    operation params = OpCompress ->
    dir_at w (sourcePath params) = true ->
    exists_at w (resolveOutputPath (sourcePath params) (outputDirectory params)
                   (outputFileName params) (Some ".gz")) = false ->
    execute registry params w
    = (Ret (createErrorResult
              ("Source path is not a file: " ++ sourcePath params)
              (Some "Please use a regular file for gzip compression.")), w).
Proof.
  intros params w h Hh Hop Hd Ht.
  pose proof (registry_handlers _ Hh) as ->.
  assert (Hs : exists_at w (sourcePath params) = true).
  { unfold dir_at in Hd. unfold exists_at.
    destruct (lookup w (sourcePath params)); [reflexivity|discriminate]. }
  assert (Hf : file_at w (sourcePath params) = false).
  { unfold dir_at in Hd. unfold file_at.
    destruct (lookup w (sourcePath params)) as [[|]|]; try discriminate; reflexivity. }
  rewrite (execute_compress_run _ _ _ Hh Hop Hs Ht).
  cbn [compress GzipHandler.handler].
  unfold GzipHandler.compress, try_catch, GzipHandler.compress_body, bind.
  rewrite fileExists_spec, Hs. cbn [negb]. rewrite isFile_spec, Hf. reflexivity.
Qed.

(** X21.  A [decompress] request whose output directory is a regular file
    is answered by the [catch] of [execute] with
    [Error during decompress operation: ] followed by the [EEXIST] message
    of [mkdir]; the state is untouched. *)
Theorem execute_decompress_into_a_file :
  forall (reg : FormatRegistry.t) (params : Params) (w : World) (h : CompressionHandler),
    FormatRegistry.getHandlerByFormat reg (format params) = Some h ->
    operation params = OpDecompress ->
    file_at w (sourcePath params) = true ->
    isFormatValid h (sourcePath params) = true ->
    let targetDir := or_str (outputDirectory params) (path_dirname (sourcePath params)) in
    file_at w targetDir = true ->
    execute reg params w
    = (Ret (createErrorResult
              ("Error during decompress operation: "
               ++ message (EEXIST "mkdir" targetDir))
              (stack (EEXIST "mkdir" targetDir))), w).
Proof.
  intros reg params w h Hh Hop Hf Hv targetDir Hd.
  rewrite (execute_decompress_run _ _ _ Hh Hop Hf Hv).
  fold targetDir. unfold decompress_dir. fold targetDir.
  rewrite ensureDir_cases, (file_not_dir _ _ Hd).
  now rewrite (fsMkdir_on_a_file _ _ Hd).
Qed.

(** X22.  When a [compress] request to [execute] on the registry of the
    server succeeds and the target path resolved beforehand, there was
    nothing at the target, the target now holds the gzip encoding of the
    source at level [compressionLevel || 6], and every path that resolved
    before resolves to the same node: nothing was overwritten. *)
Theorem execute_compress_creates_a_new_file :
  forall (params : Params) (w w' : World) (r : MCPResult),
    operation params = OpCompress ->
    execute registry params w = (Ret r, w') ->
    isError r = false ->
    let tgt := resolveOutputPath (sourcePath params) (outputDirectory params)
                 (outputFileName params) (Some ".gz") in
    locate w tgt <> None ->
    exists data,
      lookup w (sourcePath params) = Some (File data)
      /\ lookup w tgt = None
      /\ lookup w' tgt
         = Some (File (zlib_gzip (or_num (p_compressionLevel params) 6) data))
      /\ (forall p n, lookup w p = Some n -> lookup w' p = Some n).
Proof.
  intros params w w' r Hop H Hok tgt Hloc.
  destruct (FormatRegistry.getHandlerByFormat registry (format params)) as [h|] eqn:Eh.
  2:{ rewrite (execute_unknown_format _ _ _ Eh) in H. injection H as <- <-. discriminate. }
  pose proof (registry_handlers _ Eh) as ->.
  destruct (lookup w (sourcePath params)) as [n|] eqn:El.
  2:{ rewrite (execute_missing_source _ _ _ Eh El) in H. injection H as <- <-.
      discriminate. }
  assert (Hs : exists_at w (sourcePath params) = true)
    by (unfold exists_at; now rewrite El).
  change (resolveOutputPath (sourcePath params) (outputDirectory params)
            (outputFileName params) (Some ".gz"))
    with (compress_target GzipHandler.handler params) in tgt.
  destruct (exists_at w tgt) eqn:Ht.
  { rewrite (execute_existing_target _ _ _ Eh Hop Hs Ht) in H.
    injection H as <- <-. discriminate. }
  rewrite (execute_compress_run _ _ _ Eh Hop Hs Ht) in H.
  cbn [compress GzipHandler.handler] in H. fold tgt in H.
  destruct (compress_post _ _ _ _ _ H Hok)
    as (data & read & q & Hsrc & Hl & Hw & (Hread & _) & _).
  cbn [compressionLevel] in Hw. rewrite or_num_twice in Hw by discriminate.
  assert (Hnone : lookup w tgt = None).
  { unfold exists_at in Ht. destruct (lookup w tgt); [discriminate|reflexivity]. }
  destruct (locate w tgt) as [q0|] eqn:El0; [|now elim Hloc].
  pose proof (wrote_locate _ Hw El0) as Hl0.
  assert (q0 = q) by congruence. subst q0.
  assert (Hq : nodes w q = None).
  { unfold lookup in Hnone. now rewrite El0 in Hnone. }
  assert (read = data).
  { apply Hread. intros E. unfold lookup in Hsrc. rewrite E in Hsrc. congruence. }
  subst read.
  exists data. split; [congruence|]. split; [exact Hnone|]. split.
  - unfold lookup. rewrite Hl. now destruct Hw as (_ & _ & Hc & _).
  - intros p n' Hp. eapply wrote_lookup; try eassumption.
    unfold lookup in Hp. destruct (locate w p) as [l|] eqn:Elp; [|discriminate].
    rewrite (wrote_locate _ Hw Elp). intros [= ->]. congruence.
Qed.
End DispatcherExt2.

Section SinkExt.
Import Legacy.

Lemma writes_full (incoming : list (list byte)) :
  forall s, maxLength s <= totalLength s -> writes s incoming = s.
Proof.
  unfold writes. induction incoming as [|c cs IH]; intros s H; simpl; [reflexivity|].
  assert (E : _write s c = s).
  { unfold _write. destruct (Z.ltb_spec (totalLength s) (maxLength s)); [lia|reflexivity]. }
  rewrite E. now apply IH.
Qed.

Lemma writes_app (a b : list (list byte)) (s : MemoryWritable) :
  writes s (a ++ b) = writes (writes s a) b.
Proof. unfold writes. apply fold_left_app. Qed.

(** X23.  Once the bytes written have reached [maxLength] (at once for a
    [maxLength] of zero or less), further writes leave the sink exactly as
    it is. *)
Theorem MemoryWritable_full_ignores_writes :
  forall (maxLen : Z) (incoming more : list (list byte)),
    maxLen <= blen (List.concat incoming) ->
    writes (create maxLen) (incoming ++ more) = writes (create maxLen) incoming.
Proof.
  intros maxLen incoming more Hfull.
  rewrite writes_app. apply writes_full. rewrite writes_maxLength. cbn [maxLength create].
  destruct (Z.le_gt_cases 0 maxLen) as [Hpos|Hneg].
  - pose proof (writes_inv incoming (create_inv Hpos)) as (Hb & Hlen & Hc).
    rewrite writes_maxLength in *. cbn [maxLength create app] in *.
    rewrite Hlen, Hc. rewrite blen_firstn; [lia|].
    pose proof (blen_nonneg (List.concat incoming)). lia.
  - rewrite writes_full by (cbn; lia). cbn. lia.
Qed.

(** X24.  The content of the sink depends on the bytes written only, not
    on how they were cut into chunks. *)
Theorem MemoryWritable_chunking_irrelevant :
  forall (maxLen : Z) (a b : list (list byte)),
    List.concat a = List.concat b ->
    getContent (writes (create maxLen) a) = getContent (writes (create maxLen) b).
Proof.
  intros maxLen a b Hab.
  destruct (Z.le_gt_cases 0 maxLen) as [Hpos|Hneg].
  - rewrite (getContent_of_inv (writes_inv a (create_inv Hpos))).
    rewrite (getContent_of_inv (writes_inv b (create_inv Hpos))).
    rewrite !writes_maxLength. cbn [app]. now rewrite Hab.
  - rewrite !writes_full by (cbn; lia). reflexivity.
Qed.
End SinkExt.

Lemma MemoryWritable_chunking_irrelevant_witness :
  Legacy.getContent (Legacy.writes (Legacy.create 4) [Posix.bytes "ab"; Posix.bytes "cdef"])
  = Legacy.getContent (Legacy.writes (Legacy.create 4) [Posix.bytes "abcde"; Posix.bytes "f"]).
Proof.
  exact (@MemoryWritable_chunking_irrelevant 4 [Posix.bytes "ab"; Posix.bytes "cdef"]
           [Posix.bytes "abcde"; Posix.bytes "f"] eq_refl).
Defined.

Lemma MemoryWritable_full_ignores_writes_witness :
  Legacy.writes (Legacy.create 3) ([Posix.bytes "ab"; Posix.bytes "cd"] ++ [Posix.bytes "ef"])
  = Legacy.writes (Legacy.create 3) [Posix.bytes "ab"; Posix.bytes "cd"].
Proof.
  refine (@MemoryWritable_full_ignores_writes 3 [Posix.bytes "ab"; Posix.bytes "cd"]
            [Posix.bytes "ef"] _).
  vm_compute. discriminate.
Defined.

Section EdgeRatios.
Context {rt : Runtime}.
Import CompressionUtils.

(** X14.  A successful [compress] of an empty file reports an
    [originalSize] of 0 and, the division being by zero, the ratio
    [Infinity%] ([NaN%] if the encoding were empty too); with a callback it
    hands over one event, without a percentage. *)
Theorem compress_of_an_empty_file :
  forall (src tgt : string) (o : CompressionOptions) (cb : bool)
         (w w' : World) (r : MCPResult),
    GzipHandler.compress src tgt o cb w = (Ret r, w') ->
    isError r = false ->
    lookup w src = Some (File []) ->
    locate w' tgt <> locate w src ->
    field r "originalSize" = Some (VNum 0)
    /\ field r "compressionRatio"
       = Some (VStr (if blen (zlib_gzip (or_num (compressionLevel o) 6) []) =? 0
                     then "NaN%" else "Infinity%"))
    /\ events w' = (events w ++ (if cb then [formatProgress 0 None (Some "compressing") None]
                                 else []))%list.
Proof.
  intros src tgt o cb w w' r H Hok Hsrc Hne.
  destruct (compress_post _ _ _ _ _ H Hok)
    as (data & read & q & Hsrc' & Hl & Hw & (Hread & _) & Hev & ->).
  assert (read = data) by (apply Hread; congruence). subst read.
  assert (data = []) by congruence. subst data.
  split; [reflexivity|]. split.
  - unfold field. cbn. unfold formatCompressionRatio. cbn [Z.eqb blen List.length Z.of_nat].
    set (gz := zlib_gzip _ _). pose proof (blen_nonneg gz) as Hgz.
    destruct (Z.eqb_spec (blen gz) 0) as [E|E]; [reflexivity|].
    destruct (Z.ltb_spec 0 (blen gz)); [reflexivity|lia].
  - rewrite Hev. reflexivity.
Qed.
End EdgeRatios.

Lemma compress_of_an_empty_file_witness :
  field (result_of (fst (@GzipHandler.compress Posix.runtime "/home/user/empty.txt"
                            "/home/user/empty.txt.gz" (Build_CompressionOptions None) false
                            home_world))) "compressionRatio"
  = Some (VStr "Infinity%").
Proof.
  refine (proj1 (proj2 (@compress_of_an_empty_file Posix.runtime "/home/user/empty.txt"
            "/home/user/empty.txt.gz" (Build_CompressionOptions None) false home_world
            (snd (@GzipHandler.compress Posix.runtime "/home/user/empty.txt"
                    "/home/user/empty.txt.gz" (Build_CompressionOptions None) false
                    home_world))
            (result_of (fst (@GzipHandler.compress Posix.runtime "/home/user/empty.txt"
                    "/home/user/empty.txt.gz" (Build_CompressionOptions None) false
                    home_world))) _ _ _ _))).
  - vm_compute. reflexivity.
  - vm_compute. reflexivity.
  - vm_compute. reflexivity.
  - vm_compute. discriminate.
Defined.

Lemma ensureDir_makes_directory_witness :
  dir_at (snd (@CompressionUtils.ensureDir Posix.runtime "/home/user/out/deep" home_world))
         "/home/user/out/deep" = true.
Proof.
  refine (proj1 (@ensureDir_makes_directory Posix.runtime "/home/user/out/deep" home_world
                   (snd (@CompressionUtils.ensureDir Posix.runtime "/home/user/out/deep"
                           home_world)) _)).
  vm_compute. reflexivity.
Defined.

Lemma decompress_writes_the_decoding_witness :
  lookup (snd (@GzipHandler.decompress Posix.runtime "/home/user/secret.gz"
                 "/home/user/out" (Build_DecompressionOptions None) false home_world))
         "/home/user/out/secret"
  = Some (File (Posix.bytes "top secret")).
Proof.
  destruct (@decompress_writes_the_decoding Posix.runtime "/home/user/secret.gz"
              "/home/user/out" (Build_DecompressionOptions None) false home_world
              (snd (@GzipHandler.decompress Posix.runtime "/home/user/secret.gz"
                      "/home/user/out" (Build_DecompressionOptions None) false home_world))
              (result_of (fst (@GzipHandler.decompress Posix.runtime "/home/user/secret.gz"
                      "/home/user/out" (Build_DecompressionOptions None) false home_world))))
    as (data & Hsrc & _ & Htgt & _).
  - vm_compute. reflexivity.
  - vm_compute. reflexivity.
  - vm_compute. discriminate.
  - vm_compute in Hsrc. injection Hsrc as <-. exact Htgt.
Defined.

Lemma compress_then_decompress_witness :
  let w1 := snd (@GzipHandler.compress Posix.runtime "/home/user/notes.txt"
                   "/home/user/out/notes.txt.gz" (Build_CompressionOptions (Some 9)) false
                   home_world) in
  let w2 := snd (@GzipHandler.decompress Posix.runtime "/home/user/out/notes.txt.gz"
                   "/home/user/back" (Build_DecompressionOptions None) false w1) in
  lookup w2 "/home/user/back/notes.txt" = Some (File (Posix.bytes "hello")).
Proof.
  cbv zeta.
  destruct (@compress_then_decompress Posix.runtime "/home/user/notes.txt"
              "/home/user/out/notes.txt.gz" "/home/user/back"
              (Build_CompressionOptions (Some 9)) (Build_DecompressionOptions None)
              false false home_world
              (snd (@GzipHandler.compress Posix.runtime "/home/user/notes.txt"
                      "/home/user/out/notes.txt.gz" (Build_CompressionOptions (Some 9)) false
                      home_world))
              (snd (@GzipHandler.decompress Posix.runtime "/home/user/out/notes.txt.gz"
                      "/home/user/back" (Build_DecompressionOptions None) false
                      (snd (@GzipHandler.compress Posix.runtime "/home/user/notes.txt"
                              "/home/user/out/notes.txt.gz"
                              (Build_CompressionOptions (Some 9)) false home_world))))
              (result_of (fst (@GzipHandler.compress Posix.runtime "/home/user/notes.txt"
                      "/home/user/out/notes.txt.gz" (Build_CompressionOptions (Some 9)) false
                      home_world)))
              (result_of (fst (@GzipHandler.decompress Posix.runtime
                      "/home/user/out/notes.txt.gz"
                      "/home/user/back" (Build_DecompressionOptions None) false
                      (snd (@GzipHandler.compress Posix.runtime "/home/user/notes.txt"
                              "/home/user/out/notes.txt.gz"
                              (Build_CompressionOptions (Some 9)) false home_world))))))
    as (data & Hsrc & Htgt & _).
  - exact posix_codec_round_trip.
  - vm_compute. reflexivity.
  - vm_compute. reflexivity.
  - vm_compute. discriminate.
  - vm_compute. reflexivity.
  - vm_compute. reflexivity.
  - vm_compute. discriminate.
  - vm_compute in Hsrc. injection Hsrc as <-. exact Htgt.
Defined.

Lemma listContents_preview_witness :
  field (result_of (fst (@GzipHandler.listContents Posix.runtime "/home/user/secret.gz"
                           (Build_ListOptions (Some 4)) false home_world))) "preview"
  = Some (VStr "top ").
Proof.
  destruct (@listContents_preview Posix.runtime "/home/user/secret.gz"
              (Build_ListOptions (Some 4)) false home_world
              (snd (@GzipHandler.listContents Posix.runtime "/home/user/secret.gz"
                      (Build_ListOptions (Some 4)) false home_world))
              (result_of (fst (@GzipHandler.listContents Posix.runtime "/home/user/secret.gz"
                      (Build_ListOptions (Some 4)) false home_world)))
              (Posix.store 6 (Posix.bytes "top secret")))
    as (total & _ & Hp & _).
  - vm_compute. reflexivity.
  - vm_compute. reflexivity.
  - vm_compute. reflexivity.
  - vm_compute. reflexivity.
  - vm_compute. discriminate.
  - exact Hp.
Defined.


Lemma execute_refuses_what_is_no_archive_witness :
  exists r,
    @UnifiedCompression.execute Posix.runtime (@registry Posix.runtime)
       (request UnifiedCompression.OpDecompress "gzip" "/home/user/notes.txt" None None)
       home_world = (Ret r, home_world)
    /\ isError r = true.
Proof.
  eexists. split.
  - refine (proj2 (@execute_refuses_what_is_no_archive Posix.runtime (@registry Posix.runtime)
              (request UnifiedCompression.OpDecompress "gzip" "/home/user/notes.txt"
                 None None)
              home_world (@GzipHandler.handler Posix.runtime) _ _ _) _ _).
    + reflexivity.
    + discriminate.
    + vm_compute. reflexivity.
    + vm_compute. reflexivity.
    + vm_compute. reflexivity.
  - reflexivity.
Defined.

Lemma execute_compress_of_a_directory_witness :
  exists r,
    @UnifiedCompression.execute Posix.runtime (@registry Posix.runtime)
       (request UnifiedCompression.OpCompress "gzip" "/home/user/work" None None)
       home_world = (Ret r, home_world)
    /\ isError r = true.
Proof.
  eexists. split.
  - refine (@execute_compress_of_a_directory Posix.runtime
              (request UnifiedCompression.OpCompress "gzip" "/home/user/work" None None)
              home_world (@GzipHandler.handler Posix.runtime) _ _ _ _).
    + reflexivity.
    + reflexivity.
    + vm_compute. reflexivity.
    + vm_compute. reflexivity.
  - reflexivity.
Defined.

Lemma execute_decompress_into_a_file_witness :
  exists r,
    @UnifiedCompression.execute Posix.runtime (@registry Posix.runtime)
       (request UnifiedCompression.OpDecompress "gzip" "/home/user/secret.gz"
          (Some "/home/user/notes.txt") None)
       home_world = (Ret r, home_world)
    /\ isError r = true.
Proof.
  eexists. split.
  - refine (@execute_decompress_into_a_file Posix.runtime (@registry Posix.runtime)
              (request UnifiedCompression.OpDecompress "gzip" "/home/user/secret.gz"
                 (Some "/home/user/notes.txt") None)
              home_world (@GzipHandler.handler Posix.runtime) _ _ _ _ _).
    + reflexivity.
    + reflexivity.
    + vm_compute. reflexivity.
    + vm_compute. reflexivity.
    + vm_compute. reflexivity.
  - reflexivity.
Defined.

Lemma execute_compress_creates_a_new_file_witness :
  let w' := snd (@UnifiedCompression.execute Posix.runtime (@registry Posix.runtime)
                   (request UnifiedCompression.OpCompress "gzip" "/home/user/notes.txt"
                      None None) home_world) in
  lookup home_world "/home/user/notes.txt.gz" = None
  /\ lookup w' "/home/user/notes.txt.gz"
     = Some (File (Posix.store 6 (Posix.bytes "hello")))
  /\ lookup w' "/home/user/secret.gz" = lookup home_world "/home/user/secret.gz".
Proof.
  cbv zeta.
  destruct (@execute_compress_creates_a_new_file Posix.runtime
              (request UnifiedCompression.OpCompress "gzip" "/home/user/notes.txt" None None)
              home_world
              (snd (@UnifiedCompression.execute Posix.runtime (@registry Posix.runtime)
                      (request UnifiedCompression.OpCompress "gzip" "/home/user/notes.txt"
                         None None) home_world))
              (result_of (fst (@UnifiedCompression.execute Posix.runtime (@registry Posix.runtime)
                      (request UnifiedCompression.OpCompress "gzip" "/home/user/notes.txt"
                         None None) home_world))))
    as (data & Hsrc & Hnone & Htgt & Hkeep).
  - reflexivity.
  - vm_compute. reflexivity.
  - vm_compute. reflexivity.
  - vm_compute. discriminate.
  - vm_compute in Hsrc. injection Hsrc as <-.
    split; [exact Hnone|]. split; [exact Htgt|].
    apply Hkeep. vm_compute. reflexivity.
Defined.

(* ------------------------------------------------------------------------- *)
(** ** The stand-alone tools *)
(* ------------------------------------------------------------------------- *)

Section ToolFacts.
Context {rt : Runtime} {host : Tools.Host}.
Import Tools.

Lemma lift_eq (A : Type) (c : M A) (w w' : World) (rs : list Report) (o : outcome A) :
  c w = (o, w') ->
  lift c {| world := w; reports := rs |} = (o, {| world := w'; reports := rs |}).
Proof. intros H. unfold lift. cbn [world reports]. now rewrite H. Qed.

Lemma statSource_spec (p : string) (w : World) (rs : list Report) :
  statSource p {| world := w; reports := rs |}
  = (Ret (match lookup w p with
          | Some (File d) => inr (File d)
          | Some Dir => inl (failure ("Error: " ++ p ++ " is not a file"))
          | None => inl (failure ("Error: Cannot access file " ++ p ++ ". "
                                  ++ message (ENOENT "stat" p)))
          end),
     {| world := w; reports := rs |}).
Proof.
  unfold statSource, ttry, tbind, lift, fsStat. cbn [world reports].
  destruct (lookup w p) as [[d|]|]; reflexivity.
Qed.

Lemma onData_spec (cap : bool) (verb : string) (sz : Z) (chunks : list (list byte)) :
  forall acc w rs,
    onData cap verb sz acc chunks {| world := w; reports := rs |}
    = (Ret tt, {| world := w;
                  reports := (rs ++ map (data_report cap verb sz) (running acc chunks))%list |}).
Proof.
  induction chunks as [|c cs IH]; intros acc w rs; cbn [onData running map].
  - unfold tret. now rewrite app_nil_r.
  - unfold tbind, reportProgress. cbn [world reports]. rewrite IH.
    rewrite <- app_assoc. reflexivity.
Qed.

Lemma mkdirp_existing (names : list string) :
  forall t cur q,
    walk t cur names = Some q -> t q = Some Dir -> mkdirp t cur names = Some t.
Proof.
  induction names as [|s rest IH]; intros t cur q; simpl.
  - intros [= ->] Hq. now rewrite Hq.
  - destruct (t cur) as [[|]|] eqn:Ec; try discriminate.
    destruct ((s =? EmptyString) || (s =? "."))%string; [apply IH|].
    destruct (s =? "..")%string; [apply IH|].
    intros Hw Hq.
    destruct (t (cur ++ [s])%list) eqn:E.
    + eapply IH; eassumption.
    + exfalso. eapply walk_some_node; eassumption.
Qed.

Lemma fsMkdir_existing (p : string) (w : World) :
  dir_at w p = true ->
  fsMkdir p w = (Ret tt, {| cwd := cwd w; nodes := nodes w; events := events w |}).
Proof.
  unfold dir_at, lookup, locate, fsMkdir.
  destruct (p =? EmptyString)%string; [discriminate|].
  destruct (walk _ _ _) as [q|] eqn:Ew; [|discriminate].
  destruct (nodes w q) as [[|]|] eqn:Eq; try discriminate. intros _.
  now rewrite (mkdirp_existing _ _ _ Ew Eq).
Qed.

Lemma fsMkdir_post (p : string) (w w1 : World) :
  fsMkdir p w = (Ret tt, w1) ->
  cwd w1 = cwd w /\ events w1 = events w
  /\ extends (nodes w) (nodes w1)
  /\ (forall q n, nodes w1 q = Some n ->
                  nodes w q = Some n \/ (nodes w q = None /\ n = Dir)).
Proof.
  unfold fsMkdir. destruct (p =? EmptyString)%string; [discriminate|].
  destruct (mkdirp _ _ _) as [t|] eqn:Em; [|discriminate].
  intros [= <-]. cbn [cwd nodes events].
  split; [reflexivity|]. split; [reflexivity|]. split.
  - eapply mkdirp_extends; eassumption.
  - eapply mkdirp_only_dirs; eassumption.
Qed.

Lemma fsMkdir_throws (p : string) (w w1 : World) (e : Error) :
  fsMkdir p w = (Throw e, w1) -> w1 = w.
Proof.
  unfold fsMkdir. destruct (p =? EmptyString)%string; [now intros [= _ <-]|].
  destruct (mkdirp _ _ _); [discriminate|now intros [= _ <-]].
Qed.

(** The file system side of a pipeline, after the directory was made. *)
Lemma target_wrote (tgt : string) (w w1 w3 w5 : World) (q : location)
    (content : list byte) :
  cwd w1 = cwd w ->
  extends (nodes w) (nodes w1) ->
  (forall l n, nodes w1 l = Some n -> nodes w l = Some n \/ (nodes w l = None /\ n = Dir)) ->
  openWrite tgt w1 = (Ret q, w3) ->
  cwd w5 = cwd w3 ->
  nodes w5 q = Some (File content) ->
  (forall q', q' <> q -> nodes w5 q' = nodes w3 q') ->
  locate w5 tgt = Some q /\ wrote w w5 q content.
Proof.
  intros Hc1 Hk1 Ha1 Ho Hc5 Hq5 Ho5.
  destruct (openWrite_post _ _ Ho) as (Hl & Hnd & Hc3 & Hn3).
  assert (Hother : forall q', q' <> q -> nodes w5 q' = nodes w1 q').
  { intros q' Hne. now rewrite (Ho5 _ Hne), Hn3, put_other by exact Hne. }
  assert (Hw : wrote w w5 q content).
  { split; [congruence|]. split; [|split; [exact Hq5|split]].
    - intros Hd. apply Hnd. now apply Hk1.
    - intros q' n Hne Hq'. rewrite (Hother _ Hne). now apply Hk1.
    - intros q' n Hne Hq'. rewrite (Hother _ Hne) in Hq'. now apply Ha1. }
  split; [|exact Hw].
  unfold locate in *. rewrite Hc5, Hc3.
  destruct (tgt =? EmptyString)%string; [discriminate|].
  revert Hl. apply walk_agree. intros c Hcd.
  assert (c <> q) by congruence.
  now rewrite (Hother _ H).
Qed.

Lemma lookup_none_extends (w w1 : World) (p : string) :
  cwd w1 = cwd w -> extends (nodes w) (nodes w1) ->
  lookup w1 p = None -> lookup w p = None.
Proof.
  intros Hc Hx H1. destruct (lookup w p) as [n|] eqn:E; [|reflexivity].
  rewrite (@lookup_extends w w1 p n Hc Hx E) in H1. discriminate.
Qed.

Lemma tbind_ret (A B : Type) (c : T A) (k : A -> T B) (tw tw1 : ToolWorld) (a : A) :
  c tw = (Ret a, tw1) -> tbind c k tw = k a tw1.
Proof. intros H. unfold tbind. now rewrite H. Qed.

Lemma choose_dir (b : bool) (w : World) (rs : list Report) (p d : string) :
  (if b then absolutePath p else tret d) {| world := w; reports := rs |}
  = (Ret (if b then absolute_of w p else d), {| world := w; reports := rs |}).
Proof. destruct b; reflexivity. Qed.

Lemma zip_success (args : Zip.Args) (w : World) (rs : list Report)
    (r : ToolResult) (tw' : ToolWorld) :
  Zip.execute args {| world := w; reports := rs |} = (Ret r, tw') ->
  failed r = false ->
  exists data read q,
    lookup w (zip_source w args) = Some (File data)
    /\ locate (world tw') (zip_targetPath w args) = Some q
    /\ wrote w (world tw') q (zlib_gzip (Zip.compressionLevel args) read)
    /\ read_after_open w (zip_source w args) q data read
    /\ events (world tw') = events w
    /\ reports tw'
       = (rs ++ run_reports true "Compressing" "Starting compression..."
                  "Compression complete!" (blen data) read)%list
    /\ (truthy_str (Zip.outputFileName args) = false ->
        lookup w (zip_targetPath w args) = None).
Proof.
  unfold Zip.execute. unfold ttry at 1.
  match goal with |- context [tbind ?c ?k ?tw] => destruct (tbind c k tw) as [[r0|e] tw0] eqn:E end;
    intros [= <- <-] Hok; [|discriminate].
  unfold tbind at 1 in E. unfold absolutePath at 1 in E. cbn [world] in E.
  fold (zip_source w args) in E.
  unfold tbind at 1 in E. rewrite statSource_spec in E.
  destruct (lookup w (zip_source w args)) as [[data|]|] eqn:Hsrc;
    try (injection E as <- _; discriminate).
  exists data.
  unfold tbind at 1 in E. rewrite choose_dir in E.
  fold (zip_targetDir w args) in E.
  fold (zip_targetPath w args) in E.
  (* mkdir *)
  unfold tbind at 1 in E. unfold ttry at 1 in E. unfold tbind at 1 in E.
  destruct (fsMkdir (zip_targetDir w args) w) as [[[]|e] w1] eqn:Em;
    rewrite (@lift_eq _ _ _ _ rs _ Em) in E;
    [|injection E as <- _; discriminate].
  unfold tret at 1 in E.
  destruct (fsMkdir_post _ _ Em) as (Hc1 & He1 & Hx1 & Ha1).
  (* the existence check *)
  unfold tbind at 1 in E.
  assert (Htaken :
    exists tk,
      (if negb (truthy_str (Zip.outputFileName args))
       then
         ttry
           (tbind (lift (fsAccess (zip_targetPath w args)))
              (fun _ =>
                 tret (Some (failure
                   ("Warning: Output file " ++ zip_targetPath w args
                    ++ " already exists. Please use a different filename, for example: "
                    ++ path_basename_ext (path_basename (zip_source w args))
                         (path_extname (path_basename (zip_source w args)))
                    ++ "_" ++ intText Date_getTime
                    ++ path_extname (path_basename (zip_source w args)) ++ ".gz")))))
           (fun _ => tret None)
       else tret None) {| world := w1; reports := rs |}
      = (Ret tk, {| world := w1; reports := rs |})
      /\ (tk = None ->
          truthy_str (Zip.outputFileName args) = false -> lookup w1 (zip_targetPath w args) = None)
      /\ (forall early, tk = Some early -> failed early = true)).
  { destruct (truthy_str (Zip.outputFileName args)); cbn [negb].
    - exists None. split; [reflexivity|]. split; [discriminate|discriminate].
    - unfold ttry, tbind, lift, fsAccess. cbn [world reports].
      destruct (lookup w1 (zip_targetPath w args)) eqn:El.
      + eexists. split; [reflexivity|]. split; [discriminate|].
        now intros early [= <-].
      + exists None. split; [reflexivity|]. split; [reflexivity|discriminate]. }
  destruct Htaken as (tk & Htk & Hnone & Hsome). rewrite Htk in E.
  destruct tk as [early|];
    [injection E as <- _; rewrite (Hsome _ eq_refl) in Hok; discriminate|].
  specialize (Hnone eq_refl).
  (* the start report and the encoder *)
  unfold tbind at 1 in E. unfold reportProgress at 1 in E. cbn [world reports] in E.
  unfold tbind at 1 in E. unfold GzipHandler.createGzip in E.
  destruct ((Zip.compressionLevel args <? -1) || (9 <? Zip.compressionLevel args));
    [discriminate|].
  unfold lift at 1, ret at 1 in E. cbn [world reports] in E.
  (* the pipeline *)
  unfold tbind at 1 in E. unfold ttry at 1 in E.
  unfold tbind at 1 in E.
  destruct (openWrite (zip_targetPath w args) w1) as [[q|e] w3] eqn:Eo;
    rewrite (@lift_eq _ _ _ _ _ _ Eo) in E; [|injection E as <- _; discriminate].
  destruct (openWrite_post _ _ Eo) as (_ & _ & Hc3 & Hn3).
  assert (He3 : events w3 = events w1) by (now destruct (openWrite_effect _ _ Eo)).
  unfold tbind at 1 in E. unfold lift at 1, readStream in E. cbn [world reports] in E.
  destruct (lookup w3 (zip_source w args)) as [[read|]|] eqn:Hread;
    try (injection E as <- _; discriminate).
  exists read.
  assert (Hopen : wrote w w3 q []).
  { eapply target_wrote; try eassumption.
    - reflexivity.
    - rewrite Hn3. apply put_same.
    - reflexivity. }
  pose proof (@read_after_open_spec _ _ _ _ _ _ Hopen Hsrc Hread) as Hra.
  unfold tbind at 1 in E. rewrite onData_spec in E.
  unfold tbind at 1 in E. unfold lift at 1, writeChunk in E. cbn [world reports] in E.
  rewrite Hn3, put_same in E. cbn [app] in E. rewrite concat_chunksOf in E.
  unfold tret at 1 in E.
  (* the size of the target and the end *)
  unfold tbind at 1 in E.
  match type of E with
  | context [lift (fsStat ?p) {| world := ?x; reports := ?y |}] =>
      set (w5 := x) in *; set (rs5 := y) in *
  end.
  assert (Hw : locate w5 (zip_targetPath w args) = Some q
               /\ wrote w w5 q (zlib_gzip (Zip.compressionLevel args) read)).
  { eapply target_wrote; try eassumption.
    - reflexivity.
    - unfold w5. cbn [nodes]. apply put_same.
    - intros q' Hne. unfold w5. cbn [nodes]. rewrite put_other by exact Hne.
      now rewrite Hn3. }
  destruct Hw as (Hl5 & Hw5).
  pose proof (wrote_target _ Hw5 Hl5) as Ht5.
  unfold lift at 1, fsStat in E. cbn [world reports] in E. rewrite Ht5 in E.
  unfold tbind at 1 in E. unfold reportProgress at 1 in E. cbn [world reports] in E.
  unfold tret in E. injection E as <- <-. cbn [world reports].
  exists q. split; [reflexivity|]. split; [exact Hl5|]. split; [exact Hw5|].
  split; [exact Hra|].
  split; [unfold w5; cbn [events]; congruence|]. split.
  - unfold rs5, run_reports. rewrite <- !app_assoc. reflexivity.
  - intros Hf. eapply lookup_none_extends; eauto.
Qed.
End ToolFacts.

Section ToolFacts2.
Context {rt : Runtime} {host : Tools.Host}.
Import Tools.

Lemma choose_output_dir (o : option string) (w : World) (rs : list Report) (d : string) :
  (match o with
   | Some dir => if negb (dir =? EmptyString)%string then absolutePath dir else tret d
   | None => tret d
   end) {| world := w; reports := rs |}
  = (Ret (if truthy_str o then absolute_of w (or_str o EmptyString) else d),
     {| world := w; reports := rs |}).
Proof.
  destruct o as [dir|]; [|reflexivity].
  cbn [truthy_str or_str]. destruct (dir =? EmptyString)%string; reflexivity.
Qed.

Lemma unzip_success (args : Unzip.Args) (w : World) (rs : list Report)
    (r : ToolResult) (tw' : ToolWorld) :
  Unzip.execute args {| world := w; reports := rs |} = (Ret r, tw') ->
  failed r = false ->
  exists data read q,
    lookup w (unzip_source w args) = Some (File data)
    /\ snd (zlib_gunzip read) = None
    /\ locate (world tw') (unzip_outputPath w args) = Some q
    /\ wrote w (world tw') q (List.concat (fst (zlib_gunzip read)))
    /\ read_after_open w (unzip_source w args) q data read
    /\ events (world tw') = events w
    /\ reports tw'
       = (rs ++ run_reports false "Decompressing"
                  ("Starting decompression of " ++ unzip_source w args ++ "...")
                  "Decompression completed!" (blen data) read)%list.
Proof.
  unfold Unzip.execute. unfold ttry at 1.
  match goal with |- context [tbind ?c ?k ?tw] => destruct (tbind c k tw) as [[r0|e] tw0] eqn:E end;
    intros [= <- <-] Hok; [|discriminate].
  unfold tbind at 1 in E. unfold absolutePath at 1 in E. cbn [world] in E.
  fold (unzip_source w args) in E.
  unfold tbind at 1 in E. rewrite statSource_spec in E.
  destruct (lookup w (unzip_source w args)) as [[data|]|] eqn:Hsrc;
    try (injection E as <- _; discriminate).
  exists data.
  unfold tbind at 1 in E. rewrite choose_output_dir in E.
  fold (unzip_outputDir w args) in E.
  fold (unzip_outputPath w args) in E.
  (* mkdir *)
  unfold tbind at 1 in E. unfold ttry at 1 in E. unfold tbind at 1 in E.
  destruct (fsMkdir (unzip_outputDir w args) w) as [[[]|e] w1] eqn:Em;
    rewrite (@lift_eq _ _ _ _ rs _ Em) in E;
    [|injection E as <- _; discriminate].
  unfold tret at 1 in E.
  destruct (fsMkdir_post _ _ Em) as (Hc1 & He1 & Hx1 & Ha1).
  (* the start report *)
  unfold tbind at 1 in E. unfold reportProgress at 1 in E. cbn [world reports] in E.
  (* the pipeline *)
  unfold tbind at 1 in E. unfold ttry at 1 in E.
  unfold tbind at 1 in E.
  destruct (openWrite (unzip_outputPath w args) w1) as [[q|e] w3] eqn:Eo;
    rewrite (@lift_eq _ _ _ _ _ _ Eo) in E; [|injection E as <- _; discriminate].
  destruct (openWrite_post _ _ Eo) as (_ & _ & Hc3 & Hn3).
  assert (He3 : events w3 = events w1) by (now destruct (openWrite_effect _ _ Eo)).
  unfold tbind at 1 in E. unfold lift at 1, readStream in E. cbn [world reports] in E.
  destruct (lookup w3 (unzip_source w args)) as [[read|]|] eqn:Hread;
    try (injection E as <- _; discriminate).
  exists read.
  assert (Hopen : wrote w w3 q []).
  { eapply target_wrote; try eassumption.
    - reflexivity.
    - rewrite Hn3. apply put_same.
    - reflexivity. }
  pose proof (@read_after_open_spec _ _ _ _ _ _ Hopen Hsrc Hread) as Hra.
  unfold tbind at 1 in E. rewrite onData_spec in E.
  rewrite concat_chunksOf in E.
  unfold tbind at 1 in E.
  destruct (@writeAll_post q (fst (zlib_gunzip read)) w3 [])
    as (w5 & Hw & Hc5 & Hq5 & Ho5).
  { rewrite Hn3. apply put_same. }
  assert (He5 : events w5 = events w3).
  { destruct (writeAll_effect q (fst (zlib_gunzip read)) w3) as (w5' & Hw' & (_ & He)).
    congruence. }
  rewrite (@lift_eq _ _ _ _ _ _ Hw) in E.
  destruct (snd (zlib_gunzip read)) as [e|] eqn:Herr;
    [injection E as <- _; discriminate|].
  unfold tret at 1 in E.
  (* the size of the output and the end *)
  cbn [app] in Hq5.
  assert (Hwr : locate w5 (unzip_outputPath w args) = Some q
                /\ wrote w w5 q (List.concat (fst (zlib_gunzip read)))).
  { eapply target_wrote; eassumption. }
  destruct Hwr as (Hl5 & Hw5).
  pose proof (wrote_target _ Hw5 Hl5) as Ht5.
  unfold tbind at 1 in E. unfold ttry at 1 in E.
  unfold tbind at 1 in E. unfold lift at 1, fsStat in E. cbn [world reports] in E.
  rewrite Ht5 in E. unfold tret at 1 in E.
  unfold tbind at 1 in E. unfold reportProgress at 1 in E. cbn [world reports] in E.
  unfold tret in E. injection E as <- <-. cbn [world reports].
  exists q. split; [reflexivity|]. split; [reflexivity|]. split; [exact Hl5|].
  split; [exact Hw5|]. split; [exact Hra|]. split; [congruence|].
  unfold run_reports. rewrite <- !app_assoc. reflexivity.
Qed.
End ToolFacts2.

Section ToolProperties.
Context {rt : Runtime} {host : Tools.Host}.
Import Tools.

Lemma statSource_file (p : string) (w : World) (rs : list Report) (data : list byte) :
  lookup w p = Some (File data) ->
  statSource p {| world := w; reports := rs |}
  = (Ret (inr (File data)), {| world := w; reports := rs |}).
Proof. intros H. now rewrite statSource_spec, H. Qed.

(** X25.  Without an explicit output name the zip tool refuses a source
    whose default target ([name.gz] in the target directory) exists: it
    returns an error result and reports no progress, and every path that
    resolved before resolves to the same node. *)
Theorem zip_refuses_an_existing_default_target :
  forall (args : Zip.Args) (w : World) (rs : list Report) (data : list byte),
    lookup w (zip_source w args) = Some (File data) ->
    truthy_str (Zip.outputFileName args) = false ->
    exists_at w (zip_targetPath w args) = true ->
    exists r w',
      Zip.execute args {| world := w; reports := rs |}
      = (Ret r, {| world := w'; reports := rs |})
      /\ failed r = true
      /\ cwd w' = cwd w /\ events w' = events w
      /\ (forall p n, lookup w p = Some n -> lookup w' p = Some n).
Proof.
  intros args w rs data Hsrc Hname Hex.
  unfold Zip.execute. unfold ttry at 1.
  rewrite (@tbind_ret _ _ _ _ _ _ _ (eq_refl : absolutePath (Zip.sourceFilePath args)
                                    {| world := w; reports := rs |}
                                  = (Ret (zip_source w args), _))).
  rewrite (@tbind_ret _ _ _ _ _ _ _ (@statSource_file _ _ rs _ Hsrc)).
  rewrite (@tbind_ret _ _ _ _ _ _ _ (choose_dir _ _ _ _ _)).
  fold (zip_targetDir w args). fold (zip_targetPath w args).
  unfold tbind at 1. unfold ttry at 1. unfold tbind at 1.
  destruct (fsMkdir (zip_targetDir w args) w) as [[[]|e] w1] eqn:Em;
    rewrite (@lift_eq _ _ _ _ rs _ Em).
  - destruct (fsMkdir_post _ _ Em) as (Hc1 & He1 & Hx1 & Ha1).
    unfold tret at 1. rewrite Hname. cbn [negb].
    unfold exists_at in Hex.
    destruct (lookup w (zip_targetPath w args)) as [n|] eqn:Et; [|discriminate].
    pose proof (@lookup_extends _ _ _ _ Hc1 Hx1 Et) as Et1.
    unfold tbind at 1. unfold ttry at 1. unfold tbind at 1.
    unfold lift at 1, fsAccess. cbn [world reports]. rewrite Et1.
    unfold tret. eexists. exists w1. split; [reflexivity|].
    split; [reflexivity|]. split; [exact Hc1|]. split; [exact He1|].
    intros p n' Hp. eapply lookup_extends; eassumption.
  - rewrite (fsMkdir_throws _ _ Em). unfold tret.
    eexists. exists w. split; [reflexivity|]. repeat split; auto.
Qed.

(** X26.  When the zip tool succeeds and the target is not the source
    file itself, the target holds the gzip encoding of the source at the
    level asked for, the source is unchanged, every other path that
    resolved before resolves to the same node, and, when no output name was
    given, nothing existed at the target before. *)
Theorem zip_writes_the_encoding :
  forall (args : Zip.Args) (w : World) (rs : list Report)
         (r : ToolResult) (tw' : ToolWorld),
    Zip.execute args {| world := w; reports := rs |} = (Ret r, tw') ->
    failed r = false ->
    locate (world tw') (zip_targetPath w args) <> locate w (zip_source w args) ->
    exists data,
      lookup w (zip_source w args) = Some (File data)
      /\ lookup (world tw') (zip_targetPath w args)
         = Some (File (zlib_gzip (Zip.compressionLevel args) data))
      /\ lookup (world tw') (zip_source w args) = Some (File data)
      /\ (truthy_str (Zip.outputFileName args) = false ->
          lookup w (zip_targetPath w args) = None)
      /\ (forall p n, lookup w p = Some n ->
                      locate (world tw') p <> locate (world tw') (zip_targetPath w args) ->
                      lookup (world tw') p = Some n).
Proof.
  intros args w rs r tw' H Hok Hne.
  destruct (zip_success _ _ _ H Hok)
    as (data & read & q & Hsrc & Hl & Hw & (Hread & _) & _ & _ & Hnew).
  assert (read = data) by (apply Hread; congruence). subst read.
  exists data. split; [exact Hsrc|].
  split; [eapply wrote_target; eassumption|].
  split; [eapply wrote_source; eassumption|].
  split; [exact Hnew|].
  eapply wrote_frame; eassumption.
Qed.

(** X27.  With an explicit output name the zip tool makes no check of the
    target: on a regular file in an existing directory it succeeds and
    replaces what the file held by the encoding of the source. *)
Theorem zip_explicit_name_overwrites :
  forall (args : Zip.Args) (w : World) (rs : list Report)
         (data old : list byte) (name : string),
    lookup w (zip_source w args) = Some (File data) ->
    Zip.outputFileName args = Some name -> name <> EmptyString ->
    dir_at w (zip_targetDir w args) = true ->
    lookup w (zip_targetPath w args) = Some (File old) ->
    locate w (zip_targetPath w args) <> locate w (zip_source w args) ->
    -1 <= Zip.compressionLevel args <= 9 ->
    exists r tw',
      Zip.execute args {| world := w; reports := rs |} = (Ret r, tw')
      /\ failed r = false
      /\ lookup (world tw') (zip_targetPath w args)
         = Some (File (zlib_gzip (Zip.compressionLevel args) data))
      /\ lookup (world tw') (zip_source w args) = Some (File data).
Proof.
  intros args w rs data old name Hsrc Hname Hne Hdir Htgt Hdiff Hlevel.
  assert (Hrun : exists r tw',
             Zip.execute args {| world := w; reports := rs |} = (Ret r, tw')
             /\ failed r = false).
  { unfold Zip.execute. unfold ttry at 1.
    rewrite (@tbind_ret _ _ _ _ _ _ _ (eq_refl : absolutePath (Zip.sourceFilePath args)
                                      {| world := w; reports := rs |}
                                    = (Ret (zip_source w args), _))).
    rewrite (@tbind_ret _ _ _ _ _ _ _ (@statSource_file _ _ rs _ Hsrc)).
    rewrite (@tbind_ret _ _ _ _ _ _ _ (choose_dir _ _ _ _ _)).
    fold (zip_targetDir w args). fold (zip_targetPath w args).
    unfold tbind at 1. unfold ttry at 1. unfold tbind at 1.
    rewrite (@lift_eq _ _ _ _ rs _ (fsMkdir_existing _ _ Hdir)).
    set (w1 := {| cwd := cwd w; nodes := nodes w; events := events w |}).
    unfold tret at 1.
    assert (Htruthy : truthy_str (Zip.outputFileName args) = true).
    { rewrite Hname. cbn. now apply negb_true_iff, String.eqb_neq. }
    rewrite Htruthy. cbn [negb].
    unfold tbind at 1. unfold tret at 1.
    unfold tbind at 1. unfold reportProgress at 1. cbn [world reports].
    unfold tbind at 1. unfold GzipHandler.createGzip.
    replace ((Zip.compressionLevel args <? -1) || (9 <? Zip.compressionLevel args))
      with false
      by (symmetry; apply orb_false_iff; split; apply Z.ltb_ge; lia).
    unfold lift at 1, ret at 1. cbn [world reports].
    unfold tbind at 1. unfold ttry at 1.
    unfold tbind at 1. unfold lift at 1, openWrite. cbn [world reports].
    change (locate w1 (zip_targetPath w args)) with (locate w (zip_targetPath w args)).
    unfold lookup in Htgt.
    destruct (locate w (zip_targetPath w args)) as [q|] eqn:El; [|discriminate].
    cbn [nodes w1]. rewrite Htgt.
    unfold tbind at 1. unfold lift at 1, readStream. cbn [world reports].
    match goal with
    | |- context [lookup ?x (zip_source w args)] =>
        assert (Hrd : lookup x (zip_source w args) = Some (File data))
    end.
    { unfold lookup in Hsrc |- *. unfold locate in Hsrc, Hdiff |- *. cbn [cwd nodes].
      destruct (zip_source w args =? EmptyString)%string; [discriminate|].
      destruct (walk (nodes w) (if isAbsolute (zip_source w args) then [] else cwd w)
                  (split_slash (zip_source w args))) as [l|] eqn:Ew; [|discriminate].
      erewrite walk_agree; [| |exact Ew].
      - rewrite put_other; [exact Hsrc|]. intros ->. now apply Hdiff.
      - intros c Hc. assert (c <> q) by congruence. now rewrite put_other. }
    rewrite Hrd.
    unfold tbind at 1. rewrite onData_spec.
    unfold tbind at 1. unfold lift at 1, writeChunk. cbn [world reports nodes].
    rewrite put_same. unfold tret at 1.
    unfold tbind at 1. unfold lift at 1, fsStat. cbn [world reports].
    match goal with
    | |- context [lookup ?x (zip_targetPath w args)] =>
        assert (Hfin : lookup x (zip_targetPath w args)
                       = Some (File ([] ++ zlib_gzip (Zip.compressionLevel args)
                                             (List.concat (chunksOf (Z.to_nat highWaterMark) data)))%list))
    end.
    { unfold lookup, locate. cbn [cwd nodes].
      unfold locate in El.
      destruct (zip_targetPath w args =? EmptyString)%string; [discriminate|].
      erewrite walk_agree; [apply put_same| |exact El].
      intros c Hc. assert (c <> q) by congruence.
      now rewrite !put_other by assumption. }
    rewrite Hfin.
    unfold tbind at 1. unfold reportProgress at 1. cbn [world reports].
    unfold tret. eexists. eexists. split; reflexivity. }
  destruct Hrun as (r & tw' & Hrun & Hok).
  exists r, tw'. split; [exact Hrun|]. split; [exact Hok|].
  destruct (zip_success _ _ _ Hrun Hok)
    as (data' & read & q & Hsrc' & Hl & Hw & (Hread & _) & _).
  assert (data' = data) by congruence. subst data'.
  assert (Hdiff' : locate (world tw') (zip_targetPath w args)
                   <> locate w (zip_source w args)).
  { destruct (locate w (zip_targetPath w args)) as [q0|] eqn:El0.
    - rewrite (wrote_locate _ Hw El0). exact Hdiff.
    - unfold lookup in Htgt. rewrite El0 in Htgt. discriminate. }
  assert (read = data) by (apply Hread; congruence). subst read.
  split; [eapply wrote_target; eassumption|].
  eapply wrote_source; eassumption.
Qed.

(** X30.  When the unzip tool succeeds and the output is not the source
    file itself, the decoder ended without an error, the output holds all
    the decoded chunks in order, whatever was there before, the source is
    unchanged, and every other path that resolved before resolves to the
    same node. *)
Theorem unzip_writes_the_decoding :
  forall (args : Unzip.Args) (w : World) (rs : list Report)
         (r : ToolResult) (tw' : ToolWorld),
    Unzip.execute args {| world := w; reports := rs |} = (Ret r, tw') ->
    failed r = false ->
    locate (world tw') (unzip_outputPath w args) <> locate w (unzip_source w args) ->
    exists data,
      lookup w (unzip_source w args) = Some (File data)
      /\ snd (zlib_gunzip data) = None
      /\ lookup (world tw') (unzip_outputPath w args)
         = Some (File (List.concat (fst (zlib_gunzip data))))
      /\ lookup (world tw') (unzip_source w args) = Some (File data)
      /\ (forall p n, lookup w p = Some n ->
                      locate (world tw') p <> locate (world tw') (unzip_outputPath w args) ->
                      lookup (world tw') p = Some n).
Proof.
  intros args w rs r tw' H Hok Hne.
  destruct (unzip_success _ _ _ H Hok)
    as (data & read & q & Hsrc & Herr & Hl & Hw & (Hread & _) & _ & _).
  assert (read = data) by (apply Hread; congruence). subst read.
  exists data. split; [exact Hsrc|]. split; [exact Herr|].
  split; [eapply wrote_target; eassumption|].
  split; [eapply wrote_source; eassumption|].
  eapply wrote_frame; eassumption.
Qed.
End ToolProperties.

Section ProgressRunsOfTools.
Context {rt : Runtime}.
Import Tools.

Lemma running_bound (chunks : list (list byte)) :
  forall acc,
    Forall (fun k => acc <= k <= acc + blen (List.concat chunks)) (running acc chunks).
Proof.
  induction chunks as [|c cs IH]; intros acc; cbn [running List.concat]; [constructor|].
  rewrite blen_app. pose proof (blen_nonneg c). pose proof (blen_nonneg (List.concat cs)).
  constructor; [lia|].
  eapply Forall_impl; [|apply IH]. cbv beta. intros k Hk. lia.
Qed.

Lemma round_percent_zero (sz : Z) : sz <> 0 -> Math_round (percent64 0 sz) = 0.
Proof. intros Hsz. now rewrite (Math_round_comp (percent64_zero Hsz)). Qed.

Lemma round_percent_full (sz : Z) : 0 < sz -> Math_round (percent64 sz sz) = 100.
Proof. intros Hsz. now rewrite (Math_round_comp (percent64_full Hsz)). Qed.

Lemma data_report_progress (cap : bool) (verb : string) (sz k : Z) :
  progress (data_report cap verb sz k)
  = if cap then Z.min 100 (Math_round (percent64 k sz)) else Math_round (percent64 k sz).
Proof. reflexivity. Qed.

Lemma data_report_mono (cap : bool) (verb : string) (sz a b : Z) :
  0 < sz -> a <= b ->
  progress (data_report cap verb sz a) <= progress (data_report cap verb sz b).
Proof.
  intros Hsz Hab. rewrite !data_report_progress.
  pose proof (Math_round_mono (percent64_mono Hsz Hab)). destruct cap; lia.
Qed.

Lemma data_report_range (cap : bool) (verb : string) (sz k : Z) :
  0 < sz -> 0 <= k <= sz ->
  0 <= progress (data_report cap verb sz k) <= 100.
Proof.
  intros Hsz [H0 H1]. rewrite data_report_progress.
  pose proof (Math_round_mono (percent64_mono Hsz H0)) as Hlo.
  pose proof (Math_round_mono (percent64_mono Hsz H1)) as Hhi.
  rewrite round_percent_zero in Hlo by lia. rewrite round_percent_full in Hhi by lia.
  destruct cap; lia.
Qed.

Lemma Sorted_cons_map (f : Z -> Z) (ks : list Z) (lo : Z) :
  (forall a b, a <= b -> f a <= f b) ->
  Sorted Z.le (lo :: ks) ->
  Sorted Z.le (map f (lo :: ks)).
Proof. intros Hf Hs. now apply Sorted_map_mono. Qed.

Lemma read_after_open_length (w : World) (src : string) (q : location)
    (data read : list byte) :
  read_after_open w src q data read -> 0 <= blen read <= blen data.
Proof.
  intros [H1 H2]. pose proof (blen_nonneg data).
  destruct (locate w src) as [l|].
  - destruct (loc_eqb l q) eqn:E.
    + apply loc_eqb_eq in E. subst l. rewrite (H2 eq_refl). change (blen []) with 0. lia.
    + rewrite H1; [lia|]. intros [= ->].
      rewrite (proj2 (loc_eqb_eq q q) eq_refl) in E. discriminate.
  - rewrite H1; [lia|discriminate].
Qed.

Lemma run_reports_steady (cap : bool) (verb start done : string) (sz : Z)
    (read : list byte) :
  0 <= blen read <= sz ->
  steady_run (run_reports cap verb start done sz read).
Proof.
  intros Hread. unfold run_reports.
  set (ks := running 0 (chunksOf (Z.to_nat highWaterMark) read)).
  set (first := {| progress := 0; total := 100; note := start |}).
  set (final := {| progress := 100; total := 100; note := done |}).
  assert (Hks : Forall (fun k => 0 <= k <= sz) ks).
  { pose proof (running_bound (chunksOf (Z.to_nat highWaterMark) read) 0) as H.
    rewrite concat_chunksOf in H.
    eapply Forall_impl; [|exact H]. cbv beta. intros k Hk. lia. }
  assert (Hempty : sz = 0 -> ks = []).
  { intros Hz. unfold ks. assert (Hr0 : blen read = 0) by lia.
    now rewrite (blen_zero _ Hr0). }
  assert (Hrange : Forall (fun x => 0 <= progress x <= 100 /\ total x = 100)
                     (map (data_report cap verb sz) ks)).
  { destruct (Z.eq_dec sz 0) as [Hz|Hnz]; [rewrite (Hempty Hz); constructor|].
    apply Forall_map. eapply Forall_impl; [|exact Hks]. cbv beta. intros k Hk.
    split; [|reflexivity]. apply data_report_range; [|exact Hk]. lia. }
  split; [|split; [|split]].
  - exists first, (map (data_report cap verb sz) ks ++ [final])%list. now split.
  - exists (first :: map (data_report cap verb sz) ks), final. now split.
  - cbn [map]. rewrite map_app. cbn [map progress final first].
    change (0 :: map progress (map (data_report cap verb sz) ks) ++ [100])%list
      with ((0 :: map progress (map (data_report cap verb sz) ks)) ++ [100])%list.
    apply Sorted_snoc.
    + destruct (Z.eq_dec sz 0) as [Hz|Hnz].
      * rewrite (Hempty Hz). repeat constructor.
      * assert (Hsz : 0 < sz) by lia.
        rewrite map_map.
        replace 0 with (progress (data_report cap verb sz 0)) at 1
          by (rewrite data_report_progress, round_percent_zero by lia; now destruct cap).
        change (Sorted Z.le (map (fun k => progress (data_report cap verb sz k)) (0 :: ks))).
        apply Sorted_map_mono.
        -- intros a b. now apply data_report_mono.
        -- apply running_sorted.
    + constructor; [lia|].
      apply Forall_map. eapply Forall_impl; [|exact Hrange]. cbv beta. intros x [Hx _]. lia.
  - constructor; [now split|]. apply Forall_app. split; [exact Hrange|].
    constructor; [now split|constructor].
Qed.
End ProgressRunsOfTools.

Section ToolProperties2.
Context {rt : Runtime} {host : Tools.Host}.
Import Tools.

(** X28.  The reports of a successful zip or unzip run start at 0, never
    go down, stay within 0 and 100 out of a total of 100, and end at 100,
    for an empty source as well. *)
Theorem tool_progress_is_steady :
  (forall (args : Zip.Args) (w : World) (rs : list Report) (r : ToolResult)
          (tw' : ToolWorld),
      Zip.execute args {| world := w; reports := rs |} = (Ret r, tw') ->
      failed r = false ->
      exists news, reports tw' = (rs ++ news)%list /\ steady_run news)
  /\ (forall (args : Unzip.Args) (w : World) (rs : list Report) (r : ToolResult)
             (tw' : ToolWorld),
         Unzip.execute args {| world := w; reports := rs |} = (Ret r, tw') ->
         failed r = false ->
         exists news, reports tw' = (rs ++ news)%list /\ steady_run news).
Proof.
  split; intros args w rs r tw' H Hok.
  - destruct (zip_success _ _ _ H Hok)
      as (data & read & q & _ & _ & _ & Hra & _ & Hr & _).
    eexists. split; [exact Hr|].
    apply run_reports_steady. eapply read_after_open_length; exact Hra.
  - destruct (unzip_success _ _ _ H Hok)
      as (data & read & q & _ & _ & _ & _ & Hra & _ & Hr).
    eexists. split; [exact Hr|].
    apply run_reports_steady. eapply read_after_open_length; exact Hra.
Qed.

Lemma length_substring_0 (n : nat) (s : string) :
  String.length (substring 0 n s) = Nat.min n (String.length s).
Proof.
  revert n; induction s as [|c s IH]; intros [|n]; simpl; try reflexivity.
  now rewrite IH.
Qed.

(** X29.  The default output name of the unzip tool is never the name of
    the source: a name ending in [.gz] loses these three characters, any
    other name gets [.extracted] added. *)
Theorem unzip_default_name :
  forall (srcFilename : string),
    Unzip.defaultOutputFileName srcFilename <> srcFilename
    /\ (forall stem, srcFilename = stem ++ ".gz" ->
                     Unzip.defaultOutputFileName srcFilename = stem)
    /\ (endsWith srcFilename ".gz" = false ->
        Unzip.defaultOutputFileName srcFilename = srcFilename ++ ".extracted").
Proof.
  intros s. unfold Unzip.defaultOutputFileName. split; [|split].
  - destruct (endsWith s ".gz") eqn:E; intros Heq;
      apply (f_equal String.length) in Heq.
    + unfold endsWith in E. apply andb_true_iff in E as [Hlen _].
      apply Nat.leb_le in Hlen. cbn [String.length] in Hlen.
      unfold slice_drop_last in Heq. rewrite length_substring_0 in Heq. lia.
    + rewrite length_append in Heq. cbn [String.length] in Heq. lia.
  - intros stem ->. rewrite endsWith_append.
    exact (slice_drop_last_append stem ".gz").
  - intros E. now rewrite E.
Qed.
End ToolProperties2.

Lemma zip_refuses_an_existing_default_target_witness :
  exists r w',
    @Tools.Zip.execute Posix.runtime PosixHost.host
       (Tools.Zip.Build_Args "report.txt" EmptyString None 6) (tool_start tools_world)
    = (Ret r, {| Tools.world := w'; Tools.reports := [] |})
    /\ Tools.failed r = true
    /\ lookup w' "/srv/report.txt.gz" = Some (File (Posix.bytes "stale")).
Proof.
  destruct (@zip_refuses_an_existing_default_target Posix.runtime PosixHost.host
              (Tools.Zip.Build_Args "report.txt" EmptyString None 6) tools_world []
              (Posix.bytes "figures"))
    as (r & w' & Hrun & Hfail & _ & _ & Hkeep).
  - vm_compute. reflexivity.
  - reflexivity.
  - vm_compute. reflexivity.
  - exists r, w'. split; [exact Hrun|]. split; [exact Hfail|].
    apply Hkeep. vm_compute. reflexivity.
Defined.

Lemma zip_explicit_name_overwrites_witness :
  exists r tw',
    @Tools.Zip.execute Posix.runtime PosixHost.host
       (Tools.Zip.Build_Args "report.txt" EmptyString (Some "report.txt.gz") 6)
       (tool_start tools_world)
    = (Ret r, tw')
    /\ Tools.failed r = false
    /\ lookup tools_world "/srv/report.txt.gz" = Some (File (Posix.bytes "stale"))
    /\ lookup (Tools.world tw') "/srv/report.txt.gz"
       = Some (File (Posix.store 6 (Posix.bytes "figures"))).
Proof.
  destruct (@zip_explicit_name_overwrites Posix.runtime PosixHost.host
              (Tools.Zip.Build_Args "report.txt" EmptyString (Some "report.txt.gz") 6)
              tools_world [] (Posix.bytes "figures") (Posix.bytes "stale") "report.txt.gz")
    as (r & tw' & Hrun & Hok & Htgt & _).
  - vm_compute. reflexivity.
  - reflexivity.
  - discriminate.
  - vm_compute. reflexivity.
  - vm_compute. reflexivity.
  - vm_compute. discriminate.
  - cbn. lia.
  - exists r, tw'. split; [exact Hrun|]. split; [exact Hok|].
    split; [vm_compute; reflexivity|exact Htgt].
Defined.

Lemma zip_writes_the_encoding_witness :
  lookup (Tools.world (snd (@Tools.Zip.execute Posix.runtime PosixHost.host
                              (Tools.Zip.Build_Args "../notes.txt" "out" None 9)
                              (tool_start home_world))))
         "/home/user/work/out/notes.txt.gz"
  = Some (File (Posix.store 9 (Posix.bytes "hello"))).
Proof.
  destruct (@zip_writes_the_encoding Posix.runtime PosixHost.host
              (Tools.Zip.Build_Args "../notes.txt" "out" None 9) home_world []
              (result_of_tool (fst (@Tools.Zip.execute Posix.runtime PosixHost.host
                              (Tools.Zip.Build_Args "../notes.txt" "out" None 9)
                              (tool_start home_world))))
              (snd (@Tools.Zip.execute Posix.runtime PosixHost.host
                              (Tools.Zip.Build_Args "../notes.txt" "out" None 9)
                              (tool_start home_world))))
    as (data & Hsrc & Htgt & _).
  - vm_compute. reflexivity.
  - vm_compute. reflexivity.
  - vm_compute. discriminate.
  - vm_compute in Hsrc. injection Hsrc as <-. exact Htgt.
Defined.

Lemma unzip_writes_the_decoding_witness :
  lookup (Tools.world (snd (@Tools.Unzip.execute Posix.runtime PosixHost.host
                              (Tools.Unzip.Build_Args "/home/user/archive.gz" None None)
                              (tool_start home_world))))
         "/home/user/archive"
  = Some (File (Posix.bytes "old")).
Proof.
  destruct (@unzip_writes_the_decoding Posix.runtime PosixHost.host
              (Tools.Unzip.Build_Args "/home/user/archive.gz" None None) home_world []
              (result_of_tool (fst (@Tools.Unzip.execute Posix.runtime PosixHost.host
                              (Tools.Unzip.Build_Args "/home/user/archive.gz" None None)
                              (tool_start home_world))))
              (snd (@Tools.Unzip.execute Posix.runtime PosixHost.host
                              (Tools.Unzip.Build_Args "/home/user/archive.gz" None None)
                              (tool_start home_world))))
    as (data & Hsrc & _ & Htgt & _).
  - vm_compute. reflexivity.
  - vm_compute. reflexivity.
  - vm_compute. discriminate.
  - vm_compute in Hsrc. injection Hsrc as <-. exact Htgt.
Defined.

Lemma tool_progress_is_steady_witness :
  exists news,
    Tools.reports (snd (@Tools.Unzip.execute Posix.runtime PosixHost.host
                          (Tools.Unzip.Build_Args "/home/user/archive.gz" None None)
                          (tool_start home_world)))
    = news
    /\ steady_run news.
Proof.
  destruct (proj2 (@tool_progress_is_steady Posix.runtime PosixHost.host)
              (Tools.Unzip.Build_Args "/home/user/archive.gz" None None) home_world []
              (result_of_tool (fst (@Tools.Unzip.execute Posix.runtime PosixHost.host
                              (Tools.Unzip.Build_Args "/home/user/archive.gz" None None)
                              (tool_start home_world))))
              (snd (@Tools.Unzip.execute Posix.runtime PosixHost.host
                              (Tools.Unzip.Build_Args "/home/user/archive.gz" None None)
                              (tool_start home_world))))
    as (news & Hr & Hs).
  - vm_compute. reflexivity.
  - vm_compute. reflexivity.
  - exists news. split; [exact Hr|exact Hs].
Defined.

Lemma unzip_default_name_witness :
  Tools.Unzip.defaultOutputFileName "data.gz" = "data"
  /\ Tools.Unzip.defaultOutputFileName "DATA.GZ" = "DATA.GZ.extracted".
Proof.
  destruct (@unzip_default_name "data.gz") as (_ & H1 & _).
  destruct (@unzip_default_name "DATA.GZ") as (_ & _ & H2).
  split; [exact (H1 "data" eq_refl)|exact (H2 eq_refl)].
Defined.
